(** * thynkai CLI (packages/cli/src/index.ts): registry validation engine

    A shallow embedding of the command-line tool and the properties of its
    validation engine, format validators, JSON loader and dispatcher.

    Conventions of the embedding.
    - A JavaScript string is a [string]; each [ascii] stands for one code
      unit (the Latin-1 range).  Every pattern of the program only names
      ASCII characters.
    - [undefined] is [None]; a thrown exception, a call of [process.exit]
      and a normal return are the three constructors of [outcome].
    - The file system is a tree of directories and files below the working
      directory (POSIX path syntax); console output is a log in the state. *)

From Stdlib Require Import List String Ascii Bool ZArith Lia Arith.
Import ListNotations.
Local Open Scope string_scope.
Local Open Scope list_scope.

Set Implicit Arguments.
Set Warnings "-register-all,-notation-for-abbreviation".

(* ================================================================== *)
(** ** Strings *)
(* ================================================================== *)

Module Str.

(** [s.length === 0] *)
Definition is_empty (s : string) : bool :=
  match s with EmptyString => true | String _ _ => false end.

Definition code (c : ascii) : nat := nat_of_ascii c.

Definition between (lo hi : nat) (c : ascii) : bool :=
  Nat.leb lo (code c) && Nat.leb (code c) hi.

Definition is_digit (c : ascii) : bool := between 48 57 c.
Definition is_lower (c : ascii) : bool := between 97 122 c.
Definition is_upper (c : ascii) : bool := between 65 90 c.

(** ASCII part of [String.prototype.toUpperCase] / [toLowerCase]. *)
Definition upper (c : ascii) : ascii :=
  if is_lower c then ascii_of_nat (code c - 32) else c.
Definition lower (c : ascii) : ascii :=
  if is_upper c then ascii_of_nat (code c + 32) else c.

Fixpoint map (f : ascii -> ascii) (s : string) : string :=
  match s with
  | EmptyString => EmptyString
  | String c s' => String (f c) (map f s')
  end.

Fixpoint all (p : ascii -> bool) (s : string) : bool :=
  match s with
  | EmptyString => true
  | String c s' => p c && all p s'
  end.

Fixpoint rev_onto (s acc : string) : string :=
  match s with
  | EmptyString => acc
  | String c s' => rev_onto s' (String c acc)
  end.
Definition rev (s : string) : string := rev_onto s EmptyString.

(** [s.startsWith(p)] *)
Fixpoint startsWith (s p : string) : bool :=
  match p, s with
  | EmptyString, _ => true
  | String a p', String b s' => Ascii.eqb a b && startsWith s' p'
  | String _ _, EmptyString => false
  end.

(** [s.endsWith(p)] *)
Definition endsWith (s p : string) : bool := startsWith (rev s) (rev p).

(** [s.includes(p)]: [p] occurs somewhere in [s]. *)
Fixpoint includes (s p : string) : bool :=
  startsWith s p ||
  match s with
  | EmptyString => false
  | String _ s' => includes s' p
  end.

(** [s.split(sep)] for a separator that is one character out of a set:
    the result is never empty. *)
Fixpoint split (sep : ascii -> bool) (s : string) : list string :=
  match s with
  | EmptyString => [EmptyString]
  | String c s' =>
      if sep c then EmptyString :: split sep s'
      else match split sep s' with
           | h :: t => String c h :: t
           | [] => [String c EmptyString]
           end
  end.

(** [parts.join(sep)] *)
Fixpoint concat_with (sep : string) (parts : list string) : string :=
  match parts with
  | [] => EmptyString
  | [p] => p
  | p :: rest => p ++ sep ++ concat_with sep rest
  end.

(** [s.replace(/c/g, d)] for single characters. *)
Definition replace_char (c d : ascii) (s : string) : string :=
  map (fun x => if Ascii.eqb x c then d else x) s.

(** Drop the last [n] characters. *)
Definition drop_last (n : nat) (s : string) : string :=
  substring 0 (String.length s - n) s.

(** [s.replace(/<suffix>$/, by)] where the pattern is a literal anchored
    at the end of the input: at most one match, the final one. *)
Definition replace_suffix (suffix by_ s : string) : string :=
  if endsWith s suffix then drop_last (String.length suffix) s ++ by_ else s.

(** White space and line terminators removed by [String.prototype.trim]
    (those below code unit 256). *)
Definition is_space (c : ascii) : bool :=
  between 9 13 c || Nat.eqb (code c) 32 || Nat.eqb (code c) 160.

Fixpoint trim_start (s : string) : string :=
  match s with
  | EmptyString => EmptyString
  | String c s' => if is_space c then trim_start s' else s
  end.

(** [s.trim()] *)
Definition trim (s : string) : string := rev (trim_start (rev (trim_start s))).

(** [c.repeat(n)] for a one-character string. *)
Fixpoint repeat (c : ascii) (n : nat) : string :=
  match n with
  | O => EmptyString
  | S n' => String c (repeat c n')
  end.

(** [s.slice(0, n)] for [n >= 0]. *)
Definition slice0 (n : nat) (s : string) : string := substring 0 n s.

(** The number of occurrences of a character. *)
Fixpoint count (c : ascii) (s : string) : nat :=
  match s with
  | EmptyString => 0
  | String x s' => (if Ascii.eqb x c then 1 else 0) + count c s'
  end.

End Str.

(* ================================================================== *)
(** ** Regular expressions

    The two validators are [RegExp.prototype.test] on patterns that are
    anchored at both ends ([^ ... $], no [m] flag), have no back
    reference and no look-around: [test] answers whether the whole input
    belongs to the language of the pattern body. *)
(* ================================================================== *)

Module RegExp.

(** Pattern bodies.  A literal character [c] is the class [[c-c]]. *)
Inductive regex : Type :=
| Void                                   (* matches nothing *)
| Eps                                    (* the empty pattern *)
| Class (ranges : list (ascii * ascii))  (* [a-bc-d...] *)
| Cat (r1 r2 : regex)                    (* r1 r2 *)
| Alt (r1 r2 : regex)                    (* r1|r2 *)
| Star (r : regex).                      (* r* *)

Definition lit (c : ascii) : regex := Class [(c, c)].
Definition plus (r : regex) : regex := Cat r (Star r).      (* r+ *)
Definition opt (r : regex) : regex := Alt r Eps.            (* (?:r)? *)

Fixpoint times (n : nat) (r : regex) : regex :=             (* r{n} *)
  match n with
  | O => Eps
  | S n' => Cat r (times n' r)
  end.

Fixpoint text (s : string) : regex :=                       (* abc *)
  match s with
  | EmptyString => Eps
  | String c s' => Cat (lit c) (text s')
  end.

(** ECMAScript [Canonicalize] without the [u] flag: with [i] a character
    is compared through [toUpperCase], except that a character outside
    ASCII is never folded onto an ASCII one.  On such characters the
    model is the identity: they never equal the canonical form of a
    pattern character of this program, all of which are ASCII. *)
Definition canonicalize (ignoreCase : bool) (c : ascii) : ascii :=
  if ignoreCase then Str.upper c else c.

Definition range_chars (lo hi : ascii) : list ascii :=
  List.map ascii_of_nat (seq (Str.code lo) (S (Str.code hi) - Str.code lo)).

(** [CharacterSetMatcher]: some member of the class has the canonical
    form of the input character. *)
Definition class_test (ignoreCase : bool) (ranges : list (ascii * ascii))
           (c : ascii) : bool :=
  existsb
    (fun '(lo, hi) =>
       existsb (fun a => Ascii.eqb (canonicalize ignoreCase a)
                                   (canonicalize ignoreCase c))
               (range_chars lo hi))
    ranges.

Fixpoint nullable (r : regex) : bool :=
  match r with
  | Void => false
  | Eps => true
  | Class _ => false
  | Cat r1 r2 => nullable r1 && nullable r2
  | Alt r1 r2 => nullable r1 || nullable r2
  | Star _ => true
  end.

Fixpoint deriv (ic : bool) (c : ascii) (r : regex) : regex :=
  match r with
  | Void => Void
  | Eps => Void
  | Class rs => if class_test ic rs c then Eps else Void
  | Cat r1 r2 =>
      if nullable r1
      then Alt (Cat (deriv ic c r1) r2) (deriv ic c r2)
      else Cat (deriv ic c r1) r2
  | Alt r1 r2 => Alt (deriv ic c r1) (deriv ic c r2)
  | Star r1 => Cat (deriv ic c r1) (Star r1)
  end.

Fixpoint matches (ic : bool) (r : regex) (s : string) : bool :=
  match s with
  | EmptyString => nullable r
  | String c s' => matches ic (deriv ic c r) s'
  end.

(** A pattern [/^body$/] or [/^body$/i]. *)
Record anchored : Type := Anchored { body : regex; ignoreCase : bool }.

(** [re.test(s)] *)
Definition test (re : anchored) (s : string) : bool :=
  matches (ignoreCase re) (body re) s.

(** The language of a pattern body. *)
Inductive lang (ic : bool) : regex -> string -> Prop :=
| L_eps : lang ic Eps EmptyString
| L_class rs c :
    class_test ic rs c = true -> lang ic (Class rs) (String c EmptyString)
| L_cat r1 r2 s1 s2 :
    lang ic r1 s1 -> lang ic r2 s2 -> lang ic (Cat r1 r2) (s1 ++ s2)
| L_alt_l r1 r2 s : lang ic r1 s -> lang ic (Alt r1 r2) s
| L_alt_r r1 r2 s : lang ic r2 s -> lang ic (Alt r1 r2) s
| L_star_nil r : lang ic (Star r) EmptyString
| L_star_cons r s1 s2 :
    lang ic r s1 -> lang ic (Star r) s2 -> lang ic (Star r) (s1 ++ s2).

End RegExp.

Import RegExp.

(** [const SEMVER_RE =
      /^(\d+)\.(\d+)\.(\d+)(?:-([0-9A-Za-z.-]+))?(?:\+([0-9A-Za-z.-]+))?$/] *)
Definition digit_class : regex := Class [("0"%char, "9"%char)].
Definition ident_class : regex :=
  Class [("0"%char, "9"%char); ("A"%char, "Z"%char); ("a"%char, "z"%char);
         ("."%char, "."%char); ("-"%char, "-"%char)].

Definition SEMVER_RE : anchored :=
  Anchored
    (Cat (plus digit_class)
    (Cat (lit ".")
    (Cat (plus digit_class)
    (Cat (lit ".")
    (Cat (plus digit_class)
    (Cat (opt (Cat (lit "-") (plus ident_class)))
         (opt (Cat (lit "+") (plus ident_class)))))))))
    false.

(** [const SHA256_RE = /^sha256:[0-9a-f]{64}$/i] *)
Definition hex_class : regex := Class [("0"%char, "9"%char); ("a"%char, "f"%char)].

Definition SHA256_RE : anchored :=
  Anchored (Cat (text "sha256:") (times 64 hex_class)) true.

(* ================================================================== *)
(** ** JSON values and the JavaScript operations applied to them *)
(* ================================================================== *)

(** The result of [JSON.parse].  No check of the program inspects a
    number, so the payload of [VNum] only keeps numbers apart. *)
Inductive value : Type :=
| VNull
| VBool (b : bool)
| VNum (n : Z)
| VStr (s : string)
| VArr (items : list value)
| VObj (props : list (string * value)).

(** A JavaScript value that may be [undefined]. *)
Definition jsval : Type := option value.

Fixpoint assoc {A : Type} (k : string) (l : list (string * A)) : option A :=
  match l with
  | [] => None
  | (k', a) :: rest => if String.eqb k k' then Some a else assoc k rest
  end.

(** [typeof x] *)
Definition typeof (x : jsval) : string :=
  match x with
  | None => "undefined"
  | Some VNull => "object"
  | Some (VBool _) => "boolean"
  | Some (VNum _) => "number"
  | Some (VStr _) => "string"
  | Some (VArr _) => "object"
  | Some (VObj _) => "object"
  end.

(** Truthiness, as tested by [!x], [x && y] and [assert(x, ...)]. *)
Definition truthy (x : jsval) : bool :=
  match x with
  | None => false
  | Some VNull => false
  | Some (VBool b) => b
  | Some (VNum n) => negb (Z.eqb n 0)
  | Some (VStr s) => negb (Str.is_empty s)
  | Some (VArr _) => true
  | Some (VObj _) => true
  end.

(** [x === y].  Objects and arrays are compared by identity: the two sides
    of every comparison of the program come from different places (two
    parsed documents, or a document and a literal), so they never are the
    same object. *)
Definition strict_eq (x y : jsval) : bool :=
  match x, y with
  | None, None => true
  | Some VNull, Some VNull => true
  | Some (VBool a), Some (VBool b) => Bool.eqb a b
  | Some (VNum a), Some (VNum b) => Z.eqb a b
  | Some (VStr a), Some (VStr b) => String.eqb a b
  | _, _ => false
  end.

(** The string held by a value whose [typeof] is ["string"]; it is only
    applied where the program has just made that test. *)
Definition as_string (x : jsval) : string :=
  match x with
  | Some (VStr s) => s
  | _ => EmptyString
  end.

(** [xs.includes(x)] for an array literal of strings. *)
Definition includes_str (xs : list string) (x : jsval) : bool :=
  existsb (fun s => strict_eq (Some (VStr s)) x) xs.

(** The text of a file.  [JSON.parse] and [JSON.stringify] belong to the
    runtime: a text that parses to [v] (such as one produced by
    [JSON.stringify(v, null, 2) + "\n"]) is [Json v]; any text that does
    not parse is [Plain s]. *)
Inductive content : Type :=
| Plain (s : string)
| Json (v : value).

(* ================================================================== *)
(** ** Paths (node:path, POSIX flavour) *)
(* ================================================================== *)

Module Path.

Definition is_slash (c : ascii) : bool := Ascii.eqb c "/".

Definition normalize_step (absolute : bool) (acc : list string) (seg : string)
  : list string :=
  if String.eqb seg EmptyString || String.eqb seg "." then acc
  else if String.eqb seg ".." then
    match acc with
    | top :: rest => if String.eqb top ".." then seg :: acc else rest
    | [] => if absolute then [] else [seg]
    end
  else seg :: acc.

(** [normalizeString]: the stack of kept segments is built in reverse. *)
Definition normalize_parts (absolute : bool) (parts : list string) : list string :=
  List.rev (fold_left (normalize_step absolute) parts []).

(** [path.normalize] *)
Definition normalize (p : string) : string :=
  if Str.is_empty p then "."
  else
    let absolute := Str.startsWith p "/" in
    let trailing := Str.endsWith p "/" in
    let kept := Str.concat_with "/" (normalize_parts absolute (Str.split is_slash p)) in
    if Str.is_empty kept then
      if absolute then "/" else if trailing then "./" else "."
    else
      (if absolute then "/" else EmptyString) ++ kept ++ (if trailing then "/" else EmptyString).

(** [path.join(...args)] *)
Definition join (args : list string) : string :=
  match filter (fun a => negb (Str.is_empty a)) args with
  | [] => "."
  | parts => normalize (Str.concat_with "/" parts)
  end.

Fixpoint drop_while (p : ascii -> bool) (s : string) : string :=
  match s with
  | EmptyString => EmptyString
  | String c s' => if p c then drop_while p s' else s
  end.

(** [path.dirname]: the scan runs from the last character down to index
    1, skips trailing slashes and cuts at the next slash it meets. *)
Definition dirname (p : string) : string :=
  match p with
  | EmptyString => "."
  | String c0 tl =>
      let hasRoot := is_slash c0 in
      let scanned := drop_while is_slash (Str.rev tl) in
      if Str.all (fun c => negb (is_slash c)) scanned then
        if hasRoot then "/" else "."
      else
        let before := drop_while (fun c => negb (is_slash c)) scanned in
        (* [before] starts with the slash at index [end] *)
        match before with
        | String _ EmptyString => if hasRoot then "//" else String c0 EmptyString
        | String _ r => String c0 (Str.rev r)
        | EmptyString => String c0 EmptyString
        end
  end.

End Path.

(* ================================================================== *)
(** ** File system, process state and the effect monad *)
(* ================================================================== *)

(** The tree below the working directory, which is also taken as the root
    of absolute paths.  The order of a directory's entries is the order in
    which [readdirSync] lists them. *)
Inductive node : Type :=
| File (c : content)
| Dir (entries : list (string * node)).

Inductive errno : Type := ENOENT | ENOTDIR | EISDIR | EEXIST | ENAMETOOLONG.

(** Exceptions: [new Error(msg)], the errors of node:fs, and the two
    built-in errors the program can provoke.  An error of node:fs names
    the system call that failed; it carries the path when the call takes
    one ([FsError]), and no path when the call works on a file that is
    already open ([FdError]). *)
Inductive exn : Type :=
| Error (msg : string)
| FsError (code : errno) (syscall : string) (path : string)
| FdError (code : errno) (syscall : string)
| TypeError (msg : string)
| SyntaxError (msg : string).

Definition errno_text (c : errno) : string :=
  match c with
  | ENOENT => "ENOENT: no such file or directory"
  | ENOTDIR => "ENOTDIR: not a directory"
  | EISDIR => "EISDIR: illegal operation on a directory"
  | EEXIST => "EEXIST: file already exists"
  | ENAMETOOLONG => "ENAMETOOLONG: name too long"
  end.

(** [e.message] *)
Definition message (e : exn) : string :=
  match e with
  | Error msg => msg
  | FsError c syscall path => errno_text c ++ ", " ++ syscall ++ " '" ++ path ++ "'"
  | FdError c syscall => errno_text c ++ ", " ++ syscall
  | TypeError msg => msg
  | SyntaxError msg => msg
  end.

Record world : Type := World {
  fs : node;                 (* the file tree *)
  stdout : list string;      (* console.log, oldest line first *)
  stderr : list string;      (* console.error, oldest line first *)
  clock : string             (* new Date().toISOString() *)
}.

Inductive outcome (A : Type) : Type :=
| Ret (a : A)                (* normal completion *)
| Throw (e : exn)            (* an exception is propagating *)
| Exit (code : Z).           (* process.exit(code) was called *)

Arguments Ret {A} a.
Arguments Throw {A} e.
Arguments Exit {A} code.

Definition M (A : Type) : Type := world -> outcome A * world.

Definition ret {A} (a : A) : M A := fun w => (Ret a, w).

Definition bind {A B} (m : M A) (k : A -> M B) : M B :=
  fun w =>
    match m w with
    | (Ret a, w') => k a w'
    | (Throw e, w') => (Throw e, w')
    | (Exit c, w') => (Exit c, w')
    end.

Declare Scope monad_scope.
Delimit Scope monad_scope with monad.
Notation "x <- m ;; k" := (bind m (fun x => k))
  (at level 61, m at next level, right associativity) : monad_scope.
Notation "m ;; k" := (bind m (fun _ => k))
  (at level 61, right associativity) : monad_scope.
Local Open Scope monad_scope.

Definition throw {A} (e : exn) : M A := fun w => (Throw e, w).

(** [process.exit(code)] *)
Definition exit {A} (code : Z) : M A := fun w => (Exit code, w).

(** [try { m } catch { handler }]: [process.exit] is not an exception. *)
Definition try_catch {A} (m : M A) (handler : exn -> M A) : M A :=
  fun w =>
    match m w with
    | (Throw e, w') => handler e w'
    | r => r
    end.

(** [for (const x of xs) body(x)] *)
Fixpoint for_of {A} (xs : list A) (body : A -> M unit) : M unit :=
  match xs with
  | [] => ret tt
  | x :: rest => body x ;; for_of rest body
  end.

(** [if (c) m] *)
Definition when (c : bool) (m : M unit) : M unit := if c then m else ret tt.

Definition console_log (line : string) : M unit :=
  fun w => (Ret tt, World (fs w) (stdout w ++ [line]) (stderr w) (clock w)).

Definition console_error (line : string) : M unit :=
  fun w => (Ret tt, World (fs w) (stdout w) (stderr w ++ [line]) (clock w)).

Definition get_fs : M node := fun w => (Ret (fs w), w).

Definition put_fs (t : node) : M unit :=
  fun w => (Ret tt, World t (stdout w) (stderr w) (clock w)).

(** [new Date().toISOString()] *)
Definition now_iso : M string := fun w => (Ret (clock w), w).

(** *** node:fs on the tree

    The tree holds directories and regular files only, and every call is
    allowed on every node.  A call that fails carries the error code the
    operating system (Linux) gives on such a tree: [ENOENT] for a missing
    name, [ENOTDIR] for a regular file where a directory is needed,
    [EISDIR] for a directory where a file is read or written, [EEXIST]
    for a regular file where a directory is to be made. *)

Module Fs.

Fixpoint set_entry (name : string) (n : node) (es : list (string * node))
  : list (string * node) :=
  match es with
  | [] => [(name, n)]
  | (k, old) :: rest =>
      if String.eqb name k then (k, n) :: rest
      else (k, old) :: set_entry name n rest
  end.

(** Path resolution as the operating system does it, component by
    component; [anc] holds the directories entered so far. *)
Fixpoint resolve_from (anc : list node) (cur : node) (comps : list string)
  : option node :=
  match comps with
  | [] => Some cur
  | c :: rest =>
      match cur with
      | File _ => None
      | Dir es =>
          if String.eqb c EmptyString || String.eqb c "." then resolve_from anc cur rest
          else if String.eqb c ".." then
            match anc with
            | [] => resolve_from [] cur rest
            | parent :: anc' => resolve_from anc' parent rest
            end
          else
            match assoc c es with
            | Some child => resolve_from (cur :: anc) child rest
            | None => None
            end
      end
  end.

Definition resolve (root : node) (p : string) : option node :=
  if Str.is_empty p then None
  else resolve_from [] root (Str.split Path.is_slash p).

(** Why a path does not resolve: a regular file stands where a directory
    is needed, or a name is missing. *)
Fixpoint resolve_errno (anc : list node) (cur : node) (comps : list string)
  : errno :=
  match comps with
  | [] => ENOENT
  | c :: rest =>
      match cur with
      | File _ => ENOTDIR
      | Dir es =>
          if String.eqb c EmptyString || String.eqb c "." then resolve_errno anc cur rest
          else if String.eqb c ".." then
            match anc with
            | [] => resolve_errno [] cur rest
            | parent :: anc' => resolve_errno anc' parent rest
            end
          else
            match assoc c es with
            | Some child => resolve_errno (cur :: anc) child rest
            | None => ENOENT
            end
      end
  end.

Definition lookup_errno (root : node) (p : string) : errno :=
  if Str.is_empty p then ENOENT
  else resolve_errno [] root (Str.split Path.is_slash p).

(** The components of a path that is written to.  Every such path comes
    out of [path.join], so [..] can only lead it, where it names the
    root itself. *)
Definition components (p : string) : list string :=
  Path.normalize_parts true (Str.split Path.is_slash p).

(** The paths the system takes.  node:fs refuses a path that holds the
    character of code 0, and the operating system (Linux) refuses, with
    [ENAMETOOLONG], a path of [PATH_MAX] bytes or more and a path with a
    component of more than [NAME_MAX] bytes.  In UTF-8 a code unit below
    128 takes one byte, every other code unit of the model two.  The tree
    operations below do not look at these limits: a statement which says
    that something is created assumes [path_fits] of its path. *)
Definition NAME_MAX : nat := 255.
Definition PATH_MAX : nat := 4096.

Fixpoint byte_length (s : string) : nat :=
  match s with
  | EmptyString => 0
  | String c s' => (if Nat.ltb (Str.code c) 128 then 1 else 2) + byte_length s'
  end.

Definition path_fits (p : string) : bool :=
  Str.all (fun c => negb (Nat.eqb (Str.code c) 0)) p &&
  Nat.ltb (byte_length p) PATH_MAX &&
  forallb (fun name => Nat.leb (byte_length name) NAME_MAX) (Str.split Path.is_slash p).

(** [mkdir -p] *)
Fixpoint mkdirp (comps : list string) (n : node) : option node :=
  match n with
  | File _ => None
  | Dir es =>
      match comps with
      | [] => Some n
      | c :: rest =>
          match assoc c es with
          | Some child =>
              option_map (fun child' => Dir (set_entry c child' es)) (mkdirp rest child)
          | None =>
              option_map (fun child' => Dir (es ++ [(c, child')])) (mkdirp rest (Dir []))
          end
      end
  end.

(** Why [mkdir -p] fails: a regular file has the name of the directory
    to make, or stands on the way to it. *)
Fixpoint mkdirp_errno (comps : list string) (n : node) : errno :=
  match n with
  | File _ => match comps with [] => EEXIST | _ :: _ => ENOTDIR end
  | Dir es =>
      match comps with
      | [] => EEXIST
      | c :: rest =>
          match assoc c es with
          | Some child => mkdirp_errno rest child
          | None => ENOENT
          end
      end
  end.

(** Create or truncate the file at [comps]; its directory must exist. *)
Fixpoint put_file (comps : list string) (c : content) (n : node) : option node :=
  match n with
  | File _ => None
  | Dir es =>
      match comps with
      | [] => None
      | [name] =>
          match assoc name es with
          | Some (Dir _) => None
          | Some (File _) => Some (Dir (set_entry name (File c) es))
          | None => Some (Dir (es ++ [(name, File c)]))
          end
      | name :: rest =>
          match assoc name es with
          | Some child =>
              option_map (fun child' => Dir (set_entry name child' es))
                         (put_file rest c child)
          | None => None
          end
      end
  end.

(** Why the file at [comps] cannot be opened for writing: it is a
    directory, its directory is missing, or a regular file stands on the
    way to it. *)
Fixpoint put_file_errno (comps : list string) (n : node) : errno :=
  match n with
  | File _ => ENOTDIR
  | Dir es =>
      match comps with
      | [] => EISDIR
      | [name] =>
          match assoc name es with
          | Some (Dir _) => EISDIR
          | _ => ENOENT
          end
      | name :: rest =>
          match assoc name es with
          | Some child => put_file_errno rest child
          | None => ENOENT
          end
      end
  end.

(** What [statSync(p)] tells about an existing path. *)
Inductive stats : Type := IsFile | IsDirectory.

Definition isFile (st : stats) : bool :=
  match st with IsFile => true | IsDirectory => false end.
Definition isDirectory (st : stats) : bool :=
  match st with IsFile => false | IsDirectory => true end.

Definition statSync (p : string) : M stats :=
  t <- get_fs ;;
  match resolve t p with
  | Some (File _) => ret IsFile
  | Some (Dir _) => ret IsDirectory
  | None => throw (FsError (lookup_errno t p) "stat" p)
  end.

(** [readFileSync(p, "utf8")]: a directory can be opened, it is the
    [read] that follows which fails on it. *)
Definition readFileSync (p : string) : M content :=
  t <- get_fs ;;
  match resolve t p with
  | Some (File c) => ret c
  | Some (Dir _) => throw (FdError EISDIR "read")
  | None => throw (FsError (lookup_errno t p) "open" p)
  end.

(** [readdirSync(p)]: the entries of a directory, with their nodes. *)
Definition readdirSync (p : string) : M (list (string * node)) :=
  t <- get_fs ;;
  match resolve t p with
  | Some (Dir es) => ret es
  | Some (File _) => throw (FsError ENOTDIR "scandir" p)
  | None => throw (FsError (lookup_errno t p) "scandir" p)
  end.

(** [mkdirSync(p, { recursive: true })] *)
Definition mkdirSync_recursive (p : string) : M unit :=
  t <- get_fs ;;
  match mkdirp (components p) t with
  | Some t' => put_fs t'
  | None => throw (FsError (mkdirp_errno (components p) t) "mkdir" p)
  end.

(** [writeFileSync(p, c, { encoding: "utf8" })] *)
Definition writeFileSync (p : string) (c : content) : M unit :=
  t <- get_fs ;;
  match put_file (components p) c t with
  | Some t' => put_fs t'
  | None =>
      throw (FsError (if Str.is_empty p then ENOENT
                      else put_file_errno (components p) t) "open" p)
  end.

End Fs.

(* ================================================================== *)
(** ** The program *)
(* ================================================================== *)

Definition help : string := "
thynkai (toolkits)

Usage:
  thynkai <command> [subcommand] [options]

Commands:
  init model         Scaffold a model entry (for thynkai-models)
  validate models    Validate a models registry tree
  digest             Compute sha256 digest for a local file
  publish            Print a dry-run summary of changed files

Examples:
  thynkai init model --modality text --slug my-model --id thynkai/my-model
  thynkai validate models --root .
  thynkai digest --file ./artifact.bin
  thynkai publish --root . --since HEAD~1
".

(** [function die(msg): never] *)
Definition die {A} (msg : string) : M A :=
  console_error msg ;; exit 1%Z.

(** [args.indexOf(name)]; [None] is [-1]. *)
Fixpoint indexOf (args : list string) (name : string) : option nat :=
  match args with
  | [] => None
  | a :: rest =>
      if String.eqb a name then Some O
      else option_map S (indexOf rest name)
  end.

(** [function argValue(args, name, fallback?)] *)
Definition argValue (args : list string) (name : string) (fallback : option string)
  : option string :=
  match indexOf args name with
  | None => fallback
  | Some i =>
      match nth_error args (i + 1) with
      | Some v => Some v
      | None => fallback
      end
  end.

(** [function hasFlag(args, name)] *)
Definition hasFlag (args : list string) (name : string) : bool :=
  existsb (fun a => String.eqb a name) args.

(** [function ensureDir(p)] *)
Definition ensureDir (p : string) : M unit := Fs.mkdirSync_recursive p.

(** [function write(path, content)] *)
Definition write (path : string) (c : content) : M unit :=
  ensureDir (Path.dirname path) ;;
  Fs.writeFileSync path c.

(** [function walk(dir, out = [])].  [readdirSync(dir)] lists the entries
    of the directory; [statSync(join(dir, name))] looks at the entry just
    listed, so the recursion follows the tree.  The files are pushed onto
    [out] in the order they are met. *)
Fixpoint walk_node (dir : string) (n : node) : list string :=
  match n with
  | File _ => []
  | Dir es =>
      (fix each (es : list (string * node)) : list string :=
         match es with
         | [] => []
         | (name, child) :: rest =>
             let p := Path.join [dir; name] in
             match child with
             | Dir _ => walk_node p child
             | File _ => [p]
             end ++ each rest
         end) es
  end.

Definition walk (dir : string) : M (list string) :=
  es <- Fs.readdirSync dir ;;
  ret (walk_node dir (Dir es)).

(** [JSON.parse(text)] *)
Definition JSON_parse (c : content) : M value :=
  match c with
  | Json v => ret v
  | Plain _ => throw (SyntaxError "Unexpected token in JSON")
  end.

(** [function parseJson(path)] *)
Definition parseJson (path : string) : M value :=
  try_catch
    (c <- Fs.readFileSync path ;; JSON_parse c)
    (fun _ => throw (Error ("invalid_json: " ++ path))).

(** [function assert(cond, msg)] *)
Definition assert (cond : bool) (msg : string) : M unit :=
  if cond then ret tt else throw (Error msg).

(** [x.k]: reading a property of [null] throws; of the keys the program
    reads, none exists on a string, a number, a boolean or an array. *)
Definition get (x : value) (k : string) : M jsval :=
  match x with
  | VNull => throw (TypeError ("Cannot read properties of null (reading '" ++ k ++ "')"))
  | VObj props => ret (assoc k props)
  | _ => ret None
  end.

(** [x?.k] for [x] possibly [undefined] or [null]. *)
Definition get_opt (x : jsval) (k : string) : M jsval :=
  match x with
  | None => ret None
  | Some VNull => ret None
  | Some v => get v k
  end.

Definition modalities : list string := ["text"; "vision"; "multimodal"].

(** A path argument that TypeScript types [string | undefined]: node:path
    throws a [TypeError] on [undefined]. *)
Definition path_arg (x : option string) : M string :=
  match x with
  | Some s => ret s
  | None => throw (TypeError "The 'path' argument must be of type string. Received undefined")
  end.

(** A flag value that may be [undefined]. *)
Definition truthy_str (x : option string) : bool :=
  match x with
  | Some s => negb (Str.is_empty s)
  | None => false
  end.

(** The string of a flag value; it is only applied below the test that
    makes the program stop on [undefined]. *)
Definition defined (x : option string) : string :=
  match x with
  | Some s => s
  | None => EmptyString
  end.

(** A property whose value may be [undefined]: [JSON.stringify] leaves
    such a property out. *)
Definition prop (k : string) (x : option string) : list (string * value) :=
  match x with
  | Some s => [(k, VStr s)]
  | None => []
  end.

Definition lf : string := String (ascii_of_nat 10) EmptyString.

Definition performance_notes (id createdAt : string) : string :=
  "# Performance notes — " ++ id ++ lf ++ lf ++
  "- Benchmark: TODO" ++ lf ++
  "- Date: " ++ Str.slice0 10 createdAt ++ lf ++
  "- Environment: TODO" ++ lf ++
  "- Report: TODO" ++ lf ++ lf ++
  "Notes:" ++ lf ++
  "- Keep it factual and reproducible." ++ lf.

(** [async function cmdInitModel(args)] *)
Definition cmdInitModel (args : list string) : M Z :=
  let modality := argValue args "--modality" None in
  let slug := argValue args "--slug" None in
  let id := argValue args "--id" None in
  let name := argValue args "--name"
                (Some (if truthy_str slug then defined slug else "New Model")) in
  let owner := argValue args "--owner" (Some "contrib:unknown") in
  let ownerName := argValue args "--owner-name" (Some "Unknown") in
  let version := argValue args "--version" (Some "0.1.0") in
  when (negb (truthy_str modality) ||
        negb (existsb (String.eqb (defined modality)) modalities))
       (die "init model: --modality must be one of text|vision|multimodal") ;;
  when (negb (truthy_str slug)) (die "init model: --slug is required") ;;
  when (negb (truthy_str id)) (die "init model: --id is required (recommended org/name)") ;;
  when (negb (truthy_str version) || negb (test SEMVER_RE (defined version)))
       (die "init model: --version must be SemVer") ;;
  root <- path_arg (argValue args "--root" (Some ".")) ;;
  let base := Path.join [root; "models"; defined modality; defined slug] in
  createdAt <- now_iso ;;
  let releasedAt := createdAt in
  let modelJson :=
    VObj ([("id", VStr (defined id))] ++
          prop "name" name ++
          [("modality", VStr (defined modality));
           ("description", VStr "TODO: add description");
           ("owner", VObj (prop "contributorId" owner ++ prop "displayName" ownerName));
           ("createdAt", VStr createdAt);
           ("version", VStr (defined version));
           ("tags", VArr [VStr "todo"]);
           ("links", VObj [("repo", VStr "TODO")])]) in
  let versionJson :=
    VObj [("modelId", VStr (defined id));
          ("version", VStr (defined version));
          ("releasedAt", VStr releasedAt);
          ("artifact",
           VObj [("uri", VStr "TODO");
                 ("digest", VStr ("sha256:" ++ Str.repeat "0" 64));
                 ("builtWith",
                  VObj [("framework", VStr "TODO"); ("runtime", VStr "TODO");
                        ("notes", VStr "TODO")])]);
          ("benchmarks", VArr [])] in
  write (Path.join [base; "model.json"]) (Json modelJson) ;;
  write (Path.join [base; "versions"; (defined version ++ ".json")%string]) (Json versionJson) ;;
  write (Path.join [base; "PERFORMANCE.md"])
        (Plain (performance_notes (defined id) createdAt)) ;;
  console_log ("Scaffolded: " ++ base) ;;
  ret 0%Z.

Definition is_backslash (c : ascii) : bool := Ascii.eqb c (ascii_of_nat 92).

(** [p.replace(/\\/g, "/")] *)
Definition to_slashes (p : string) : string :=
  Str.replace_char (ascii_of_nat 92) "/" p.

(** [/versions[\\/]/.test(p)]: an unanchored search. *)
Definition versions_dir_test (p : string) : bool :=
  Str.includes p "versions/" || Str.includes p ("versions" ++ String (ascii_of_nat 92) EmptyString).

(** [mf.split(/\\|\//)] *)
Definition path_parts (p : string) : list string :=
  Str.split (fun c => is_backslash c || Path.is_slash c) p.

(** [idx >= 0 ? parts[idx + 1] : undefined] with [idx = parts.indexOf("models")] *)
Definition folderModality (mf : string) : option string :=
  let parts := path_parts mf in
  match indexOf parts "models" with
  | Some idx => nth_error parts (idx + 1)
  | None => None
  end.

(** [mf.replace(/model\.json$/, "versions")] *)
Definition versionsDir (mf : string) : string :=
  Str.replace_suffix "model.json" "versions" mf.

(** [join(versionsDir, `${m.version}.json`).replace(/\\/g, "/")] *)
Definition expectedFile (mf version : string) : string :=
  to_slashes (Path.join [versionsDir mf; (version ++ ".json")%string]).

(** The version files that belong to the model file [mf], with forward
    slashes. *)
Definition matching (versionFiles : list string) (mf : string) : list string :=
  List.map to_slashes
    (filter (fun vf => Str.startsWith (to_slashes vf) (to_slashes (versionsDir mf)))
            versionFiles).

(** [vf.split("/").pop()?.replace(/\.json$/, "")] *)
Definition versionFromFile (vf : string) : option string :=
  option_map (Str.replace_suffix ".json" EmptyString)
             (List.last (List.map Some (Str.split Path.is_slash vf)) None).

Section Commands.

(** [Date.parse]: the accepted grammar is the runtime's; [None] is [NaN]. *)
Variable Date_parse : string -> option Z.

(** The two handlers outside the validation engine (they hash a file and
    spawn [git]); the dispatcher only calls them. *)
Variable cmdDigest cmdPublish : list string -> M Z.

(** [function isIsoDate(s)] *)
Definition isIsoDate (s : string) : bool :=
  match Date_parse s with
  | Some _ => true
  | None => false
  end.

(** The body of the inner loop of [cmdValidateModels]: one version file of
    the model whose [id] is [m_id]. *)
Definition validate_version (m_id : jsval) (vf : string) : M unit :=
  v <- parseJson vf ;;
  v_modelId <- get v "modelId" ;;
  assert (strict_eq v_modelId m_id) ("version.modelId mismatch: " ++ vf) ;;
  v_version <- get v "version" ;;
  assert (String.eqb (typeof v_version) "string" && test SEMVER_RE (as_string v_version))
         ("version.version invalid: " ++ vf) ;;
  assert (strict_eq (option_map VStr (versionFromFile vf)) v_version)
         ("version filename mismatch: " ++ vf) ;;
  v_artifact <- get v "artifact" ;;
  digest <- get_opt v_artifact "digest" ;;
  match digest with
  | None => ret tt
  | Some _ =>
      assert (String.eqb (typeof digest) "string" && test SHA256_RE (as_string digest))
             ("artifact.digest invalid: " ++ vf)
  end.

(** The body of the outer loop of [cmdValidateModels]: one model file. *)
Definition validate_model (versionFiles : list string) (mf : string) : M unit :=
  m <- parseJson mf ;;
  m_id <- get m "id" ;;
  assert (String.eqb (typeof m_id) "string" && negb (Str.is_empty (Str.trim (as_string m_id))))
         ("model.id required: " ++ mf) ;;
  m_name <- get m "name" ;;
  assert (String.eqb (typeof m_name) "string" && negb (Str.is_empty (Str.trim (as_string m_name))))
         ("model.name required: " ++ mf) ;;
  m_modality <- get m "modality" ;;
  assert (includes_str modalities m_modality) ("model.modality invalid: " ++ mf) ;;
  m_owner <- get m "owner" ;;
  assert (truthy m_owner && String.eqb (typeof m_owner) "object")
         ("model.owner required: " ++ mf) ;;
  m_createdAt <- get m "createdAt" ;;
  assert (String.eqb (typeof m_createdAt) "string" && isIsoDate (as_string m_createdAt))
         ("createdAt must be ISO date: " ++ mf) ;;
  m_version <- get m "version" ;;
  assert (String.eqb (typeof m_version) "string" && test SEMVER_RE (as_string m_version))
         ("model.version must be SemVer: " ++ mf) ;;
  assert (strict_eq (option_map VStr (folderModality mf)) m_modality)
         ("modality folder mismatch for " ++ as_string m_id) ;;
  let perfPath := Str.replace_suffix "model.json" "PERFORMANCE.md" mf in
  try_catch
    (st <- Fs.statSync perfPath ;;
     assert (Fs.isFile st) ("PERFORMANCE.md missing: " ++ perfPath))
    (fun _ => throw (Error ("PERFORMANCE.md missing: " ++ perfPath))) ;;
  let expected := expectedFile mf (as_string m_version) in
  let found := matching versionFiles mf in
  assert (Nat.ltb 0 (List.length found)) ("no versions found for model " ++ as_string m_id) ;;
  assert (existsb (String.eqb expected) found)
         ("missing versions/" ++ as_string m_version ++ ".json for model " ++ as_string m_id) ;;
  for_of found (validate_version m_id).

(** [async function cmdValidateModels(args)] *)
Definition cmdValidateModels (args : list string) : M Z :=
  root <- path_arg (argValue args "--root" (Some ".")) ;;
  let modelsDir := Path.join [root; "models"] in
  files <- walk modelsDir ;;
  let modelFiles := filter (fun p => Str.endsWith p "model.json") files in
  let versionFiles :=
    filter (fun p => versions_dir_test p && Str.endsWith p ".json") files in
  assert (Nat.ltb 0 (List.length modelFiles)) "no model.json entries found under models/" ;;
  for_of modelFiles (validate_model versionFiles) ;;
  console_log "OK: models registry validation passed." ;;
  ret 0%Z.

(** [const commands = new Map([...])] *)
Definition commands : list (string * (list string -> M Z)) :=
  [("init:model", cmdInitModel);
   ("validate:models", cmdValidateModels);
   ("digest", cmdDigest);
   ("publish", cmdPublish)].

(** [c1 === "init" && c2 === "model" ? "init:model" : ... : null] *)
Definition command_key (c1 c2 : option string) : option string :=
  let same x s := match x with Some y => String.eqb y s | None => false end in
  if same c1 "init" && same c2 "model" then Some "init:model"
  else if same c1 "validate" && same c2 "models" then Some "validate:models"
  else if same c1 "digest" then Some "digest"
  else if same c1 "publish" then Some "publish"
  else None.

(** [async function main()], on [args = process.argv.slice(2)] *)
Definition main (args : list string) : M unit :=
  if Nat.eqb (List.length args) 0 || hasFlag args "--help" || hasFlag args "-h" then
    console_log help
  else
    let c1 := nth_error args 0 in
    let c2 := nth_error args 1 in
    let rest := skipn 2 args in
    let key := command_key c1 c2 in
    match (match key with Some k => assoc k commands | None => None end) with
    | None =>
        console_error "Unknown command." ;;
        console_log help ;;
        exit 1%Z
    | Some cmd =>
        exitCode <- cmd rest ;;
        exit exitCode
    end.

(** [main().catch((e) => { console.error(e.message); process.exit(1); })] *)
Definition program (args : list string) : M unit :=
  try_catch (main args)
            (fun e => console_error (message e) ;; exit 1%Z).

(** One run of the tool: the exit status of the process and the state it
    leaves.  A run that reaches the end of [main] ends with status 0. *)
Definition run (args : list string) (w : world) : Z * world :=
  match program args w with
  | (Ret _, w') => (0%Z, w')
  | (Exit code, w') => (code, w')
  | (Throw _, w') => (1%Z, w')
  end.

End Commands.

(* ================================================================== *)
(** ** The shapes the specification gives to the two validators *)
(* ================================================================== *)

Definition is_hex (c : ascii) : bool :=
  Str.is_digit c || Str.between 97 102 c || Str.between 65 70 c.

(** Alphanumerics, dot and hyphen. *)
Definition is_ident_char (c : ascii) : bool :=
  Str.is_digit c || Str.is_upper c || Str.is_lower c ||
  Ascii.eqb c "." || Ascii.eqb c "-".

(** A non-negative integer in decimal, leading zeros allowed. *)
Definition numeric (s : string) : Prop :=
  s <> EmptyString /\ Str.all Str.is_digit s = true.

(** A pre-release or build-metadata run. *)
Definition ident_run (s : string) : Prop :=
  s <> EmptyString /\ Str.all is_ident_char s = true.

(** [MAJOR.MINOR.PATCH], then optionally [-prerelease], then optionally
    [+buildmetadata]. *)
Definition semver_form (s : string) : Prop :=
  exists major minor patch pre build,
    s = (major ++ "." ++ minor ++ "." ++ patch ++ pre ++ build)%string /\
    numeric major /\ numeric minor /\ numeric patch /\
    (pre = EmptyString \/ exists p, pre = ("-" ++ p)%string /\ ident_run p) /\
    (build = EmptyString \/ exists b, build = ("+" ++ b)%string /\ ident_run b).

(** The digest shape as the specification words it: the prefix [sha256:]
    in exactly this lowercase form, then 64 hexadecimal characters of
    either case. *)
Definition digest_form_lowercase_prefix (s : string) : Prop :=
  exists h, s = ("sha256:" ++ h)%string /\
            String.length h = 64 /\ Str.all is_hex h = true.

(** The digest shape with the prefix compared without regard to case. *)
Definition digest_form (s : string) : Prop :=
  exists p h, s = (p ++ h)%string /\
              Str.map Str.lower p = "sha256:" /\
              String.length h = 64 /\ Str.all is_hex h = true.

(* ================================================================== *)
(** ** Vocabulary of the statements *)
(* ================================================================== *)

(** The outcome of a computation, leaving the final state aside. *)
Definition eval {A} (m : M A) (w : world) : outcome A := fst (m w).

(** A computation that neither changes the state nor ends the process,
    and whose outcome depends on the file tree only. *)
Definition readonly {A} (m : M A) : Prop :=
  forall w,
    snd (m w) = w /\
    (forall c, fst (m w) <> Exit c) /\
    (forall w', fs w' = fs w -> fst (m w') = fst (m w)).

(** The state after one more line on the error stream. *)
Definition with_error (w : world) (line : string) : world :=
  World (fs w) (stdout w) (stderr w ++ [line]) (clock w).

(** The state after one more line on the output stream. *)
Definition with_output (w : world) (line : string) : world :=
  World (fs w) (stdout w ++ [line]) (stderr w) (clock w).

(** [m.k] for a parsed document [m] that is not [null]. *)
Definition field (m : value) (k : string) : jsval :=
  match m with
  | VObj props => assoc k props
  | _ => None
  end.

(** A string with something else than white space in it. *)
Definition nonblank (x : jsval) : bool :=
  String.eqb (typeof x) "string" && negb (Str.is_empty (Str.trim (as_string x))).

(** The six field checks of a model document, in the order [id], [name],
    [modality], [owner], [createdAt], [version]. *)
Definition field_checks (Date_parse : string -> option Z) (m : value) : bool :=
  nonblank (field m "id") &&
  nonblank (field m "name") &&
  includes_str modalities (field m "modality") &&
  (truthy (field m "owner") && String.eqb (typeof (field m "owner")) "object") &&
  (String.eqb (typeof (field m "createdAt")) "string" &&
   isIsoDate Date_parse (as_string (field m "createdAt"))) &&
  (String.eqb (typeof (field m "version")) "string" &&
   test SEMVER_RE (as_string (field m "version"))).

(** The model files and the version files among the walked paths. *)
Definition modelFiles (files : list string) : list string :=
  filter (fun p => Str.endsWith p "model.json") files.

Definition versionFiles (files : list string) : list string :=
  filter (fun p => versions_dir_test p && Str.endsWith p ".json") files.

(** [v.artifact?.digest] *)
Definition artifact_digest (v : value) : jsval :=
  match field v "artifact" with
  | None => None
  | Some VNull => None
  | Some a => field a "digest"
  end.

(** The four checks of a version document, in the order the validation
    engine is specified to make them. *)
Inductive version_check : Type :=
| ModelIdMatches
| VersionIsSemVer
| StemMatchesVersion
| DigestWellFormed.

Definition version_check_holds (m_id : jsval) (vf : string) (v : value)
           (c : version_check) : bool :=
  match c with
  | ModelIdMatches => strict_eq (field v "modelId") m_id
  | VersionIsSemVer =>
      String.eqb (typeof (field v "version")) "string" &&
      test SEMVER_RE (as_string (field v "version"))
  | StemMatchesVersion =>
      strict_eq (option_map VStr (versionFromFile vf)) (field v "version")
  | DigestWellFormed =>
      match artifact_digest v with
      | None => true
      | Some d => String.eqb (typeof (Some d)) "string" && test SHA256_RE (as_string (Some d))
      end
  end.

Definition version_check_message (c : version_check) (vf : string) : string :=
  match c with
  | ModelIdMatches => "version.modelId mismatch: " ++ vf
  | VersionIsSemVer => "version.version invalid: " ++ vf
  | StemMatchesVersion => "version filename mismatch: " ++ vf
  | DigestWellFormed => "artifact.digest invalid: " ++ vf
  end.

Definition version_checks : list version_check :=
  [ModelIdMatches; VersionIsSemVer; StemMatchesVersion; DigestWellFormed].

(** The first check of [cs] that does not hold, if any. *)
Definition first_violated (m_id : jsval) (vf : string) (v : value)
           (cs : list version_check) : option version_check :=
  find (fun c => negb (version_check_holds m_id vf v c)) cs.

(** The directory a run of [validate models] walks. *)
Definition modelsDir (rest : list string) : string :=
  Path.join [defined (argValue rest "--root" (Some ".")); "models"].

(** The arguments of a [validate models] run. *)
Definition validate_args (rest : list string) : list string :=
  "validate" :: "models" :: rest.

(** The arguments of an [init model] run. *)
Definition init_args (rest : list string) : list string :=
  "init" :: "model" :: rest.

(** Neither [--help] nor [-h] is among the arguments. *)
Definition no_help (args : list string) : Prop :=
  hasFlag args "--help" = false /\ hasFlag args "-h" = false.

(** [Date.parse] of the examples: it knows one time stamp. *)
Definition Date_parse_example (s : string) : option Z :=
  if String.eqb s "2024-01-01T00:00:00.000Z" then Some 1704067200000%Z else None.

(** A handler of the examples that does nothing. *)
Definition cmd_example (_ : list string) : M Z := ret 0%Z.

(* ================================================================== *)
(** ** Registries of the examples *)
(* ================================================================== *)

Definition example_model (id modality version : string) : value :=
  VObj [("id", VStr id); ("name", VStr "Example");
        ("modality", VStr modality);
        ("owner", VObj [("contributorId", VStr "contrib:unknown")]);
        ("createdAt", VStr "2024-01-01T00:00:00.000Z");
        ("version", VStr version)].

Definition example_version (modelId version digest : string) : value :=
  VObj [("modelId", VStr modelId); ("version", VStr version);
        ("artifact", VObj [("uri", VStr "TODO"); ("digest", VStr digest)])].

Definition zero_digest : string := "sha256:" ++ Str.repeat "0" 64.

(** A model directory: [model.json], [PERFORMANCE.md] and [versions/]. *)
Definition example_entry (m : value) (versions : list (string * node)) : node :=
  Dir [("model.json", File (Json m));
       ("PERFORMANCE.md", File (Plain "# Performance notes"));
       ("versions", Dir versions)].

Definition world_of (t : node) : world :=
  World t [] [] "2024-01-01T00:00:00.000Z".

(** An empty working directory. *)
Definition world_empty : world := world_of (Dir []).

(** [models/] holds no [model.json]. *)
Definition world_no_models : world :=
  world_of (Dir [("models", Dir [("README.md", File (Plain "nothing yet"))])]).

(** [models/text/foo] at version 1.0.0, complete. *)
Definition world_valid : world :=
  world_of
    (Dir [("models", Dir [("text", Dir [("foo",
       example_entry (example_model "org/foo" "text" "1.0.0")
         [("1.0.0.json", File (Json (example_version "org/foo" "1.0.0" zero_digest)))])])])]).

(** [models/vision/bar/model.json] declares the modality [text]. *)
Definition world_vision_text : world :=
  world_of
    (Dir [("models", Dir [("vision", Dir [("bar",
       example_entry (example_model "org/bar" "text" "1.0.0")
         [("1.0.0.json", File (Json (example_version "org/bar" "1.0.0" zero_digest)))])])])]).

(** [model.json] points at 1.1.0, only [versions/1.0.0.json] exists. *)
Definition world_missing_version : world :=
  world_of
    (Dir [("models", Dir [("text", Dir [("foo",
       example_entry (example_model "org/foo" "text" "1.1.0")
         [("1.0.0.json", File (Json (example_version "org/foo" "1.0.0" zero_digest)))])])])]).

(** The current version 1.1.0 is fine, the older 1.0.0 has a bad digest. *)
Definition world_bad_old_version : world :=
  world_of
    (Dir [("models", Dir [("text", Dir [("foo",
       example_entry (example_model "org/foo" "text" "1.1.0")
         [("1.0.0.json", File (Json (example_version "org/foo" "1.0.0" "sha256:beef")));
          ("1.1.0.json", File (Json (example_version "org/foo" "1.1.0" zero_digest)))])])])]).

(** No [/] and no backslash. *)
Definition no_separator (s : string) : bool :=
  Str.all (fun c => negb (is_backslash c || Path.is_slash c)) s.

(** A single path component: not empty, without separator, and neither
    [.] nor [..]. *)
Definition plain_segment (s : string) : bool :=
  negb (Str.is_empty s) && no_separator s &&
  negb (String.eqb s ".") && negb (String.eqb s "..").

(** The path made of the components [segs]. *)
Definition path_of (segs : list string) : string := Str.concat_with "/" segs.

(** Descent from a directory along plain components. *)
Fixpoint descend (segs : list string) (n : node) : option node :=
  match segs with
  | [] => Some n
  | c :: rest =>
      match n with
      | File _ => None
      | Dir es =>
          match assoc c es with
          | Some child => descend rest child
          | None => None
          end
      end
  end.

(** The directory chain [s1/s2/.../sn] that ends in the node [n]. *)
Definition nest (segs : list string) (n : node) : node :=
  fold_right (fun s acc => Dir [(s, acc)]) n segs.

(** The characters a SemVer string is made of. *)
Definition is_semver_char (c : ascii) : bool :=
  is_ident_char c || Ascii.eqb c "+".

(** The tree [init model] leaves in an empty working directory: the
    model directory [dir] with its three files. *)
Definition scaffolded_tree (dir : list string) (version : string)
           (modelJson versionJson : value) (notes : string) : node :=
  nest dir
       (Dir [("model.json", File (Json modelJson));
             ("versions", Dir [((version ++ ".json")%string, File (Json versionJson))]);
             ("PERFORMANCE.md", File (Plain notes))]).

(** The root is [.], or a relative path made of the plain components
    [rs]. *)
Definition root_at (root : string) (rs : list string) : Prop :=
  Forall (fun s => plain_segment s = true) rs /\
  ((rs = [] /\ root = ".") \/ (rs <> [] /\ root = path_of rs)).

(* ================================================================== *)
(** ** The digest handler *)
(* ================================================================== *)

Section Digest.

(** [createHash("sha256").update(buf).digest("hex")]: the hash function
    belongs to node:crypto. *)
Variable sha256_hex : content -> string.

(** [JSON.stringify(x, null, 2)] belongs to the runtime. *)
Variable JSON_stringify : value -> string.

(** [async function cmdDigest(args)] *)
Definition cmdDigest (args : list string) : M Z :=
  let file := argValue args "--file" None in
  when (negb (truthy_str file)) (die "digest: --file is required") ;;
  buf <- Fs.readFileSync (defined file) ;;
  let hex := sha256_hex buf in
  let out := ("sha256:" ++ hex)%string in
  (if hasFlag args "--json"
   then console_log (JSON_stringify (VObj [("file", VStr (defined file));
                                           ("digest", VStr out)]))
   else console_log out) ;;
  ret 0%Z.

End Digest.

(** How a run ends after its handler: with the status the handler
    returns or exits with, or with status 1 after the message of the
    exception the handler lets escape. *)
Definition finish (r : outcome Z * world) : Z * world :=
  match r with
  | (Ret code, w') => (code, w')
  | (Throw e, w') => (1%Z, with_error w' (message e))
  | (Exit code, w') => (code, w')
  end.

(** A hash in hexadecimal as node:crypto prints it. *)
Definition hex_digest (h : string) : Prop :=
  String.length h = 64 /\ Str.all is_hex h = true.

(** A hash function of the examples: every file hashes to zero. *)
Definition sha256_hex_example (_ : content) : string := Str.repeat "0" 64.

(** [JSON.stringify] of the examples. *)
Definition JSON_stringify_example (_ : value) : string := "{}".

(* ================================================================== *)
(** ** Directory listings *)
(* ================================================================== *)

(** Every directory of the tree names its entries by single path
    components, and no name twice: what a directory can hold. *)
Fixpoint well_named (n : node) : bool :=
  match n with
  | File _ => true
  | Dir es =>
      (fix each (es : list (string * node)) : bool :=
         match es with
         | [] => true
         | (name, child) :: rest =>
             plain_segment name &&
             negb (existsb (fun e => String.eqb name (fst e)) rest) &&
             well_named child &&
             each rest
         end) es
  end.

(* ================================================================== *)
(** ** The flag checks of [init model] *)
(* ================================================================== *)

(** The first of the four flag checks that fails, with its message:
    [--modality], then [--slug], then [--id], then [--version]. *)
Definition init_usage_error (args : list string) : option string :=
  let modality := argValue args "--modality" None in
  let slug := argValue args "--slug" None in
  let id := argValue args "--id" None in
  let version := argValue args "--version" (Some "0.1.0") in
  if negb (truthy_str modality) ||
     negb (existsb (String.eqb (defined modality)) modalities)
  then Some "init model: --modality must be one of text|vision|multimodal"
  else if negb (truthy_str slug) then Some "init model: --slug is required"
  else if negb (truthy_str id)
  then Some "init model: --id is required (recommended org/name)"
  else if negb (truthy_str version) || negb (test SEMVER_RE (defined version))
  then Some "init model: --version must be SemVer"
  else None.

(** An earlier scaffold of [models/text/foo] at version 0.1.0, and the
    flags that scaffold the same entry. *)
Definition world_scaffolded_before : world :=
  World (scaffolded_tree ([] ++ ["models"; "text"; "foo"]) "0.1.0"
           VNull (VStr "old") "old notes")
        [] [] "2024-01-01T00:00:00.000Z".

Definition init_flags_example : list string :=
  ["--modality"; "text"; "--slug"; "foo"; "--id"; "org/foo"].

(* ================================================================== *)
(** ** The field checks of a model document, one by one *)
(* ================================================================== *)

(** The six checks in the order [cmdValidateModels] makes them. *)
Inductive model_check : Type :=
| IdRequired
| NameRequired
| ModalityListed
| OwnerIsObject
| CreatedAtIsDate
| ModelVersionIsSemVer.

Definition model_check_holds (Date_parse : string -> option Z) (m : value)
           (c : model_check) : bool :=
  match c with
  | IdRequired => nonblank (field m "id")
  | NameRequired => nonblank (field m "name")
  | ModalityListed => includes_str modalities (field m "modality")
  | OwnerIsObject =>
      truthy (field m "owner") && String.eqb (typeof (field m "owner")) "object"
  | CreatedAtIsDate =>
      String.eqb (typeof (field m "createdAt")) "string" &&
      isIsoDate Date_parse (as_string (field m "createdAt"))
  | ModelVersionIsSemVer =>
      String.eqb (typeof (field m "version")) "string" &&
      test SEMVER_RE (as_string (field m "version"))
  end.

Definition model_check_message (c : model_check) (mf : string) : string :=
  match c with
  | IdRequired => "model.id required: " ++ mf
  | NameRequired => "model.name required: " ++ mf
  | ModalityListed => "model.modality invalid: " ++ mf
  | OwnerIsObject => "model.owner required: " ++ mf
  | CreatedAtIsDate => "createdAt must be ISO date: " ++ mf
  | ModelVersionIsSemVer => "model.version must be SemVer: " ++ mf
  end.

Definition model_checks : list model_check :=
  [IdRequired; NameRequired; ModalityListed; OwnerIsObject; CreatedAtIsDate;
   ModelVersionIsSemVer].

(** The first check of [cs] that the document fails, if any. *)
Definition first_failed (Date_parse : string -> option Z) (m : value)
           (cs : list model_check) : option model_check :=
  find (fun c => negb (model_check_holds Date_parse m c)) cs.

(** [models/text/foo/model.json] has an owner that is a string. *)
Definition world_owner_string : world :=
  world_of
    (Dir [("models", Dir [("text", Dir [("foo",
       example_entry
         (VObj [("id", VStr "org/foo"); ("name", VStr "Example");
                ("modality", VStr "text"); ("owner", VStr "contrib:unknown");
                ("createdAt", VStr "not a date"); ("version", VStr "1.0.0")])
         [("1.0.0.json", File (Json (example_version "org/foo" "1.0.0" zero_digest)))])])])]).

(** [models/text/foo] has a directory named [PERFORMANCE.md]. *)
Definition world_notes_directory : world :=
  world_of
    (Dir [("models", Dir [("text", Dir [("foo",
       Dir [("model.json", File (Json (example_model "org/foo" "text" "1.0.0")));
            ("PERFORMANCE.md", Dir []);
            ("versions", Dir [])])])])]).

(* ================================================================== *)
(** ** The publish handler *)
(* ================================================================== *)

(** [s.slice(n)] for [n >= 0]. *)
Fixpoint slice_from (n : nat) (s : string) : string :=
  match n, s with
  | O, _ => s
  | S n', String _ s' => slice_from n' s'
  | S _, EmptyString => EmptyString
  end.

Definition is_lf (c : ascii) : bool := Ascii.eqb c (ascii_of_nat 10).
Definition is_cr (c : ascii) : bool := Ascii.eqb c (ascii_of_nat 13).

(** One more character at the head of the first piece. *)
Definition cons_head (c : ascii) (pieces : list string) : list string :=
  match pieces with
  | h :: t => String c h :: t
  | [] => [String c EmptyString]
  end.

(** [s.split(/\r?\n/)]: the text is cut at every line feed, and a
    carriage return just before the line feed goes with it. *)
Fixpoint split_lines (s : string) : list string :=
  match s with
  | EmptyString => [EmptyString]
  | String c s' =>
      if is_lf c then EmptyString :: split_lines s'
      else
        match s' with
        | String d s'' =>
            if is_cr c && is_lf d then EmptyString :: split_lines s''
            else cons_head c (split_lines s')
        | EmptyString => [String c EmptyString]
        end
  end.

(** The order of [Array.prototype.sort] without a comparator: strings
    by their code units. *)
Fixpoint str_leb (a b : string) : bool :=
  match a, b with
  | EmptyString, _ => true
  | String _ _, EmptyString => false
  | String x a', String y b' =>
      if Nat.ltb (Str.code x) (Str.code y) then true
      else if Nat.ltb (Str.code y) (Str.code x) then false
      else str_leb a' b'
  end.

Fixpoint insert_sorted (x : string) (l : list string) : list string :=
  match l with
  | [] => [x]
  | y :: rest => if str_leb x y then x :: l else y :: insert_sorted x rest
  end.

(** [xs.sort()] *)
Definition sort (xs : list string) : list string := fold_right insert_sorted [] xs.

Fixpoint digits (d : Decimal.uint) : string :=
  match d with
  | Decimal.Nil => EmptyString
  | Decimal.D0 d' => String "0" (digits d')
  | Decimal.D1 d' => String "1" (digits d')
  | Decimal.D2 d' => String "2" (digits d')
  | Decimal.D3 d' => String "3" (digits d')
  | Decimal.D4 d' => String "4" (digits d')
  | Decimal.D5 d' => String "5" (digits d')
  | Decimal.D6 d' => String "6" (digits d')
  | Decimal.D7 d' => String "7" (digits d')
  | Decimal.D8 d' => String "8" (digits d')
  | Decimal.D9 d' => String "9" (digits d')
  end.

(** [`${n}`] for a length. *)
Definition decimal (n : nat) : string := digits (Nat.to_uint n).

(** [out ? out.split(/\r?\n/).filter(Boolean) : []]: the paths in the
    output of [git diff --name-only]. *)
Definition diff_paths (out : string) : list string :=
  if Str.is_empty out then []
  else filter (fun l => negb (Str.is_empty l)) (split_lines out).

(** [out ? out.split(/\r?\n/).map((l) => l.slice(3).trim()).filter(Boolean) : []]:
    the paths in the output of [git status --porcelain]. *)
Definition status_paths (out : string) : list string :=
  if Str.is_empty out then []
  else filter (fun l => negb (Str.is_empty l))
              (List.map (fun l => Str.trim (slice_from 3 l)) (split_lines out)).

Section Publish.

(** [execSync(cmd, { stdio: ["ignore", "pipe", "ignore"] }).toString("utf8")]:
    what the child process does and prints is not the program's. *)
Variable execSync : string -> M string.

(** [path.relative], which resolves both paths against [process.cwd()]. *)
Variable relative : string -> string -> string.

(** [JSON.stringify(x, null, 2)] *)
Variable JSON_stringify : value -> string.

(** [async function cmdPublish(args)] *)
Definition cmdPublish (args : list string) : M Z :=
  let root := defined (argValue args "--root" (Some ".")) in
  let since := argValue args "--since" None in
  let jsonOut := hasFlag args "--json" in
  changed <-
    try_catch
      (let cmd := if truthy_str since
                  then ("git diff --name-only " ++ defined since ++ " -- " ++ root)%string
                  else ("git status --porcelain " ++ root)%string in
       raw <- execSync cmd ;;
       let out := Str.trim raw in
       ret (if truthy_str since then diff_paths out else status_paths out))
      (fun _ => files <- walk root ;; ret (List.map (relative ".") files)) ;;
  let changedFiles := sort changed in
  let count := List.length changed in
  (if jsonOut
   then console_log
          (JSON_stringify
             (VObj [("root", VStr root);
                    ("since", match since with Some s => VStr s | None => VNull end);
                    ("changedFiles", VArr (List.map VStr changedFiles));
                    ("count", VNum (Z.of_nat count))]))
   else console_log ("Changed files (" ++ decimal count ++ "):") ;;
        for_of changedFiles (fun f => console_log (" - " ++ f))) ;;
  console_log (lf ++ "Note: publish is dry-run only. Open a PR to submit changes.") ;;
  ret 0%Z.

End Publish.

(** [path.relative] of the examples, for a path below the working
    directory. *)
Definition relative_example (_ to : string) : string := to.

(** The text [git status --porcelain] prints: one line [XY path] for
    each entry, [X] and [Y] being the two status columns. *)
Definition porcelain_line (e : ascii * ascii * string) : string :=
  let '(x, y, path) := e in String x (String y (String " " path)).

Definition porcelain (entries : list (ascii * ascii * string)) : string :=
  fold_right (fun e acc => (porcelain_line e ++ lf ++ acc)%string) EmptyString entries.

(** Neither a line feed nor a carriage return. *)
Definition in_line (c : ascii) : bool := negb (is_lf c || is_cr c).

(** A path as [git] prints it unquoted: not empty, no white space. *)
Definition bare_path (p : string) : bool :=
  negb (Str.is_empty p) && Str.all (fun a => negb (Str.is_space a)) p.

(** An entry whose status columns stay on the line and whose path is
    bare. *)
Definition status_entry (e : ascii * ascii * string) : bool :=
  let '(x, y, path) := e in in_line x && in_line y && bare_path path.

(** What [publish] prints for the list [changed]. *)
Definition publish_report_lines (changed : list string) : list string :=
  ("Changed files (" ++ decimal (List.length changed) ++ "):")%string ::
  List.map (fun f => (" - " ++ f)%string) (sort changed) ++
  [(lf ++ "Note: publish is dry-run only. Open a PR to submit changes.")%string].

(** A child process of the examples: [git status] reports an unstaged
    change and an untracked file, [git diff] two changed files. *)
Definition execSync_git (cmd : string) : M string :=
  if String.eqb cmd "git status --porcelain ."
  then ret (porcelain [(" "%char, "M"%char, "src/index.ts"); ("?"%char, "?"%char, "b.txt")])
  else if String.eqb cmd "git diff --name-only HEAD~1 -- ."
  then ret (Str.concat_with lf ["src/index.ts"; "README.md"] ++ lf)%string
  else throw (Error "Command failed").

(** A machine without [git]: every command fails. *)
Definition execSync_failing (_ : string) : M string :=
  throw (Error "Command failed").

(** The tree after a second [init model] of the same entry at another
    version: the version file of the first scaffold is still there. *)
Definition released_tree (dir : list string) (v1 : string) (versionJson1 : value)
           (v2 : string) (modelJson versionJson : value) (notes : string) : node :=
  nest dir
       (Dir [("model.json", File (Json modelJson));
             ("versions", Dir [((v1 ++ ".json")%string, File (Json versionJson1));
                               ((v2 ++ ".json")%string, File (Json versionJson))]);
             ("PERFORMANCE.md", File (Plain notes))]).

(* ================================================================== *)
(** ** The version files of a model, in the words of the specification *)
(* ================================================================== *)

Definition backslash : string := String (ascii_of_nat 92) EmptyString.

(** [p] begins with [q]. *)
Definition begins_with (p q : string) : Prop :=
  exists rest, p = (q ++ rest)%string.

(** [p] ends with [q]. *)
Definition ends_with (p q : string) : Prop :=
  exists front, p = (front ++ q)%string.

(** [q] occurs in [p]. *)
Definition occurs_in (q p : string) : Prop :=
  exists front rest, p = (front ++ q ++ rest)%string.

(** The paths the engine takes for version files: [versions] followed by
    a separator occurs in them, and they end in [.json]. *)
Definition version_path (p : string) : Prop :=
  (occurs_in "versions/" p \/ occurs_in ("versions" ++ backslash) p) /\
  ends_with p ".json".

(** The version files of the model file [dir ++ "model.json"] among the
    walked paths [files]: the version paths that, written with forward
    slashes, begin with the path of the directory [versions] beside the
    model file. *)
Definition version_file_of (files : list string) (dir vf : string) : Prop :=
  In vf files /\ version_path vf /\
  begins_with (to_slashes vf) (to_slashes (dir ++ "versions")).

(** The file name of the path [p] is [stem] followed by [.json]. *)
Definition file_stem (p stem : string) : Prop :=
  Str.all (fun c => negb (Path.is_slash c)) stem = true /\
  (p = (stem ++ ".json")%string \/ exists d, p = (d ++ "/" ++ stem ++ ".json")%string).

(** [models/text/foo] at version 1.0.0 with an empty [versions]
    directory. *)
Definition world_no_versions : world :=
  world_of
    (Dir [("models", Dir [("text", Dir [("foo",
       example_entry (example_model "org/foo" "text" "1.0.0") [])])])]).

(** The file [versions/1.0.0.json] holds the version 1.0.1. *)
Definition world_renamed_version : world :=
  world_of
    (Dir [("models", Dir [("text", Dir [("foo",
       example_entry (example_model "org/foo" "text" "1.0.0")
         [("1.0.0.json", File (Json (example_version "org/foo" "1.0.1" zero_digest)))])])])]).

(** The version file belongs to another model. *)
Definition world_foreign_version : world :=
  world_of
    (Dir [("models", Dir [("text", Dir [("foo",
       example_entry (example_model "org/foo" "text" "1.0.0")
         [("1.0.0.json", File (Json (example_version "org/bar" "1.0.0" zero_digest)))])])])]).

(* ================================================================== *)
(** ** Where a path leads *)
(* ================================================================== *)

(** The components that may lead a normalized path, before its plain
    components: none (a relative path that stays below the working
    directory), the empty component that stands before the first slash of
    an absolute path, or a run of [..]. *)
Definition lead_ok (lead : list string) : Prop :=
  lead = [EmptyString] \/ Forall (fun s => s = "..") lead.

(** The path [p] names the directory of the components [segs], with or
    without a slash at its end. *)
Definition at_dir (p : string) (segs : list string) : Prop :=
  p = path_of segs \/ p = (path_of segs ++ "/")%string.

(** The lead of an absolute path. *)
Definition is_absolute (lead : list string) : bool :=
  match lead with
  | [s] => String.eqb s EmptyString
  | _ => false
  end.

(** What [path.normalize] keeps of a lead: the root is written as the
    slash in front. *)
Definition kept_lead (lead : list string) : list string :=
  if is_absolute lead then [] else lead.

(* ================================================================== *)
(** * Properties *)
(* ================================================================== *)

Unset Implicit Arguments.

(** ** The matcher decides the language of a pattern *)

Lemma append_empty_inv (a b : string) :
  (a ++ b)%string = EmptyString -> a = EmptyString /\ b = EmptyString.
Proof.
  destruct a; simpl; intros H; [auto | discriminate].
Qed.

Lemma append_cons_inv (a b : string) c s :
  (a ++ b)%string = String c s ->
  (a = EmptyString /\ b = String c s) \/
  (exists a', a = String c a' /\ s = (a' ++ b)%string).
Proof.
  destruct a as [|x a]; simpl; intros H.
  - left; auto.
  - right. inversion H; subst. exists a; auto.
Qed.

Lemma append_nil_r (s : string) : (s ++ EmptyString)%string = s.
Proof.
  induction s; simpl; congruence.
Qed.

Lemma append_assoc (a b c : string) :
  ((a ++ b) ++ c)%string = (a ++ (b ++ c))%string.
Proof.
  induction a; simpl; congruence.
Qed.

Lemma nullable_sound ic r : nullable r = true -> lang ic r EmptyString.
Proof.
  induction r; simpl; intros H; try discriminate.
  - constructor.
  - apply andb_true_iff in H as [H1 H2].
    change EmptyString with (EmptyString ++ EmptyString)%string.
    constructor; auto.
  - apply orb_true_iff in H as [H | H]; [apply L_alt_l | apply L_alt_r]; auto.
  - constructor.
Qed.

Lemma nullable_complete ic r s :
  lang ic r s -> s = EmptyString -> nullable r = true.
Proof.
  induction 1; intros E; simpl; auto; try discriminate.
  - apply append_empty_inv in E as [E1 E2]. rewrite IHlang1, IHlang2; auto.
  - rewrite IHlang; auto.
  - rewrite IHlang; auto using orb_true_r.
Qed.

Lemma deriv_sound ic c r : forall s, lang ic (deriv ic c r) s -> lang ic r (String c s).
Proof.
  induction r; simpl; intros s H.
  - inversion H.
  - inversion H.
  - destruct (class_test ic ranges c) eqn:E; inversion H; subst.
    constructor; assumption.
  - destruct (nullable r1) eqn:N.
    + inversion H; subst.
      * match goal with X : lang _ (Cat _ _) _ |- _ => inversion X; subst end.
        change (String c (s1 ++ s2)) with (String c s1 ++ s2)%string.
        constructor; auto.
      * change (String c s) with (EmptyString ++ String c s)%string.
        constructor; auto using nullable_sound.
    + inversion H; subst.
      change (String c (s1 ++ s2)) with (String c s1 ++ s2)%string.
      constructor; auto.
  - inversion H; subst; [apply L_alt_l | apply L_alt_r]; auto.
  - inversion H; subst.
    change (String c (s1 ++ s2)) with (String c s1 ++ s2)%string.
    constructor; auto.
Qed.

Lemma deriv_complete ic c r s0 :
  lang ic r s0 -> forall s, s0 = String c s -> lang ic (deriv ic c r) s.
Proof.
  induction 1; intros t E; simpl.
  - discriminate.
  - inversion E; subst. rewrite H. constructor.
  - apply append_cons_inv in E as [[E1 E2] | [a' [E1 E2]]]; subst.
    + rewrite (nullable_complete _ _ _ H eq_refl). apply L_alt_r. auto.
    + destruct (nullable r1).
      * apply L_alt_l. constructor; auto.
      * constructor; auto.
  - apply L_alt_l; auto.
  - apply L_alt_r; auto.
  - discriminate.
  - apply append_cons_inv in E as [[E1 E2] | [a' [E1 E2]]]; subst.
    + apply IHlang2. reflexivity.
    + constructor; auto.
Qed.

Lemma matches_lang ic r : forall s, matches ic r s = true <-> lang ic r s.
Proof.
  intros s; revert r.
  induction s as [|c s IH]; intros r; simpl.
  - split; [apply nullable_sound | intros H; exact (nullable_complete _ _ _ H eq_refl)].
  - rewrite IH. split; [apply deriv_sound | intros H; exact (deriv_complete _ _ _ _ H _ eq_refl)].
Qed.

(** ** Character classes of the two patterns *)

Ltac inv H := inversion H; subst; clear H.

Ltac by_cases_on_char c :=
  destruct c as [[] [] [] [] [] [] [] []]; vm_compute; reflexivity.

Lemma digit_class_test c : class_test false [("0"%char, "9"%char)] c = Str.is_digit c.
Proof. by_cases_on_char c. Qed.

Lemma ident_class_test c :
  class_test false
    [("0"%char, "9"%char); ("A"%char, "Z"%char); ("a"%char, "z"%char);
     ("."%char, "."%char); ("-"%char, "-"%char)] c = is_ident_char c.
Proof. by_cases_on_char c. Qed.

Lemma hex_class_test c :
  class_test true [("0"%char, "9"%char); ("a"%char, "f"%char)] c = is_hex c.
Proof. by_cases_on_char c. Qed.

Lemma dot_test c : class_test false [("."%char, "."%char)] c = Ascii.eqb c ".".
Proof. by_cases_on_char c. Qed.

Lemma hyphen_test c : class_test false [("-"%char, "-"%char)] c = Ascii.eqb c "-".
Proof. by_cases_on_char c. Qed.

Lemma plus_sign_test c : class_test false [("+"%char, "+"%char)] c = Ascii.eqb c "+".
Proof. by_cases_on_char c. Qed.

(** ** Languages of the pattern combinators *)

Lemma lang_cat_iff ic r1 r2 s :
  lang ic (Cat r1 r2) s <->
  exists s1 s2, s = (s1 ++ s2)%string /\ lang ic r1 s1 /\ lang ic r2 s2.
Proof.
  split.
  - intros H; inv H. eauto.
  - intros (s1 & s2 & -> & H1 & H2). constructor; assumption.
Qed.

Lemma lang_opt_iff ic r s :
  lang ic (opt r) s <-> s = EmptyString \/ lang ic r s.
Proof.
  unfold opt. split.
  - intros H; inv H; auto.
    match goal with X : lang _ Eps _ |- _ => inv X end. auto.
  - intros [-> | H]; [apply L_alt_r; constructor | apply L_alt_l; assumption].
Qed.

Lemma lang_class_iff ic rs s :
  lang ic (Class rs) s <-> exists c, s = String c EmptyString /\ class_test ic rs c = true.
Proof.
  split.
  - intros H; inv H. eauto.
  - intros (c & -> & H). constructor; assumption.
Qed.

Lemma lang_star_class ic rs s :
  lang ic (Star (Class rs)) s <-> Str.all (class_test ic rs) s = true.
Proof.
  split.
  - remember (Star (Class rs)) as r eqn:E. induction 1; inversion E; subst; auto.
    match goal with X : lang _ (Class _) _ |- _ => inv X end.
    simpl. apply andb_true_iff. auto.
  - induction s as [|c s IH]; simpl; intros H.
    + constructor.
    + apply andb_true_iff in H as [H1 H2].
      change (String c s) with (String c EmptyString ++ s)%string.
      constructor; [constructor; assumption | auto].
Qed.

Lemma lang_plus_class ic rs s :
  lang ic (plus (Class rs)) s <->
  s <> EmptyString /\ Str.all (class_test ic rs) s = true.
Proof.
  unfold plus. rewrite lang_cat_iff. split.
  - intros (s1 & s2 & -> & H1 & H2).
    apply lang_class_iff in H1 as (c & -> & H1). apply lang_star_class in H2.
    simpl. rewrite H1, H2. split; [discriminate | reflexivity].
  - intros [N H]. destruct s as [|c s]; [congruence|].
    simpl in H. apply andb_true_iff in H as [H1 H2].
    exists (String c EmptyString), s. repeat split.
    + constructor; assumption.
    + apply lang_star_class; assumption.
Qed.

Lemma lang_times_class ic rs n : forall s,
  lang ic (times n (Class rs)) s <->
  String.length s = n /\ Str.all (class_test ic rs) s = true.
Proof.
  induction n as [|n IH]; intros s; simpl.
  - split.
    + intros H; inv H. auto.
    + intros [H _]. destruct s; [constructor | discriminate].
  - rewrite lang_cat_iff. split.
    + intros (s1 & s2 & -> & H1 & H2).
      apply lang_class_iff in H1 as (c & -> & H1). apply IH in H2 as [H2 H3].
      simpl. rewrite H1, H2, H3. auto.
    + intros [L H]. destruct s as [|c s]; [discriminate|].
      simpl in *. apply andb_true_iff in H as [H1 H2].
      exists (String c EmptyString), s. repeat split.
      * constructor; assumption.
      * apply IH. split; [congruence | assumption].
Qed.

Lemma all_ext (p q : ascii -> bool) s :
  (forall c, p c = q c) -> Str.all p s = Str.all q s.
Proof.
  intros E. induction s; simpl; [reflexivity | rewrite E, IHs; reflexivity].
Qed.

Lemma lang_one_char c d s :
  (forall x, class_test false [(c, c)] x = Ascii.eqb x d) ->
  lang false (lit c) s <-> s = String d EmptyString.
Proof.
  intros T. unfold lit. rewrite lang_class_iff. split.
  - intros (x & -> & H). rewrite T in H. apply Ascii.eqb_eq in H. congruence.
  - intros ->. exists d. split; [reflexivity|]. rewrite T. apply Ascii.eqb_refl.
Qed.

Lemma lang_digits s : lang false (plus digit_class) s <-> numeric s.
Proof.
  unfold digit_class, numeric. rewrite lang_plus_class.
  rewrite (all_ext _ _ s digit_class_test). reflexivity.
Qed.

Lemma lang_ident s : lang false (plus ident_class) s <-> ident_run s.
Proof.
  unfold ident_class, ident_run. rewrite lang_plus_class.
  rewrite (all_ext _ _ s ident_class_test). reflexivity.
Qed.

Lemma lang_tagged_ident c d s :
  (forall x, class_test false [(c, c)] x = Ascii.eqb x d) ->
  lang false (opt (Cat (lit c) (plus ident_class))) s <->
  (s = EmptyString \/ exists p, s = String d p /\ ident_run p).
Proof.
  intros T. rewrite lang_opt_iff, lang_cat_iff. split.
  - intros [-> | (s1 & s2 & -> & H1 & H2)]; [left; reflexivity | right].
    apply (lang_one_char c d _ T) in H1. subst s1.
    apply lang_ident in H2. exists s2. auto.
  - intros [-> | (p & -> & H)]; [left; reflexivity | right].
    exists (String d EmptyString), p. repeat split.
    + apply (lang_one_char c d _ T). reflexivity.
    + apply lang_ident. assumption.
Qed.

Lemma SEMVER_RE_lang s : test SEMVER_RE s = true <-> semver_form s.
Proof.
  unfold test, SEMVER_RE; simpl body; simpl ignoreCase.
  rewrite matches_lang. unfold semver_form. split.
  - intros H.
    apply lang_cat_iff in H as (major & t1 & -> & Hmajor & H).
    apply lang_cat_iff in H as (d1 & t2 & -> & Hd1 & H).
    apply lang_cat_iff in H as (minor & t3 & -> & Hminor & H).
    apply lang_cat_iff in H as (d2 & t4 & -> & Hd2 & H).
    apply lang_cat_iff in H as (patch & t5 & -> & Hpatch & H).
    apply lang_cat_iff in H as (pre & build & -> & Hpre & Hbuild).
    apply (lang_one_char _ _ _ dot_test) in Hd1, Hd2. subst d1 d2.
    apply lang_digits in Hmajor, Hminor, Hpatch.
    apply (lang_tagged_ident _ _ _ hyphen_test) in Hpre.
    apply (lang_tagged_ident _ _ _ plus_sign_test) in Hbuild.
    exists major, minor, patch, pre, build.
    split; [reflexivity|]. repeat (split; [assumption|]). assumption.
  - intros (major & minor & patch & pre & build & -> & Hmajor & Hminor & Hpatch & Hpre & Hbuild).
    apply lang_digits in Hmajor, Hminor, Hpatch.
    apply (lang_tagged_ident _ _ _ hyphen_test) in Hpre.
    apply (lang_tagged_ident _ _ _ plus_sign_test) in Hbuild.
    constructor; [assumption|].
    change ("." ++ minor ++ "." ++ patch ++ pre ++ build)%string
      with (String "." EmptyString ++ (minor ++ "." ++ patch ++ pre ++ build))%string.
    constructor; [apply (lang_one_char _ _ _ dot_test); reflexivity|].
    constructor; [assumption|].
    change ("." ++ patch ++ pre ++ build)%string
      with (String "." EmptyString ++ (patch ++ pre ++ build))%string.
    constructor; [apply (lang_one_char _ _ _ dot_test); reflexivity|].
    constructor; [assumption|].
    constructor; assumption.
Qed.

(** ** The digest pattern *)

Lemma lower_prefix_test (a x : ascii) :
  In a (list_ascii_of_string "sha256:") ->
  class_test true [(a, a)] x = Ascii.eqb (Str.lower x) a.
Proof.
  simpl. intros H.
  repeat (destruct H as [<- | H]; [by_cases_on_char x|]).
  contradiction.
Qed.

Lemma lang_text_lower (p : string) :
  (forall a, In a (list_ascii_of_string p) -> In a (list_ascii_of_string "sha256:")) ->
  forall s, lang true (text p) s <-> Str.map Str.lower s = p.
Proof.
  induction p as [|a p IH]; intros Hin s; simpl.
  - split.
    + intros H; inv H. reflexivity.
    + destruct s; simpl; [constructor | discriminate].
  - rewrite lang_cat_iff. split.
    + intros (s1 & s2 & -> & H1 & H2).
      apply lang_class_iff in H1 as (x & -> & H1).
      rewrite lower_prefix_test in H1 by (apply Hin; left; reflexivity).
      apply Ascii.eqb_eq in H1.
      apply IH in H2; [| intros b Hb; apply Hin; right; assumption].
      simpl. congruence.
    + destruct s as [|x s]; simpl; [discriminate|]. intros E. inversion E; subst.
      exists (String x EmptyString), s. repeat split.
      * constructor. rewrite lower_prefix_test by (apply Hin; left; reflexivity).
        apply Ascii.eqb_refl.
      * apply IH; [intros b Hb; apply Hin; right; assumption | reflexivity].
Qed.

Lemma SHA256_RE_lang s : test SHA256_RE s = true <-> digest_form s.
Proof.
  unfold test, SHA256_RE; cbn [body ignoreCase].
  rewrite matches_lang, lang_cat_iff. unfold digest_form, hex_class.
  split.
  - intros (p & h & -> & Hp & Hh).
    apply (lang_text_lower "sha256:") in Hp; [| auto].
    apply lang_times_class in Hh as [L Hh].
    rewrite (all_ext _ _ h hex_class_test) in Hh.
    exists p, h. auto.
  - intros (p & h & -> & Hp & L & Hh).
    exists p, h. repeat split.
    + apply (lang_text_lower "sha256:"); auto.
    + apply lang_times_class. rewrite (all_ext _ _ h hex_class_test). auto.
Qed.

(** ** Computations that only read *)

Lemma readonly_run {A} (m : M A) w : readonly m -> m w = (eval m w, w).
Proof.
  intros R. destruct (R w) as [E _]. unfold eval.
  destruct (m w) as [o w']. simpl in *. congruence.
Qed.

Lemma readonly_no_exit {A} (m : M A) w c : readonly m -> eval m w <> Exit c.
Proof.
  intros R. destruct (R w) as (_ & E & _). apply E.
Qed.

Lemma readonly_same_fs {A} (m : M A) w w' :
  readonly m -> fs w' = fs w -> eval m w' = eval m w.
Proof.
  intros R. destruct (R w) as (_ & _ & E). apply E.
Qed.

Lemma bind_readonly {A B} (m : M A) (k : A -> M B) w :
  readonly m ->
  bind m k w = match eval m w with
               | Ret a => k a w
               | Throw e => (Throw e, w)
               | Exit c => (Exit c, w)
               end.
Proof.
  intros R. unfold bind. rewrite (readonly_run m w R).
  destruct (eval m w); reflexivity.
Qed.

Lemma readonly_intro {A} (m : M A) :
  (forall w, m w = (eval m w, w)) ->
  (forall w c, eval m w <> Exit c) ->
  (forall w w', fs w' = fs w -> eval m w' = eval m w) ->
  readonly m.
Proof.
  intros H1 H2 H3 w. repeat split.
  - rewrite H1. reflexivity.
  - apply H2.
  - apply H3.
Qed.

Lemma readonly_ret {A} (a : A) : readonly (ret a).
Proof. apply readonly_intro; intros; [reflexivity | discriminate | reflexivity]. Qed.

Lemma readonly_throw {A} (e : exn) : readonly (@throw A e).
Proof. apply readonly_intro; intros; [reflexivity | discriminate | reflexivity]. Qed.

Lemma readonly_bind {A B} (m : M A) (k : A -> M B) :
  readonly m -> (forall a, readonly (k a)) -> readonly (bind m k).
Proof.
  intros Rm Rk. apply readonly_intro.
  - intros w. unfold eval. rewrite (bind_readonly m k w Rm).
    destruct (eval m w) as [a|e|c]; try reflexivity.
    apply (readonly_run (k a) w (Rk a)).
  - intros w c. unfold eval. rewrite (bind_readonly m k w Rm).
    destruct (eval m w) as [a|e|c'] eqn:E.
    + apply (readonly_no_exit (k a) w c (Rk a)).
    + discriminate.
    + exfalso. exact (readonly_no_exit m w c' Rm E).
  - intros w w' F. unfold eval.
    rewrite (bind_readonly m k w Rm), (bind_readonly m k w' Rm).
    rewrite (readonly_same_fs m w w' Rm F).
    destruct (eval m w) as [a|e|c]; try reflexivity.
    apply (readonly_same_fs (k a) w w' (Rk a) F).
Qed.

Lemma try_catch_readonly {A} (m : M A) (h : exn -> M A) w :
  readonly m ->
  try_catch m h w = match eval m w with
                    | Throw e => h e w
                    | r => (r, w)
                    end.
Proof.
  intros R. unfold try_catch. rewrite (readonly_run m w R).
  destruct (eval m w); reflexivity.
Qed.

Lemma readonly_try_catch {A} (m : M A) (h : exn -> M A) :
  readonly m -> (forall e, readonly (h e)) -> readonly (try_catch m h).
Proof.
  intros Rm Rh. apply readonly_intro.
  - intros w. unfold eval. rewrite (try_catch_readonly m h w Rm).
    destruct (eval m w) as [a|e|c]; try reflexivity.
    apply (readonly_run (h e) w (Rh e)).
  - intros w c. unfold eval. rewrite (try_catch_readonly m h w Rm).
    destruct (eval m w) as [a|e|c'] eqn:E.
    + discriminate.
    + apply (readonly_no_exit (h e) w c (Rh e)).
    + exfalso. exact (readonly_no_exit m w c' Rm E).
  - intros w w' F. unfold eval.
    rewrite (try_catch_readonly m h w Rm), (try_catch_readonly m h w' Rm).
    rewrite (readonly_same_fs m w w' Rm F).
    destruct (eval m w) as [a|e|c]; try reflexivity.
    apply (readonly_same_fs (h e) w w' (Rh e) F).
Qed.

Lemma readonly_assert c msg : readonly (assert c msg).
Proof. unfold assert. destruct c; [apply readonly_ret | apply readonly_throw]. Qed.

Lemma readonly_for_of {A} (xs : list A) (body : A -> M unit) :
  (forall x, readonly (body x)) -> readonly (for_of xs body).
Proof.
  intros R. induction xs as [|x xs IH]; simpl.
  - apply readonly_ret.
  - apply readonly_bind; auto.
Qed.

(** Reading the file tree and deciding on it. *)
Lemma readonly_on_fs {A} (k : node -> M A) :
  (forall t, readonly (k t)) -> readonly (bind get_fs k).
Proof.
  intros Rk. apply readonly_intro.
  - intros w. unfold eval, bind, get_fs. apply (readonly_run (k (fs w)) w (Rk _)).
  - intros w c. unfold eval, bind, get_fs. apply (readonly_no_exit (k (fs w)) w c (Rk _)).
  - intros w w' F. unfold eval, bind, get_fs. rewrite F.
    apply (readonly_same_fs (k (fs w)) w w' (Rk _) F).
Qed.

Lemma readonly_get x k : readonly (get x k).
Proof. destruct x; simpl; auto using readonly_ret, readonly_throw. Qed.

Lemma readonly_get_opt x k : readonly (get_opt x k).
Proof.
  destruct x as [v|]; simpl; [|apply readonly_ret].
  destruct v; simpl; auto using readonly_ret, readonly_throw.
Qed.

Lemma readonly_statSync p : readonly (Fs.statSync p).
Proof.
  apply readonly_on_fs. intros t.
  destruct (Fs.resolve t p) as [[c|es]|]; auto using readonly_ret, readonly_throw.
Qed.

Lemma readonly_readFileSync p : readonly (Fs.readFileSync p).
Proof.
  apply readonly_on_fs. intros t.
  destruct (Fs.resolve t p) as [[c|es]|]; auto using readonly_ret, readonly_throw.
Qed.

Lemma readonly_readdirSync p : readonly (Fs.readdirSync p).
Proof.
  apply readonly_on_fs. intros t.
  destruct (Fs.resolve t p) as [[c|es]|]; auto using readonly_ret, readonly_throw.
Qed.

Lemma readonly_JSON_parse c : readonly (JSON_parse c).
Proof. destruct c; simpl; auto using readonly_ret, readonly_throw. Qed.

Lemma readonly_parseJson p : readonly (parseJson p).
Proof.
  apply readonly_try_catch.
  - apply readonly_bind; [apply readonly_readFileSync | apply readonly_JSON_parse].
  - intros e. apply readonly_throw.
Qed.

Lemma readonly_walk dir : readonly (walk dir).
Proof.
  apply readonly_bind; [apply readonly_readdirSync | intros; apply readonly_ret].
Qed.

Lemma readonly_path_arg x : readonly (path_arg x).
Proof. destruct x; simpl; auto using readonly_ret, readonly_throw. Qed.

(** The loader on a state: the value, or the one error it raises. *)
Lemma parseJson_run path w :
  parseJson path w =
  (match eval (Fs.readFileSync path) w with
   | Ret (Json v) => Ret v
   | _ => Throw (Error ("invalid_json: " ++ path))
   end, w).
Proof.
  unfold parseJson.
  rewrite (try_catch_readonly _ _ w
             (readonly_bind _ _ (readonly_readFileSync path) readonly_JSON_parse)).
  unfold eval at 1. rewrite (bind_readonly _ _ w (readonly_readFileSync path)).
  destruct (eval (Fs.readFileSync path) w) as [[s|v]|e|c] eqn:E; try reflexivity.
  exfalso. exact (readonly_no_exit _ w c (readonly_readFileSync path) E).
Qed.

Create HintDb ro.

#[global] Hint Resolve readonly_ret readonly_throw readonly_assert readonly_get
  readonly_get_opt readonly_statSync readonly_readFileSync readonly_readdirSync
  readonly_JSON_parse readonly_parseJson readonly_walk readonly_path_arg : ro.

(** ** Loops *)

Lemma for_of_all {A} (xs : list A) (body : A -> M unit) w :
  (forall x, readonly (body x)) ->
  eval (for_of xs body) w = Ret tt <->
  (forall x, In x xs -> eval (body x) w = Ret tt).
Proof.
  intros R. induction xs as [|x xs IH]; simpl.
  - split; [intros _ y [] | reflexivity].
  - unfold eval at 1. rewrite (bind_readonly _ _ w (R x)).
    destruct (eval (body x) w) as [[]|e|c] eqn:E.
    + fold (eval (for_of xs body) w). rewrite IH. split.
      * intros H y [<- | Hy]; auto.
      * intros H y Hy. apply H. right; assumption.
    + simpl. split; [discriminate|]. intros H.
      specialize (H x (or_introl eq_refl)). congruence.
    + simpl. split; [discriminate|]. intros H.
      specialize (H x (or_introl eq_refl)). congruence.
Qed.

Lemma for_of_first_throw {A} (body : A -> M unit) w pre x post e :
  (forall y, readonly (body y)) ->
  (forall y, In y pre -> eval (body y) w = Ret tt) ->
  eval (body x) w = Throw e ->
  eval (for_of (pre ++ x :: post) body) w = Throw e.
Proof.
  intros R. induction pre as [|y pre IH]; simpl; intros Hpre Hx.
  - unfold eval at 1. rewrite (bind_readonly _ _ w (R x)), Hx. reflexivity.
  - unfold eval at 1. rewrite (bind_readonly _ _ w (R y)).
    rewrite (Hpre y (or_introl eq_refl)). apply IH; auto.
Qed.

(** ** One version file *)

Arguments test : simpl never.
Arguments Str.trim : simpl never.
Arguments versionFromFile : simpl never.
Arguments folderModality : simpl never.
Arguments expectedFile : simpl never.
Arguments matching : simpl never.
Arguments isIsoDate : simpl never.
Arguments String.eqb : simpl nomatch.

Lemma assert_bind {B} c msg (k : unit -> M B) w :
  bind (assert c msg) k w = if c then k tt w else (Throw (Error msg), w).
Proof. destruct c; reflexivity. Qed.

Lemma get_bind {B} v key (k : jsval -> M B) w :
  v <> VNull -> bind (get v key) k w = k (field v key) w.
Proof. destruct v; intros N; try reflexivity. congruence. Qed.

Ltac ro :=
  repeat first
    [ solve [auto with ro]
    | apply readonly_bind; [| let a := fresh "a" in intro a; cbv beta]
    | apply readonly_try_catch; [| let e := fresh "e" in intro e; cbv beta]
    | apply readonly_for_of; let x := fresh "x" in intro x; cbv beta
    | match goal with |- readonly (match ?x with _ => _ end) => destruct x end ].

Lemma readonly_validate_version m_id vf : readonly (validate_version m_id vf).
Proof. unfold validate_version. ro. Qed.

Lemma get_opt_bind {B} x key (k : jsval -> M B) w :
  bind (get_opt x key) k w =
  k (match x with None => None | Some VNull => None | Some a => field a key end) w.
Proof. destruct x as [[]|]; reflexivity. Qed.

Lemma validate_version_spec m_id vf w v :
  eval (parseJson vf) w = Ret v ->
  eval (validate_version m_id vf) w =
  match v with
  | VNull => Throw (TypeError "Cannot read properties of null (reading 'modelId')")
  | _ =>
      match first_violated m_id vf v version_checks with
      | None => Ret tt
      | Some c => Throw (Error (version_check_message c vf))
      end
  end.
Proof.
  intros P. unfold eval at 1, validate_version.
  rewrite (bind_readonly _ _ w (readonly_parseJson vf)), P.
  assert (N : v = VNull \/ v <> VNull) by (destruct v; auto; right; discriminate).
  destruct N as [-> | N]; [reflexivity|].
  replace (match v with
           | VNull => Throw (TypeError "Cannot read properties of null (reading 'modelId')")
           | _ => match first_violated m_id vf v version_checks with
                  | None => Ret tt
                  | Some c => Throw (Error (version_check_message c vf))
                  end
           end)
    with (match first_violated m_id vf v version_checks with
          | None => Ret tt
          | Some c => Throw (Error (version_check_message c vf))
          end) by (destruct v; congruence).
  unfold first_violated, version_checks.
  cbn [find version_check_holds version_check_message].
  rewrite (get_bind v _ _ w N), assert_bind.
  destruct (strict_eq (field v "modelId") m_id); [|reflexivity].
  rewrite (get_bind v _ _ w N), assert_bind.
  destruct ((typeof (field v "version") =? "string")%string &&
            test SEMVER_RE (as_string (field v "version"))); [|reflexivity].
  rewrite assert_bind.
  destruct (strict_eq (option_map VStr (versionFromFile vf)) (field v "version"));
    [|reflexivity].
  rewrite (get_bind v _ _ w N), get_opt_bind.
  fold (artifact_digest v).
  destruct (artifact_digest v) as [d|]; [|reflexivity].
  cbn [negb fst]. unfold assert.
  destruct ((typeof (Some d) =? "string")%string && test SHA256_RE (as_string (Some d)));
    reflexivity.
Qed.

Lemma validate_version_parse_throw m_id vf w e :
  eval (parseJson vf) w = Throw e ->
  eval (validate_version m_id vf) w = Throw e.
Proof.
  intros P. unfold eval at 1, validate_version.
  rewrite (bind_readonly _ _ w (readonly_parseJson vf)), P. reflexivity.
Qed.

(** A version file that passes has been parsed and checked four times. *)
Lemma validate_version_ok m_id vf w :
  eval (validate_version m_id vf) w = Ret tt ->
  exists v, eval (parseJson vf) w = Ret v /\
            forall c, version_check_holds m_id vf v c = true.
Proof.
  intros H. destruct (eval (parseJson vf) w) as [v|e|c] eqn:P.
  - exists v. split; [reflexivity|].
    rewrite (validate_version_spec m_id vf w v P) in H.
    assert (F : first_violated m_id vf v version_checks = None).
    { destruct v; try discriminate H;
        destruct (first_violated m_id vf _ version_checks); congruence. }
    intros c. unfold first_violated in F.
    pose proof (find_none _ _ F c) as N.
    apply negb_false_iff. apply N.
    destruct c; simpl; auto.
  - rewrite (validate_version_parse_throw m_id vf w e P) in H. discriminate H.
  - exfalso. exact (readonly_no_exit _ w c (readonly_parseJson vf) P).
Qed.

(** The first check that does not hold decides the message. *)
Lemma validate_version_first_violated m_id vf w v c :
  eval (parseJson vf) w = Ret v ->
  v <> VNull ->
  first_violated m_id vf v version_checks = Some c ->
  eval (validate_version m_id vf) w = Throw (Error (version_check_message c vf)).
Proof.
  intros P N F. rewrite (validate_version_spec m_id vf w v P), F.
  destruct v; congruence.
Qed.

(** ** One model file *)

Section ModelFile.

Variable Date_parse : string -> option Z.

Lemma readonly_validate_model vfs mf : readonly (validate_model Date_parse vfs mf).
Proof.
  unfold validate_model. ro.
Qed.

Lemma perf_check_eval p msg w :
  eval (try_catch (bind (Fs.statSync p) (fun st => assert (Fs.isFile st) msg))
                  (fun _ => throw (Error msg))) w =
  match eval (Fs.statSync p) w with
  | Ret Fs.IsFile => Ret tt
  | _ => Throw (Error msg)
  end.
Proof.
  unfold eval at 1, try_catch.
  rewrite (bind_readonly _ _ w (readonly_statSync p)).
  destruct (eval (Fs.statSync p) w) as [[|]|e|c] eqn:E; try reflexivity.
  exfalso. exact (readonly_no_exit _ w c (readonly_statSync p) E).
Qed.

Lemma readonly_perf_check p msg :
  readonly (try_catch (bind (Fs.statSync p) (fun st => assert (Fs.isFile st) msg))
                      (fun _ => throw (Error msg))).
Proof. ro. Qed.

Lemma field_checks_not_null m : field_checks Date_parse m = true -> m <> VNull.
Proof. intros H ->. discriminate H. Qed.

Lemma validate_model_parse_throw vfs mf w e :
  eval (parseJson mf) w = Throw e ->
  eval (validate_model Date_parse vfs mf) w = Throw e.
Proof.
  intros P. unfold eval at 1, validate_model.
  rewrite (bind_readonly _ _ w (readonly_parseJson mf)), P. reflexivity.
Qed.

(** After the six field checks: the folder check, the performance notes,
    the version files. *)
Lemma validate_model_after_fields vfs mf w m :
  eval (parseJson mf) w = Ret m ->
  field_checks Date_parse m = true ->
  eval (validate_model Date_parse vfs mf) w =
  if negb (strict_eq (option_map VStr (folderModality mf)) (field m "modality"))
  then Throw (Error ("modality folder mismatch for " ++ as_string (field m "id")))
  else
    match eval (Fs.statSync (Str.replace_suffix "model.json" "PERFORMANCE.md" mf)) w with
    | Ret Fs.IsFile =>
        if negb (Nat.ltb 0 (List.length (matching vfs mf)))
        then Throw (Error ("no versions found for model " ++ as_string (field m "id")))
        else if negb (existsb (String.eqb (expectedFile mf (as_string (field m "version"))))
                              (matching vfs mf))
        then Throw (Error ("missing versions/" ++ as_string (field m "version") ++
                           ".json for model " ++ as_string (field m "id")))
        else eval (for_of (matching vfs mf) (validate_version (field m "id"))) w
    | _ => Throw (Error ("PERFORMANCE.md missing: " ++
                         Str.replace_suffix "model.json" "PERFORMANCE.md" mf))
    end.
Proof.
  intros P F. pose proof (field_checks_not_null m F) as N.
  unfold field_checks, nonblank in F.
  repeat (apply andb_true_iff in F; destruct F as [F ?]).
  unfold eval at 1, validate_model.
  rewrite (bind_readonly _ _ w (readonly_parseJson mf)), P.
  repeat (rewrite (get_bind m _ _ w N), assert_bind;
          match goal with
          | H : ?c = true |- context [if ?c then _ else _] => rewrite H
          | H1 : ?a = true, H2 : ?b = true |- context [if ?a && ?b then _ else _] =>
              rewrite H1, H2; cbn [andb]
          end).
  rewrite assert_bind.
  destruct (strict_eq (option_map VStr (folderModality mf)) (field m "modality"));
    [|reflexivity].
  cbn [negb].
  rewrite (bind_readonly _ _ w (readonly_perf_check _ _)), perf_check_eval.
  destruct (eval (Fs.statSync (Str.replace_suffix "model.json" "PERFORMANCE.md" mf)) w)
    as [[|]|e|c]; try reflexivity.
  rewrite assert_bind.
  destruct (Nat.ltb 0 (List.length (matching vfs mf))); [|reflexivity].
  rewrite assert_bind.
  destruct (existsb (String.eqb (expectedFile mf (as_string (field m "version"))))
                    (matching vfs mf)); reflexivity.
Qed.

Lemma validate_model_fields_needed vfs mf w m :
  eval (parseJson mf) w = Ret m ->
  eval (validate_model Date_parse vfs mf) w = Ret tt ->
  field_checks Date_parse m = true.
Proof.
  intros P H. unfold eval at 1, validate_model in H.
  rewrite (bind_readonly _ _ w (readonly_parseJson mf)), P in H.
  assert (N : m <> VNull) by (intros ->; discriminate H).
  unfold field_checks, nonblank.
  repeat (rewrite (get_bind m _ _ w N), assert_bind in H;
          match type of H with
          | context [if ?c then _ else _] =>
              destruct c eqn:?; [|discriminate H]
          end).
  repeat match goal with
         | E : _ && _ = true |- _ => apply andb_true_iff in E; destruct E
         end.
  repeat match goal with E : ?c = true |- _ => rewrite E; clear E end.
  reflexivity.
Qed.

Lemma validate_model_outcome vfs mf w :
  eval (validate_model Date_parse vfs mf) w = Ret tt \/
  exists e, eval (validate_model Date_parse vfs mf) w = Throw e.
Proof.
  destruct (eval (validate_model Date_parse vfs mf) w) as [[]|e|c] eqn:E; eauto.
  exfalso. exact (readonly_no_exit _ w c (readonly_validate_model vfs mf) E).
Qed.

(** What a model file that passes has been checked for. *)
Lemma validate_model_ok vfs mf w :
  eval (validate_model Date_parse vfs mf) w = Ret tt ->
  exists m,
    eval (parseJson mf) w = Ret m /\
    field_checks Date_parse m = true /\
    strict_eq (option_map VStr (folderModality mf)) (field m "modality") = true /\
    eval (Fs.statSync (Str.replace_suffix "model.json" "PERFORMANCE.md" mf)) w
      = Ret Fs.IsFile /\
    matching vfs mf <> [] /\
    In (expectedFile mf (as_string (field m "version"))) (matching vfs mf) /\
    (forall vf, In vf (matching vfs mf) ->
                eval (validate_version (field m "id") vf) w = Ret tt).
Proof.
  intros H.
  destruct (eval (parseJson mf) w) as [m|e|c] eqn:P.
  - pose proof (validate_model_fields_needed vfs mf w m P H) as F.
    rewrite (validate_model_after_fields vfs mf w m P F) in H.
    exists m. split; [reflexivity|]. split; [assumption|].
    destruct (strict_eq (option_map VStr (folderModality mf)) (field m "modality"));
      [|discriminate H].
    split; [reflexivity|]. cbn [negb] in H.
    destruct (eval (Fs.statSync (Str.replace_suffix "model.json" "PERFORMANCE.md" mf)) w)
      as [[|]|e|c]; try discriminate H.
    split; [reflexivity|].
    destruct (matching vfs mf) as [|vf0 found] eqn:Em; [discriminate H|].
    split; [discriminate|]. cbn [List.length Nat.ltb Nat.leb negb] in H.
    destruct (existsb (String.eqb (expectedFile mf (as_string (field m "version"))))
                      (vf0 :: found)) eqn:Ex; [|discriminate H].
    cbn [negb] in H. split.
    + apply existsb_exists in Ex as (x & Hx & Ex).
      apply String.eqb_eq in Ex. subst x. assumption.
    + apply for_of_all; [intros; apply readonly_validate_version | assumption].
  - rewrite (validate_model_parse_throw vfs mf w e P) in H. discriminate H.
  - exfalso. exact (readonly_no_exit _ w c (readonly_parseJson mf) P).
Qed.

End ModelFile.

(** ** The modality segment of a path *)

Lemma indexOf_first pre name rest :
  ~ In name pre -> indexOf (pre ++ name :: rest) name = Some (List.length pre).
Proof.
  induction pre as [|a pre IH]; intros N; cbn [app indexOf List.length].
  - rewrite String.eqb_refl. reflexivity.
  - destruct (String.eqb a name) eqn:E.
    + apply String.eqb_eq in E. exfalso. apply N. left. assumption.
    + rewrite IH; [reflexivity|]. intros H. apply N. right. assumption.
Qed.

(** The modality segment is the component that follows the first
    [models] component of the path. *)
Lemma folderModality_after_models mf pre x post :
  path_parts mf = pre ++ "models" :: x :: post ->
  ~ In "models" pre ->
  folderModality mf = Some x.
Proof.
  intros P N. unfold folderModality. rewrite P, (indexOf_first pre "models" _ N).
  rewrite nth_error_app2 by lia.
  replace (List.length pre + 1 - List.length pre) with 1 by lia. reflexivity.
Qed.

(** ** A whole run of [validate models] *)

Section Run.

Variable Date_parse : string -> option Z.
Variable cmdDigest cmdPublish : list string -> M Z.

Local Notation ValidateModel := (validate_model Date_parse).
Local Notation CmdValidateModels := (cmdValidateModels Date_parse).
Local Notation Run := (run Date_parse cmdDigest cmdPublish).

Lemma argValue_fallback args name d :
  argValue args name (Some d) = Some (defined (argValue args name (Some d))).
Proof.
  unfold argValue. destruct (indexOf args name) as [i|]; [|reflexivity].
  destruct (nth_error args (i + 1)); reflexivity.
Qed.

Lemma cmdValidateModels_walk_throw rest w e :
  eval (walk (modelsDir rest)) w = Throw e ->
  CmdValidateModels rest w = (Throw e, w).
Proof.
  intros Hw. unfold cmdValidateModels.
  rewrite argValue_fallback. cbn [path_arg].
  change (bind (ret ?x) ?k w) with (k x w). cbv beta.
  fold (modelsDir rest).
  rewrite (bind_readonly _ _ w (readonly_walk _)), Hw. reflexivity.
Qed.

Lemma cmdValidateModels_spec rest w files :
  eval (walk (modelsDir rest)) w = Ret files ->
  CmdValidateModels rest w =
  if Nat.ltb 0 (List.length (modelFiles files)) then
    match eval (for_of (modelFiles files) (ValidateModel (versionFiles files))) w with
    | Ret _ => (Ret 0%Z, with_output w "OK: models registry validation passed.")
    | Throw e => (Throw e, w)
    | Exit c => (Exit c, w)
    end
  else (Throw (Error "no model.json entries found under models/"), w).
Proof.
  intros Hw. unfold cmdValidateModels.
  rewrite argValue_fallback. cbn [path_arg].
  change (bind (ret ?x) ?k w) with (k x w). cbv beta.
  fold (modelsDir rest).
  rewrite (bind_readonly _ _ w (readonly_walk _)), Hw.
  fold (modelFiles files). fold (versionFiles files).
  rewrite assert_bind.
  destruct (Nat.ltb 0 (List.length (modelFiles files))); [|reflexivity].
  rewrite (bind_readonly _ _ w
             (readonly_for_of _ _ (readonly_validate_model Date_parse _))).
  destruct (eval (for_of (modelFiles files) (ValidateModel (versionFiles files))) w);
    reflexivity.
Qed.

Lemma run_validate rest w :
  no_help (validate_args rest) ->
  Run (validate_args rest) w =
  match CmdValidateModels rest w with
  | (Ret code, w') => (code, w')
  | (Throw e, w') => (1%Z, with_error w' (message e))
  | (Exit code, w') => (code, w')
  end.
Proof.
  intros [H1 H2]. unfold run, program, try_catch, main.
  rewrite H1, H2. unfold validate_args.
  cbn -[cmdValidateModels cmdInitModel help]. unfold bind.
  destruct (CmdValidateModels rest w) as [[c|e|c] w']; reflexivity.
Qed.

Lemma strict_eq_string (a : option string) (y : jsval) :
  strict_eq (option_map VStr a) y = true <-> option_map VStr a = y.
Proof.
  destruct a as [s|]; simpl.
  - destruct y as [[| | |t| |]|]; split; try discriminate.
    + intros H. apply String.eqb_eq in H. congruence.
    + intros H. inversion H. apply String.eqb_refl.
  - destruct y as [[| | | | |]|]; split; try discriminate; reflexivity.
Qed.

Lemma walk_outcome dir w :
  (exists files, eval (walk dir) w = Ret files) \/
  (exists e, eval (walk dir) w = Throw e).
Proof.
  destruct (eval (walk dir) w) as [files|e|c] eqn:E; eauto.
  exfalso. exact (readonly_no_exit _ w c (readonly_walk dir) E).
Qed.

(** A run in which the model file [mf] is the first to fail ends with
    status 1 and the message of that failure on the error stream. *)
Lemma run_validate_throw rest w files pre mf post e :
  no_help (validate_args rest) ->
  eval (walk (modelsDir rest)) w = Ret files ->
  modelFiles files = pre ++ mf :: post ->
  (forall y, In y pre -> eval (ValidateModel (versionFiles files) y) w = Ret tt) ->
  eval (ValidateModel (versionFiles files) mf) w = Throw e ->
  Run (validate_args rest) w = (1%Z, with_error w (message e)).
Proof.
  intros Hh Hw Hs Hp He.
  rewrite (run_validate rest w Hh), (cmdValidateModels_spec rest w files Hw), Hs.
  rewrite (for_of_first_throw _ w pre mf post e
             (readonly_validate_model Date_parse _) Hp He).
  rewrite length_app. cbn [List.length].
  replace (Nat.ltb 0 (List.length pre + S (List.length post))) with true
    by (symmetry; apply Nat.ltb_lt; lia).
  reflexivity.
Qed.

(** A run that ends with status 0 has found model files and has passed
    every one of them. *)
Lemma run_validate_ok rest w files :
  no_help (validate_args rest) ->
  eval (walk (modelsDir rest)) w = Ret files ->
  fst (Run (validate_args rest) w) = 0%Z ->
  modelFiles files <> [] /\
  (forall mf, In mf (modelFiles files) ->
              eval (ValidateModel (versionFiles files) mf) w = Ret tt).
Proof.
  intros Hh Hw H0.
  rewrite (run_validate rest w Hh), (cmdValidateModels_spec rest w files Hw) in H0.
  destruct (Nat.ltb 0 (List.length (modelFiles files))) eqn:L; [|discriminate H0].
  split.
  - intros E. rewrite E in L. discriminate L.
  - apply for_of_all; [intros; apply readonly_validate_model|].
    destruct (eval (for_of (modelFiles files) (ValidateModel (versionFiles files))) w)
      as [[]|e|c] eqn:E; [reflexivity | discriminate H0 |].
    exfalso.
    exact (readonly_no_exit _ w c
             (readonly_for_of _ _ (readonly_validate_model Date_parse _)) E).
Qed.

(** The other way round. *)
Lemma run_validate_passes rest w files :
  no_help (validate_args rest) ->
  eval (walk (modelsDir rest)) w = Ret files ->
  modelFiles files <> [] ->
  (forall mf, In mf (modelFiles files) ->
              eval (ValidateModel (versionFiles files) mf) w = Ret tt) ->
  Run (validate_args rest) w =
  (0%Z, with_output w "OK: models registry validation passed.").
Proof.
  intros Hh Hw Hn Hall.
  rewrite (run_validate rest w Hh), (cmdValidateModels_spec rest w files Hw).
  destruct (modelFiles files) as [|mf0 mfs] eqn:E; [congruence|].
  cbn [List.length Nat.ltb Nat.leb].
  apply (for_of_all _ _ w (readonly_validate_model Date_parse _)) in Hall.
  rewrite Hall. reflexivity.
Qed.

(** ** The claims about [validate models] *)

(** C7.  When the walk of [<root>/models] yields no path that ends with
    [model.json], [validate models] ends at once with status 1 and the one
    line [no model.json entries found under models/] on the error stream:
    nothing else is printed and no file is parsed, whatever the files
    that were found hold. *)
Theorem C7_no_model_files rest w files :
  no_help (validate_args rest) ->
  eval (walk (modelsDir rest)) w = Ret files ->
  modelFiles files = [] ->
  Run (validate_args rest) w =
  (1%Z, with_error w "no model.json entries found under models/").
Proof.
  intros Hh Hw Hm.
  rewrite (run_validate rest w Hh), (cmdValidateModels_spec rest w files Hw), Hm.
  reflexivity.
Qed.

(** C3.  For every model file the modality segment is the component of the
    file's own path that follows its (first) [models] component.  A run
    that ends with status 0 has found that segment equal to the [modality]
    field of every model document; and a model file that is reached (the
    model files before it pass) and passes its six field checks, but whose
    segment differs from its [modality], ends the run with status 1 and
    the message [modality folder mismatch for <id>]. *)
Theorem C3_modality_folder rest w files :
  no_help (validate_args rest) ->
  eval (walk (modelsDir rest)) w = Ret files ->
  (forall mf pre x post,
     path_parts mf = pre ++ "models" :: x :: post -> ~ In "models" pre ->
     folderModality mf = Some x) /\
  (fst (Run (validate_args rest) w) = 0%Z ->
   forall mf, In mf (modelFiles files) ->
     exists m, eval (parseJson mf) w = Ret m /\
               option_map VStr (folderModality mf) = field m "modality") /\
  (forall pre mf post m,
     modelFiles files = pre ++ mf :: post ->
     (forall y, In y pre -> eval (ValidateModel (versionFiles files) y) w = Ret tt) ->
     eval (parseJson mf) w = Ret m ->
     field_checks Date_parse m = true ->
     option_map VStr (folderModality mf) <> field m "modality" ->
     Run (validate_args rest) w =
     (1%Z, with_error w ("modality folder mismatch for " ++ as_string (field m "id")))).
Proof.
  intros Hh Hw. split; [exact folderModality_after_models|]. split.
  - intros H0 mf Hmf.
    destruct (run_validate_ok rest w files Hh Hw H0) as [_ Hall].
    destruct (validate_model_ok Date_parse _ mf w (Hall mf Hmf))
      as (m & P & _ & Sm & _).
    exists m. split; [assumption|]. apply strict_eq_string. assumption.
  - intros pre mf post m Hs Hp P F Hne.
    apply (run_validate_throw rest w files pre mf post
             (Error ("modality folder mismatch for " ++ as_string (field m "id")))
             Hh Hw Hs Hp).
    rewrite (validate_model_after_fields Date_parse _ mf w m P F).
    destruct (strict_eq (option_map VStr (folderModality mf)) (field m "modality")) eqn:Sm;
      [|reflexivity].
    apply strict_eq_string in Sm. contradiction.
Qed.

(** *** Running twice *)

Lemma bind_assoc {A B C} (m : M A) (f : A -> M B) (g : B -> M C) w :
  bind (bind m f) g w = bind m (fun a => bind (f a) g) w.
Proof.
  unfold bind. destruct (m w) as [[a|e|c] w1]; reflexivity.
Qed.

(** The state [w] after the lines [out] and [err]. *)
Lemma cmdValidateModels_split rest :
  exists m : M unit,
    readonly m /\
    forall w, CmdValidateModels rest w =
              match eval m w with
              | Ret _ => (Ret 0%Z, with_output w "OK: models registry validation passed.")
              | Throw e => (Throw e, w)
              | Exit c => (Exit c, w)
              end.
Proof.
  exists (bind (path_arg (argValue rest "--root" (Some ".")))
            (fun root =>
               bind (walk (Path.join [root; "models"]))
                 (fun files =>
                    bind (assert (Nat.ltb 0 (List.length (modelFiles files)))
                                 "no model.json entries found under models/")
                      (fun _ => for_of (modelFiles files)
                                       (ValidateModel (versionFiles files)))))).
  split.
  - ro.
  - intros w.
    match goal with
    | |- _ = match eval ?m w with _ => _ end =>
        assert (R : readonly m) by ro;
        transitivity
          (bind m (fun _ => bind (console_log "OK: models registry validation passed.")
                                 (fun _ => ret 0%Z)) w)
    end.
    + unfold cmdValidateModels, modelFiles, versionFiles, bind.
      destruct (path_arg (argValue rest "--root" (Some ".")) w) as [[root|e|c] w1];
        try reflexivity.
      destruct (walk (Path.join [root; "models"]) w1) as [[files|e|c] w2];
        try reflexivity.
      destruct (assert _ _ w2) as [[[]|e|c] w3]; reflexivity.
    + rewrite (bind_readonly _ _ w R).
      destruct (eval _ w); reflexivity.
Qed.

Lemma run_validate_pair rest w w' :
  fs w' = fs w ->
  exists code out err,
    Run (validate_args rest) w =
      (code, World (fs w) (stdout w ++ out) (stderr w ++ err) (clock w)) /\
    Run (validate_args rest) w' =
      (code, World (fs w') (stdout w' ++ out) (stderr w' ++ err) (clock w')).
Proof.
  intros F.
  destruct (hasFlag (validate_args rest) "--help") eqn:H1;
    [| destruct (hasFlag (validate_args rest) "-h") eqn:H2].
  - exists 0%Z, [help], [].
    unfold run, program, try_catch, main. rewrite H1, !orb_true_r.
    cbn. rewrite !app_nil_r. auto.
  - exists 0%Z, [help], [].
    unfold run, program, try_catch, main. rewrite H2, !orb_true_r.
    cbn. rewrite !app_nil_r. auto.
  - rewrite !(run_validate rest _ (conj H1 H2)).
    destruct (cmdValidateModels_split rest) as (m & R & E).
    rewrite !E, (readonly_same_fs m w w' R F).
    destruct (eval m w) as [[]|e|c] eqn:Em.
    + exists 0%Z, ["OK: models registry validation passed."], [].
      unfold with_output. rewrite !app_nil_r. auto.
    + exists 1%Z, [], [message e].
      unfold with_error. cbn. rewrite !app_nil_r. auto.
    + exfalso. exact (readonly_no_exit m w c R Em).
Qed.

(** C8.  Two runs of [validate models] with the same arguments, the second
    started in the state the first one left: the first run leaves the
    file tree as it found it, and the second ends with the same status
    after printing the same lines on both streams. *)
Theorem C8_validation_repeatable rest w :
  let first := Run (validate_args rest) w in
  let second := Run (validate_args rest) (snd first) in
  fs (snd first) = fs w /\
  fst second = fst first /\
  exists out err,
    stdout (snd first) = stdout w ++ out /\
    stderr (snd first) = stderr w ++ err /\
    stdout (snd second) = stdout (snd first) ++ out /\
    stderr (snd second) = stderr (snd first) ++ err.
Proof.
  intros first second. subst first second.
  destruct (run_validate_pair rest w w eq_refl) as (c & out & err & E & _).
  rewrite E. cbn [fst snd fs].
  destruct (run_validate_pair rest w
              (World (fs w) (stdout w ++ out) (stderr w ++ err) (clock w)) eq_refl)
    as (c' & out' & err' & E1 & E2).
  rewrite E in E1. inversion E1 as [[Hc Ho He]].
  apply app_inv_head in Ho, He. subst c' out' err'.
  rewrite E2. cbn [fst snd fs stdout stderr].
  split; [reflexivity|]. split; [reflexivity|].
  exists out, err. auto.
Qed.

(** ** The dispatcher *)

(** C10.  With no argument at all, or with [--help] or [-h] anywhere among
    the arguments, the tool prints the usage text and ends with status 0:
    nothing else is printed and the file tree is left alone, whatever
    command name and flags stand beside, and whatever the handlers do. *)
Theorem C10_help_first args w :
  args = [] \/ hasFlag args "--help" = true \/ hasFlag args "-h" = true ->
  Run args w = (0%Z, with_output w help).
Proof.
  intros H. unfold run, program, try_catch, main.
  replace (Nat.eqb (List.length args) 0 || hasFlag args "--help" || hasFlag args "-h")
    with true; [reflexivity|].
  symmetry. destruct H as [-> | [H | H]].
  - reflexivity.
  - rewrite H. rewrite orb_true_r. reflexivity.
  - rewrite H. apply orb_true_r.
Qed.

End Run.

(** ** The claims on the example registries *)

Lemma C7_no_model_files_witness :
  no_help (validate_args []) /\
  eval (walk (modelsDir [])) world_no_models = Ret ["models/README.md"] /\
  modelFiles ["models/README.md"] = [] /\
  run Date_parse_example cmd_example cmd_example (validate_args []) world_no_models =
  (1%Z, with_error world_no_models "no model.json entries found under models/").
Proof.
  assert (Hh : no_help (validate_args [])) by (split; reflexivity).
  assert (Hw : eval (walk (modelsDir [])) world_no_models = Ret ["models/README.md"])
    by (vm_compute; reflexivity).
  assert (Hm : modelFiles ["models/README.md"] = []) by (vm_compute; reflexivity).
  split; [exact Hh|]. split; [exact Hw|]. split; [exact Hm|].
  exact (C7_no_model_files Date_parse_example cmd_example cmd_example
           [] world_no_models ["models/README.md"] Hh Hw Hm).
Defined.

Lemma C3_modality_folder_witness :
  (folderModality "models/vision/bar/model.json" = Some "vision" /\
   field (example_model "org/bar" "text" "1.0.0") "modality" = Some (VStr "text") /\
   run Date_parse_example cmd_example cmd_example (validate_args []) world_vision_text =
   (1%Z, with_error world_vision_text "modality folder mismatch for org/bar")) /\
  (fst (run Date_parse_example cmd_example cmd_example (validate_args []) world_valid)
     = 0%Z /\
   forall mf, In mf (modelFiles ["models/text/foo/model.json";
                                 "models/text/foo/PERFORMANCE.md";
                                 "models/text/foo/versions/1.0.0.json"]) ->
     exists m, eval (parseJson mf) world_valid = Ret m /\
               option_map VStr (folderModality mf) = field m "modality").
Proof.
  split.
  - split; [vm_compute; reflexivity|]. split; [vm_compute; reflexivity|].
    refine (proj2 (proj2 (C3_modality_folder Date_parse_example cmd_example cmd_example
                     [] world_vision_text
                     ["models/vision/bar/model.json";
                      "models/vision/bar/PERFORMANCE.md";
                      "models/vision/bar/versions/1.0.0.json"] _ _))
                  [] "models/vision/bar/model.json" []
                  (example_model "org/bar" "text" "1.0.0") _ _ _ _ _).
    + split; reflexivity.
    + vm_compute; reflexivity.
    + vm_compute; reflexivity.
    + intros y [].
    + vm_compute; reflexivity.
    + vm_compute; reflexivity.
    + vm_compute. discriminate.
  - assert (H0 : fst (run Date_parse_example cmd_example cmd_example
                        (validate_args []) world_valid) = 0%Z)
      by (vm_compute; reflexivity).
    split; [exact H0|].
    refine (proj1 (proj2 (C3_modality_folder Date_parse_example cmd_example cmd_example
                     [] world_valid
                     ["models/text/foo/model.json";
                      "models/text/foo/PERFORMANCE.md";
                      "models/text/foo/versions/1.0.0.json"] _ _)) H0).
    + split; reflexivity.
    + vm_compute; reflexivity.
Defined.

Lemma C10_help_first_witness :
  hasFlag ["validate"; "models"; "--root"; "registry"; "-h"] "-h" = true /\
  run Date_parse_example cmd_example cmd_example
      ["validate"; "models"; "--root"; "registry"; "-h"] world_valid =
  (0%Z, with_output world_valid help).
Proof.
  split; [reflexivity|].
  apply (C10_help_first Date_parse_example cmd_example cmd_example).
  right. right. reflexivity.
Defined.

(** ** The JSON document loader *)

(** C1, as the program has it.  The loader returns the parsed value when
    the file can be read and its text parses.  In every other case, when
    reading the file fails as well as when the text does not parse, it
    fails with the one error [invalid_json: <path>], which carries the
    offending path; an error of the file system is not propagated.  The
    state is left as it was. *)
Theorem C1_loader_errors path w :
  parseJson path w =
  (match eval (Fs.readFileSync path) w with
   | Ret (Json v) => Ret v
   | _ => Throw (Error ("invalid_json: " ++ path))
   end, w).
Proof.
  destruct (eval (Fs.readFileSync path) w) as [[s|v]|e|c] eqn:E;
    rewrite (parseJson_run path w), E; reflexivity.
Qed.

(** C1 as stated fails: reading a file that does not exist raises the
    file system's [ENOENT], and the loader turns it into [invalid_json]. *)
Lemma C1_read_failure_is_replaced :
  eval (Fs.readFileSync "models/text/foo/model.json") world_empty
    = Throw (FsError ENOENT "open" "models/text/foo/model.json") /\
  eval (parseJson "models/text/foo/model.json") world_empty
    = Throw (Error "invalid_json: models/text/foo/model.json") /\
  Error "invalid_json: models/text/foo/model.json"
    <> FsError ENOENT "open" "models/text/foo/model.json".
Proof.
  split; [reflexivity|]. split; [reflexivity | discriminate].
Qed.

(** ** Strings and paths made of plain components *)

Lemma length_append (a b : string) :
  String.length (a ++ b) = String.length a + String.length b.
Proof. induction a; simpl; congruence. Qed.

Lemma rev_onto_append s : forall acc, Str.rev_onto s acc = (Str.rev s ++ acc)%string.
Proof.
  unfold Str.rev. induction s as [|c s IH]; intros acc; simpl.
  - reflexivity.
  - rewrite (IH (String c acc)), (IH (String c EmptyString)).
    rewrite append_assoc. reflexivity.
Qed.

Lemma rev_cons c s : Str.rev (String c s) = (Str.rev s ++ String c EmptyString)%string.
Proof. unfold Str.rev at 1. simpl. apply rev_onto_append. Qed.

Lemma rev_append a b : Str.rev (a ++ b) = (Str.rev b ++ Str.rev a)%string.
Proof.
  induction a as [|c a IH]; simpl.
  - rewrite append_nil_r. reflexivity.
  - rewrite !rev_cons, IH, append_assoc. reflexivity.
Qed.

Lemma rev_involutive s : Str.rev (Str.rev s) = s.
Proof.
  induction s as [|c s IH]; [reflexivity|].
  rewrite rev_cons, rev_append, IH. reflexivity.
Qed.

Lemma length_rev s : String.length (Str.rev s) = String.length s.
Proof.
  induction s as [|c s IH]; [reflexivity|].
  rewrite rev_cons, length_append, IH. simpl. lia.
Qed.

Lemma startsWith_append p s : Str.startsWith (p ++ s) p = true.
Proof.
  induction p as [|c p IH]; simpl; [destruct s; reflexivity|].
  rewrite Ascii.eqb_refl. assumption.
Qed.

Lemma startsWith_common a b c :
  Str.startsWith (a ++ b) (a ++ c) = Str.startsWith b c.
Proof.
  induction a as [|x a IH]; simpl; [reflexivity|].
  rewrite Ascii.eqb_refl. assumption.
Qed.

Lemma startsWith_long p : forall a b,
  String.length p <= String.length a ->
  Str.startsWith (a ++ b) p = Str.startsWith a p.
Proof.
  induction p as [|c p IH]; intros a b L.
  - destruct a; destruct b; reflexivity.
  - destruct a as [|x a]; simpl in *; [lia|].
    rewrite IH by lia. reflexivity.
Qed.

Lemma endsWith_append a b : Str.endsWith (a ++ b) b = true.
Proof. unfold Str.endsWith. rewrite rev_append. apply startsWith_append. Qed.

Lemma endsWith_long a b p :
  String.length p <= String.length b ->
  Str.endsWith (a ++ b) p = Str.endsWith b p.
Proof.
  intros L. unfold Str.endsWith. rewrite rev_append.
  apply startsWith_long. rewrite !length_rev. assumption.
Qed.

Lemma all_append f a b : Str.all f (a ++ b) = Str.all f a && Str.all f b.
Proof.
  induction a as [|c a IH]; simpl; [reflexivity|].
  rewrite IH, andb_assoc. reflexivity.
Qed.

Lemma all_weaken (f g : ascii -> bool) s :
  (forall c, f c = true -> g c = true) -> Str.all f s = true -> Str.all g s = true.
Proof.
  intros W. induction s as [|c s IH]; simpl; [reflexivity|].
  intros H. apply andb_true_iff in H as [H1 H2].
  rewrite (W c H1), IH by assumption. reflexivity.
Qed.

Lemma map_append f a b : Str.map f (a ++ b) = (Str.map f a ++ Str.map f b)%string.
Proof. induction a; simpl; congruence. Qed.

Lemma map_fixed f s :
  Str.all (fun c => Ascii.eqb (f c) c) s = true -> Str.map f s = s.
Proof.
  induction s as [|c s IH]; simpl; [reflexivity|].
  intros H. apply andb_true_iff in H as [H1 H2].
  apply Ascii.eqb_eq in H1. rewrite H1, IH by assumption. reflexivity.
Qed.

Lemma substring_prefix a b : substring 0 (String.length a) (a ++ b) = a.
Proof.
  induction a as [|c a IH]; simpl.
  - destruct b; reflexivity.
  - rewrite IH. reflexivity.
Qed.

Lemma drop_last_append a b : Str.drop_last (String.length b) (a ++ b) = a.
Proof.
  unfold Str.drop_last. rewrite length_append.
  replace (String.length a + String.length b - String.length b) with (String.length a)
    by lia.
  apply substring_prefix.
Qed.

Lemma replace_suffix_append suffix by_ a :
  Str.replace_suffix suffix by_ (a ++ suffix) = (a ++ by_)%string.
Proof.
  unfold Str.replace_suffix. rewrite endsWith_append, drop_last_append. reflexivity.
Qed.

Lemma includes_append a b p :
  Str.includes b p = true -> Str.includes (a ++ b) p = true.
Proof.
  intros H. induction a as [|c a IH]; simpl; [assumption|].
  rewrite IH. apply orb_true_r.
Qed.

Lemma includes_startsWith s p : Str.startsWith s p = true -> Str.includes s p = true.
Proof. destruct s; simpl; intros ->; reflexivity. Qed.

Lemma includes_prefix p s : Str.includes (p ++ s) p = true.
Proof. apply includes_startsWith, startsWith_append. Qed.

(** *** Splitting *)

Lemma split_nonempty sep s : Str.split sep s <> [].
Proof.
  induction s as [|c s IH]; simpl; [discriminate|].
  destruct (sep c); [discriminate|].
  destruct (Str.split sep s); [congruence | discriminate].
Qed.

Lemma split_none sep s :
  Str.all (fun c => negb (sep c)) s = true -> Str.split sep s = [s].
Proof.
  induction s as [|c s IH]; simpl; [reflexivity|].
  intros H. apply andb_true_iff in H as [H1 H2].
  apply negb_true_iff in H1. rewrite H1, (IH H2). reflexivity.
Qed.

Lemma split_at sep a c b :
  sep c = true ->
  Str.all (fun x => negb (sep x)) a = true ->
  Str.split sep (a ++ String c b) = a :: Str.split sep b.
Proof.
  intros Hc. induction a as [|x a IH]; simpl; intros H.
  - rewrite Hc. reflexivity.
  - apply andb_true_iff in H as [H1 H2].
    apply negb_true_iff in H1. rewrite H1, (IH H2). reflexivity.
Qed.

Lemma split_path_of sep segs :
  sep "/"%char = true ->
  segs <> [] ->
  Forall (fun s => Str.all (fun x => negb (sep x)) s = true) segs ->
  Str.split sep (path_of segs) = segs.
Proof.
  intros Hs N F. induction F as [|s segs Hs1 F IH]; [congruence|].
  destruct segs as [|s2 segs].
  - simpl. apply split_none. assumption.
  - change (path_of (s :: s2 :: segs)) with (s ++ String "/" (path_of (s2 :: segs)))%string.
    rewrite (split_at sep s "/" _ Hs Hs1), IH by discriminate. reflexivity.
Qed.

(** *** Plain components *)

Lemma plain_segment_facts s :
  plain_segment s = true ->
  Str.is_empty s = false /\
  Str.all (fun c => negb (Path.is_slash c)) s = true /\
  Str.all (fun c => negb (is_backslash c)) s = true /\
  no_separator s = true /\
  String.eqb s EmptyString = false /\
  String.eqb s "." = false /\
  String.eqb s ".." = false.
Proof.
  unfold plain_segment. intros H.
  repeat (apply andb_true_iff in H; destruct H as [H ?]).
  repeat match goal with X : negb _ = true |- _ => apply negb_true_iff in X end.
  repeat split; try assumption.
  - eapply all_weaken; [|eassumption]. intros c Hc. simpl in Hc.
    apply negb_true_iff in Hc. apply orb_false_iff in Hc as [_ Hc]. rewrite Hc. reflexivity.
  - eapply all_weaken; [|eassumption]. intros c Hc. simpl in Hc.
    apply negb_true_iff in Hc. apply orb_false_iff in Hc as [Hc _]. rewrite Hc. reflexivity.
  - destruct s; [discriminate | reflexivity].
Qed.

Lemma all_rev f s : Str.all f s = true -> Str.all f (Str.rev s) = true.
Proof.
  induction s as [|c s IH]; [reflexivity|]. simpl. intros H.
  apply andb_true_iff in H as [H1 H2].
  rewrite rev_cons, all_append, (IH H2). simpl. rewrite H1. reflexivity.
Qed.

Lemma rev_not_empty s : Str.is_empty s = false -> Str.is_empty (Str.rev s) = false.
Proof.
  destruct s as [|c s]; [discriminate|]. intros _.
  pose proof (length_rev (String c s)) as L.
  destruct (Str.rev (String c s)); [discriminate L | reflexivity].
Qed.

Lemma endsWith_slash_free s :
  Str.is_empty s = false ->
  Str.all (fun c => negb (Path.is_slash c)) s = true ->
  Str.endsWith s "/" = false.
Proof.
  intros N A. unfold Str.endsWith.
  apply rev_not_empty in N. apply all_rev in A.
  destruct (Str.rev s) as [|c r]; [discriminate N|].
  simpl in A. apply andb_true_iff in A as [A _]. apply negb_true_iff in A.
  unfold Path.is_slash in A. change (Str.rev "/") with "/"%string.
  cbn [Str.startsWith]. rewrite Ascii.eqb_sym, A. reflexivity.
Qed.

Lemma startsWith_slash_free s :
  Str.all (fun c => negb (Path.is_slash c)) s = true ->
  Str.startsWith s "/" = false.
Proof.
  destruct s as [|c s]; [reflexivity|]. cbn [Str.all Str.startsWith]. intros A.
  apply andb_true_iff in A as [A _]. apply negb_true_iff in A.
  unfold Path.is_slash in A. rewrite Ascii.eqb_sym, A. reflexivity.
Qed.

Lemma path_of_cons s segs :
  segs <> [] -> path_of (s :: segs) = (s ++ "/" ++ path_of segs)%string.
Proof. destruct segs; [congruence | reflexivity]. Qed.

Lemma path_of_app a b :
  a <> [] -> b <> [] -> path_of (a ++ b) = (path_of a ++ "/" ++ path_of b)%string.
Proof.
  intros Na Nb. induction a as [|s a IH]; [congruence|].
  destruct a as [|s2 a].
  - simpl app. apply path_of_cons. assumption.
  - change ((s :: s2 :: a) ++ b) with (s :: ((s2 :: a) ++ b)).
    rewrite path_of_cons by discriminate.
    rewrite IH by discriminate.
    rewrite (path_of_cons s (s2 :: a)) by discriminate.
    rewrite !append_assoc. reflexivity.
Qed.

Lemma path_of_not_empty segs :
  segs <> [] -> Forall (fun s => plain_segment s = true) segs ->
  Str.is_empty (path_of segs) = false.
Proof.
  intros N F. destruct F as [|s segs Hs F]; [congruence|].
  apply plain_segment_facts in Hs as (E & _).
  destruct segs; simpl; destruct s; try discriminate; reflexivity.
Qed.

Lemma path_of_startsWith_slash segs :
  segs <> [] -> Forall (fun s => plain_segment s = true) segs ->
  Str.startsWith (path_of segs) "/" = false.
Proof.
  intros N F. destruct F as [|s segs Hs F]; [congruence|].
  apply plain_segment_facts in Hs as (E & A & _).
  destruct s as [|c s]; [discriminate|].
  cbn [Str.all] in A. apply andb_true_iff in A as [A _]. apply negb_true_iff in A.
  unfold Path.is_slash in A.
  destruct segs; cbn [path_of Str.concat_with append Str.startsWith];
    rewrite Ascii.eqb_sym, A; reflexivity.
Qed.

Lemma path_of_endsWith_slash segs :
  segs <> [] -> Forall (fun s => plain_segment s = true) segs ->
  Str.endsWith (path_of segs) "/" = false.
Proof.
  intros N F. induction F as [|s segs Hs F IH]; [congruence|].
  pose proof (plain_segment_facts s Hs) as (E & A & _).
  destruct segs as [|s2 segs].
  - simpl. apply endsWith_slash_free; assumption.
  - rewrite path_of_cons by discriminate.
    change (s ++ "/" ++ path_of (s2 :: segs))%string
      with (s ++ String "/" (path_of (s2 :: segs)))%string.
    replace (s ++ String "/" (path_of (s2 :: segs)))%string
      with ((s ++ "/") ++ path_of (s2 :: segs))%string
      by (rewrite append_assoc; reflexivity).
    rewrite endsWith_long; [apply IH; discriminate|].
    pose proof (path_of_not_empty (s2 :: segs)) as P.
    destruct (path_of (s2 :: segs)); [|simpl; lia].
    discriminate P; [discriminate | assumption].
Qed.

Lemma plain_slash_free segs :
  Forall (fun s => plain_segment s = true) segs ->
  Forall (fun s => Str.all (fun x => negb (Path.is_slash x)) s = true) segs.
Proof.
  intros F. eapply Forall_impl; [|exact F].
  intros s Hs. apply plain_segment_facts in Hs. tauto.
Qed.

Lemma normalize_step_plain b acc s :
  plain_segment s = true -> Path.normalize_step b acc s = s :: acc.
Proof.
  intros H. apply plain_segment_facts in H as (_ & _ & _ & _ & E1 & E2 & E3).
  unfold Path.normalize_step. rewrite E1, E2, E3. reflexivity.
Qed.

Lemma normalize_fold_plain b segs : forall acc,
  Forall (fun s => plain_segment s = true) segs ->
  fold_left (Path.normalize_step b) segs acc = List.rev segs ++ acc.
Proof.
  induction segs as [|s segs IH]; intros acc F; [reflexivity|].
  inversion F; subst. simpl.
  rewrite normalize_step_plain by assumption.
  rewrite IH by assumption. rewrite <- app_assoc. reflexivity.
Qed.

Lemma normalize_parts_plain b segs :
  Forall (fun s => plain_segment s = true) segs ->
  Path.normalize_parts b segs = segs.
Proof.
  intros F. unfold Path.normalize_parts.
  rewrite normalize_fold_plain by assumption.
  rewrite app_nil_r. apply List.rev_involutive.
Qed.

Lemma normalize_path_of segs :
  segs <> [] -> Forall (fun s => plain_segment s = true) segs ->
  Path.normalize (path_of segs) = path_of segs.
Proof.
  intros N F. unfold Path.normalize.
  rewrite (path_of_not_empty segs N F).
  rewrite (path_of_startsWith_slash segs N F), (path_of_endsWith_slash segs N F).
  rewrite (split_path_of Path.is_slash segs eq_refl N (plain_slash_free segs F)).
  rewrite (normalize_parts_plain false segs F).
  fold (path_of segs). rewrite (path_of_not_empty segs N F).
  simpl. apply append_nil_r.
Qed.

Lemma normalize_dot_path_of segs :
  segs <> [] -> Forall (fun s => plain_segment s = true) segs ->
  Path.normalize (path_of ("." :: segs)) = path_of segs.
Proof.
  intros N F. rewrite path_of_cons by assumption.
  unfold Path.normalize.
  change (Str.is_empty ("." ++ "/" ++ path_of segs)) with false.
  change (Str.startsWith ("." ++ "/" ++ path_of segs) "/") with false.
  replace (Str.endsWith ("." ++ "/" ++ path_of segs) "/") with false.
  2:{ symmetry. change ("." ++ "/" ++ path_of segs)%string with ("./" ++ path_of segs)%string.
      rewrite endsWith_long; [apply path_of_endsWith_slash; assumption|].
      pose proof (path_of_not_empty segs N F) as P.
      destruct (path_of segs); [discriminate P | simpl; lia]. }
  change ("." ++ "/" ++ path_of segs)%string with ("." ++ String "/" (path_of segs))%string.
  rewrite (split_at Path.is_slash "." "/" _ eq_refl eq_refl).
  rewrite (split_path_of Path.is_slash segs eq_refl N (plain_slash_free segs F)).
  unfold Path.normalize_parts. cbn [fold_left].
  change (Path.normalize_step false [] ".") with (@nil string).
  fold (Path.normalize_parts false segs).
  rewrite (normalize_parts_plain false segs F).
  fold (path_of segs). rewrite (path_of_not_empty segs N F).
  simpl. apply append_nil_r.
Qed.

(** *** [path.join], [path.dirname] and path resolution on plain components *)

Lemma Forall_plain_app a b :
  Forall (fun s => plain_segment s = true) a ->
  Forall (fun s => plain_segment s = true) b ->
  Forall (fun s => plain_segment s = true) (a ++ b).
Proof. intros; apply Forall_app; auto. Qed.

Lemma plain_not_empty x : plain_segment x = true -> Str.is_empty x = false.
Proof. intros H. apply plain_segment_facts in H. tauto. Qed.

Lemma join_two sa x :
  sa <> [] -> Forall (fun s => plain_segment s = true) sa ->
  plain_segment x = true ->
  Path.join [path_of sa; x] = path_of (sa ++ [x]).
Proof.
  intros N F Hx. unfold Path.join. cbn [filter].
  rewrite (path_of_not_empty sa N F), (plain_not_empty x Hx). cbn [negb].
  change (Str.concat_with "/" [path_of sa; x])
    with (path_of sa ++ "/" ++ path_of [x])%string.
  rewrite <- path_of_app by (assumption || discriminate).
  apply normalize_path_of.
  - destruct sa; [congruence | discriminate].
  - apply Forall_plain_app; [assumption | repeat constructor; assumption].
Qed.

Lemma join_three sa x y :
  sa <> [] -> Forall (fun s => plain_segment s = true) sa ->
  plain_segment x = true -> plain_segment y = true ->
  Path.join [path_of sa; x; y] = path_of (sa ++ [x; y]).
Proof.
  intros N F Hx Hy. unfold Path.join. cbn [filter].
  rewrite (path_of_not_empty sa N F), (plain_not_empty x Hx), (plain_not_empty y Hy).
  cbn [negb].
  change (Str.concat_with "/" [path_of sa; x; y])
    with (path_of sa ++ "/" ++ path_of [x; y])%string.
  rewrite <- path_of_app by (assumption || discriminate).
  apply normalize_path_of.
  - destruct sa; [congruence | discriminate].
  - apply Forall_plain_app; [assumption | repeat constructor; assumption].
Qed.

Lemma join_from_dot x y z :
  plain_segment x = true -> plain_segment y = true -> plain_segment z = true ->
  Path.join ["."; x; y; z] = path_of [x; y; z].
Proof.
  intros Hx Hy Hz. unfold Path.join. cbn [filter Str.is_empty negb].
  rewrite (plain_not_empty x Hx), (plain_not_empty y Hy), (plain_not_empty z Hz).
  cbn [negb].
  apply (normalize_dot_path_of [x; y; z]); [discriminate|].
  repeat constructor; assumption.
Qed.

Lemma drop_while_keep f s :
  match s with EmptyString => True | String c _ => f c = false end ->
  Path.drop_while f s = s.
Proof. destruct s as [|c s]; simpl; [reflexivity|]. intros ->. reflexivity. Qed.

Lemma drop_while_all f a c b :
  Str.all f a = true -> f c = false ->
  Path.drop_while f (a ++ String c b) = String c b.
Proof.
  intros A Hc. induction a as [|x a IH]; simpl.
  - rewrite Hc. reflexivity.
  - simpl in A. apply andb_true_iff in A as [A1 A2]. rewrite A1. auto.
Qed.

Lemma dirname_path_of segs x :
  segs <> [] -> Forall (fun s => plain_segment s = true) segs ->
  plain_segment x = true ->
  Path.dirname (path_of (segs ++ [x])) = path_of segs.
Proof.
  intros N F Hx.
  rewrite path_of_app by (assumption || discriminate).
  pose proof (path_of_not_empty segs N F) as NE.
  pose proof (path_of_startsWith_slash segs N F) as NS.
  destruct (path_of segs) as [|c0 d]; [discriminate NE|].
  cbn [Str.startsWith] in NS.
  assert (R0 : Path.is_slash c0 = false).
  { unfold Path.is_slash. rewrite Ascii.eqb_sym.
    destruct (Ascii.eqb "/" c0); [|reflexivity].
    destruct d; discriminate NS. }
  pose proof (plain_segment_facts x Hx) as (Ex & Ax & _).
  change (String c0 d ++ "/" ++ path_of [x])%string
    with (String c0 (d ++ String "/" x))%string.
  unfold Path.dirname. rewrite R0.
  rewrite rev_append, rev_cons.
  rewrite append_assoc.
  change (String "/" EmptyString ++ Str.rev d)%string with (String "/" (Str.rev d)).
  assert (Ar : Str.all (fun c => negb (Path.is_slash c)) (Str.rev x) = true)
    by (apply all_rev; assumption).
  assert (Er : Str.is_empty (Str.rev x) = false) by (apply rev_not_empty; assumption).
  rewrite (drop_while_keep Path.is_slash).
  2:{ destruct (Str.rev x) as [|y r]; [discriminate Er|].
      cbn [Str.all] in Ar. apply andb_true_iff in Ar as [Ar _].
      apply negb_true_iff in Ar. exact Ar. }
  rewrite all_append, Ar. cbn [Str.all andb].
  change (Path.is_slash "/") with true. cbn [negb andb].
  rewrite (drop_while_all (fun c => negb (Path.is_slash c)) (Str.rev x) "/" (Str.rev d) Ar)
    by reflexivity.
  destruct (Str.rev d) as [|a r] eqn:Ed.
  - assert (d = EmptyString).
    { rewrite <- (rev_involutive d), Ed. reflexivity. }
    subst d. reflexivity.
  - rewrite <- Ed, rev_involutive. reflexivity.
Qed.

Lemma components_path_of segs :
  segs <> [] -> Forall (fun s => plain_segment s = true) segs ->
  Fs.components (path_of segs) = segs.
Proof.
  intros N F. unfold Fs.components.
  rewrite (split_path_of Path.is_slash segs eq_refl N (plain_slash_free segs F)).
  apply normalize_parts_plain. assumption.
Qed.

Lemma resolve_from_plain segs : forall anc t,
  Forall (fun s => plain_segment s = true) segs ->
  Fs.resolve_from anc t segs = descend segs t.
Proof.
  induction segs as [|c segs IH]; intros anc t F; [reflexivity|].
  inversion F as [|? ? Hc F']; subst.
  apply plain_segment_facts in Hc as (_ & _ & _ & _ & E1 & E2 & E3).
  cbn [Fs.resolve_from descend]. destruct t as [f|es]; [reflexivity|].
  rewrite E1, E2, E3. cbn [orb].
  destruct (assoc c es); [apply IH; assumption | reflexivity].
Qed.

Lemma resolve_path_of t segs :
  segs <> [] -> Forall (fun s => plain_segment s = true) segs ->
  Fs.resolve t (path_of segs) = descend segs t.
Proof.
  intros N F. unfold Fs.resolve.
  rewrite (path_of_not_empty segs N F).
  rewrite (split_path_of Path.is_slash segs eq_refl N (plain_slash_free segs F)).
  apply resolve_from_plain. assumption.
Qed.

(** *** What a SemVer string cannot hold *)

Lemma ident_is_semver_char c : is_ident_char c = true -> is_semver_char c = true.
Proof. unfold is_semver_char. intros ->. reflexivity. Qed.

Lemma digit_is_semver_char c : Str.is_digit c = true -> is_semver_char c = true.
Proof. unfold is_semver_char, is_ident_char. intros ->. reflexivity. Qed.

Lemma semver_char_no_separator c :
  is_semver_char c = true -> negb (is_backslash c || Path.is_slash c) = true.
Proof.
  destruct c as [[] [] [] [] [] [] [] []]; vm_compute; intros H;
    first [reflexivity | discriminate H].
Qed.

Lemma semver_chars s : semver_form s -> Str.all is_semver_char s = true.
Proof.
  intros (major & minor & patch & pre & build & -> & [_ A1] & [_ A2] & [_ A3] & Hp & Hb).
  assert (P : Str.all is_semver_char pre = true).
  { destruct Hp as [-> | (p & -> & _ & A)]; [reflexivity|].
    simpl. apply (all_weaken _ _ _ ident_is_semver_char A). }
  assert (B : Str.all is_semver_char build = true).
  { destruct Hb as [-> | (b & -> & _ & A)]; [reflexivity|].
    simpl. apply (all_weaken _ _ _ ident_is_semver_char A). }
  apply (all_weaken _ _ _ digit_is_semver_char) in A1, A2, A3.
  rewrite !all_append, A1, A2, A3, P, B. reflexivity.
Qed.

Lemma semver_length s : semver_form s -> 5 <= String.length s.
Proof.
  intros (major & minor & patch & pre & build & -> & [N1 _] & [N2 _] & [N3 _] & _).
  rewrite !length_append.
  destruct major; [congruence|]. destruct minor; [congruence|].
  destruct patch; [congruence|]. simpl. lia.
Qed.

Lemma semver_no_separator v : test SEMVER_RE v = true -> no_separator v = true.
Proof.
  intros H. apply SEMVER_RE_lang, semver_chars in H.
  apply (all_weaken _ _ _ semver_char_no_separator H).
Qed.

Lemma semver_file_plain v :
  test SEMVER_RE v = true -> plain_segment (v ++ ".json") = true.
Proof.
  intros H. pose proof (semver_no_separator v H) as Sv.
  apply SEMVER_RE_lang, semver_length in H.
  assert (E1 : String.eqb (v ++ ".json") "." = false).
  { apply String.eqb_neq. intros E. apply (f_equal String.length) in E.
    rewrite length_append in E. simpl in E. lia. }
  assert (E2 : String.eqb (v ++ ".json") ".." = false).
  { apply String.eqb_neq. intros E. apply (f_equal String.length) in E.
    rewrite length_append in E. simpl in E. lia. }
  unfold plain_segment, no_separator in *.
  rewrite all_append, Sv, E1, E2.
  destruct v; reflexivity.
Qed.

(** *** Directory chains *)

Lemma descend_nest segs : forall rest n,
  descend (segs ++ rest) (nest segs n) = descend rest n.
Proof.
  induction segs as [|s segs IH]; intros rest n; [reflexivity|].
  simpl. rewrite String.eqb_refl. apply IH.
Qed.

Lemma mkdirp_fresh segs : Fs.mkdirp segs (Dir []) = Some (nest segs (Dir [])).
Proof.
  induction segs as [|s segs IH]; [reflexivity|].
  simpl. rewrite IH. reflexivity.
Qed.

Lemma mkdirp_nest segs : forall rest es,
  Fs.mkdirp (segs ++ rest) (nest segs (Dir es)) =
  option_map (nest segs) (Fs.mkdirp rest (Dir es)).
Proof.
  induction segs as [|s segs IH]; intros rest es.
  - simpl. destruct (Fs.mkdirp rest (Dir es)); reflexivity.
  - cbn [app nest fold_right Fs.mkdirp assoc]. rewrite String.eqb_refl.
    fold (nest segs (Dir es)).
    destruct segs as [|s2 segs].
    + cbn [nest fold_right app] in *. rewrite (IH rest es).
      destruct (Fs.mkdirp rest (Dir es)); cbn [option_map Fs.set_entry];
        [rewrite String.eqb_refl|]; reflexivity.
    + rewrite (IH rest es).
      destruct (Fs.mkdirp rest (Dir es)); cbn [option_map Fs.set_entry];
        [rewrite String.eqb_refl|]; reflexivity.
Qed.

Lemma put_file_step name y ys c es child :
  assoc name es = Some child ->
  Fs.put_file (name :: y :: ys) c (Dir es) =
  option_map (fun child' => Dir (Fs.set_entry name child' es))
             (Fs.put_file (y :: ys) c child).
Proof. intros H. cbn [Fs.put_file]. rewrite H. reflexivity. Qed.

Lemma put_file_nest segs c : forall rest es,
  rest <> [] ->
  Fs.put_file (segs ++ rest) c (nest segs (Dir es)) =
  option_map (nest segs) (Fs.put_file rest c (Dir es)).
Proof.
  induction segs as [|s segs IH]; intros rest es N.
  - simpl app. cbn [nest fold_right].
    destruct (Fs.put_file rest c (Dir es)); reflexivity.
  - assert (Hne : segs ++ rest <> []).
    { destruct segs; [assumption | discriminate]. }
    cbn [app nest fold_right]. fold (nest segs (Dir es)).
    destruct (segs ++ rest) as [|y ys] eqn:E; [congruence|].
    rewrite (put_file_step s y ys c _ (nest segs (Dir es)))
      by (cbn [assoc]; rewrite String.eqb_refl; reflexivity).
    rewrite <- E, (IH rest es N).
    destruct (Fs.put_file rest c (Dir es)); cbn [option_map Fs.set_entry];
      [rewrite String.eqb_refl|]; reflexivity.
Qed.

(** ** Scaffolding *)

Arguments path_of : simpl never.
Arguments nest : simpl never.
Arguments Path.join : simpl never.
Arguments Path.dirname : simpl never.

Lemma write_plain segs x c w t1 t2 :
  segs <> [] -> Forall (fun s => plain_segment s = true) segs ->
  plain_segment x = true ->
  Fs.mkdirp segs (fs w) = Some t1 ->
  Fs.put_file (segs ++ [x]) c t1 = Some t2 ->
  write (path_of (segs ++ [x])) c w =
  (Ret tt, World t2 (stdout w) (stderr w) (clock w)).
Proof.
  intros N F Hx H1 H2.
  unfold write, ensureDir, Fs.mkdirSync_recursive, Fs.writeFileSync, bind, get_fs, put_fs.
  rewrite (dirname_path_of segs x N F Hx).
  rewrite (components_path_of segs N F), H1. cbn [fs stdout stderr clock].
  rewrite (components_path_of (segs ++ [x])), H2.
  - reflexivity.
  - destruct segs; discriminate.
  - apply Forall_plain_app; [assumption | repeat constructor; assumption].
Qed.

Lemma write_fresh sa x c w :
  fs w = Dir [] ->
  Forall (fun s => plain_segment s = true) sa -> sa <> [] ->
  plain_segment x = true ->
  write (path_of (sa ++ [x])) c w =
  (Ret tt, World (nest sa (Dir [(x, File c)])) (stdout w) (stderr w) (clock w)).
Proof.
  intros Hfs F N Hx.
  apply (write_plain sa x c w (nest sa (Dir []))); try assumption.
  - rewrite Hfs. apply mkdirp_fresh.
  - rewrite put_file_nest by discriminate. reflexivity.
Qed.

Lemma write_into_nest sa x c w es es' :
  fs w = nest sa (Dir es) ->
  Forall (fun s => plain_segment s = true) sa -> sa <> [] ->
  plain_segment x = true ->
  Fs.put_file [x] c (Dir es) = Some (Dir es') ->
  write (path_of (sa ++ [x])) c w =
  (Ret tt, World (nest sa (Dir es')) (stdout w) (stderr w) (clock w)).
Proof.
  intros Hfs F N Hx Hp.
  apply (write_plain sa x c w (nest sa (Dir es))); try assumption.
  - rewrite Hfs. rewrite <- (app_nil_r sa) at 1.
    rewrite mkdirp_nest. reflexivity.
  - rewrite put_file_nest by discriminate. rewrite Hp. reflexivity.
Qed.

Lemma write_into_nest_sub sa d x c w es es1 es' :
  fs w = nest sa (Dir es) ->
  Forall (fun s => plain_segment s = true) sa -> sa <> [] ->
  plain_segment d = true -> plain_segment x = true ->
  Fs.mkdirp [d] (Dir es) = Some (Dir es1) ->
  Fs.put_file [d; x] c (Dir es1) = Some (Dir es') ->
  write (path_of (sa ++ [d; x])) c w =
  (Ret tt, World (nest sa (Dir es')) (stdout w) (stderr w) (clock w)).
Proof.
  intros Hfs F N Hd Hx Hm Hp.
  change (sa ++ [d; x]) with (sa ++ [d] ++ [x]). rewrite app_assoc.
  apply (write_plain (sa ++ [d]) x c w (nest sa (Dir es1))); try assumption.
  - destruct sa; discriminate.
  - apply Forall_plain_app; [assumption | repeat constructor; assumption].
  - rewrite Hfs, mkdirp_nest, Hm. reflexivity.
  - rewrite <- app_assoc. cbn [app].
    rewrite put_file_nest by discriminate. rewrite Hp. reflexivity.
Qed.

Lemma bind_run {A B} (m : M A) (k : A -> M B) w a w' :
  m w = (Ret a, w') -> bind m k w = k a w'.
Proof. intros H. unfold bind. rewrite H. reflexivity. Qed.

Lemma modality_plain m : In m modalities -> plain_segment m = true.
Proof.
  intros [<- | [<- | [<- | []]]]; reflexivity.
Qed.

Lemma modality_listed m :
  In m modalities -> existsb (String.eqb m) modalities = true.
Proof.
  intros H. apply existsb_exists. exists m. split; [assumption | apply String.eqb_refl].
Qed.

Lemma app_not_nil_r (a b : list string) : b <> [] -> a ++ b <> [].
Proof. intros N E. apply app_eq_nil in E as [_ E]. contradiction. Qed.

Lemma nest_app a b n : nest (a ++ b) n = nest a (nest b n).
Proof. unfold nest. apply fold_right_app. Qed.

Ltac plain_tac :=
  repeat first
    [ assumption | discriminate | reflexivity
    | apply app_not_nil_r | apply Forall_plain_app
    | apply Forall_cons | apply Forall_nil
    | apply semver_file_plain | apply modality_plain ].

Lemma filter_plain xs :
  Forall (fun s => plain_segment s = true) xs ->
  filter (fun a => negb (Str.is_empty a)) xs = xs.
Proof.
  intros F. induction F as [|x xs Hx F IH]; [reflexivity|].
  cbn [filter]. rewrite (plain_not_empty x Hx), IH. reflexivity.
Qed.

Lemma join_onto sa xs :
  sa <> [] -> Forall (fun s => plain_segment s = true) sa ->
  xs <> [] -> Forall (fun s => plain_segment s = true) xs ->
  Path.join (path_of sa :: xs) = path_of (sa ++ xs).
Proof.
  intros Na Fa Nx Fx. unfold Path.join. cbn [filter].
  rewrite (path_of_not_empty sa Na Fa), (filter_plain xs Fx). cbn [negb].
  change (Str.concat_with "/" (path_of sa :: xs)) with (path_of (path_of sa :: xs)).
  rewrite (path_of_cons (path_of sa) xs Nx), <- (path_of_app sa xs Na Nx).
  apply normalize_path_of; plain_tac.
Qed.

Lemma join_dot_onto xs :
  xs <> [] -> Forall (fun s => plain_segment s = true) xs ->
  Path.join ("." :: xs) = path_of xs.
Proof.
  intros Nx Fx. unfold Path.join. cbn [filter Str.is_empty negb].
  rewrite (filter_plain xs Fx).
  apply (normalize_dot_path_of xs Nx Fx).
Qed.

Lemma join_root root rs xs :
  root_at root rs ->
  xs <> [] -> Forall (fun s => plain_segment s = true) xs ->
  Path.join (root :: xs) = path_of (rs ++ xs).
Proof.
  intros [Fr [[-> ->] | [Nr ->]]] Nx Fx.
  - apply join_dot_onto; assumption.
  - apply join_onto; assumption.
Qed.

Lemma cmdInitModel_effect rest w root rs m slug id name v :
  fs w = Dir [] ->
  argValue rest "--root" (Some ".") = Some root -> root_at root rs ->
  argValue rest "--modality" None = Some m -> In m modalities ->
  argValue rest "--slug" None = Some slug -> plain_segment slug = true ->
  argValue rest "--id" None = Some id -> Str.is_empty id = false ->
  argValue rest "--name" (Some slug) = Some name ->
  argValue rest "--version" (Some "0.1.0") = Some v -> test SEMVER_RE v = true ->
  exists modelJson versionJson notes,
    cmdInitModel rest w =
    (Ret 0%Z,
     World (scaffolded_tree (rs ++ ["models"; m; slug]) v modelJson versionJson notes)
           (stdout w ++ [("Scaffolded: " ++ path_of (rs ++ ["models"; m; slug]))%string])
           (stderr w) (clock w)) /\
    field modelJson "id" = Some (VStr id) /\
    field modelJson "name" = Some (VStr name) /\
    field modelJson "modality" = Some (VStr m) /\
    (exists o, field modelJson "owner" = Some (VObj o)) /\
    field modelJson "createdAt" = Some (VStr (clock w)) /\
    field modelJson "version" = Some (VStr v) /\
    field versionJson "modelId" = Some (VStr id) /\
    field versionJson "version" = Some (VStr v) /\
    artifact_digest versionJson = Some (VStr zero_digest).
Proof.
  intros Hfs Hroot Hr Hm Hin Hslug Hsp Hid Hidn Hname Hv Hsv.
  pose proof (modality_plain m Hin) as Hmp.
  pose proof (semver_file_plain v Hsv) as Hvp.
  pose proof (proj1 Hr) as Frs.
  assert (Hvn : Str.is_empty v = false).
  { apply SEMVER_RE_lang, semver_length in Hsv. destruct v; [simpl in Hsv; lia | reflexivity]. }
  unfold cmdInitModel. cbv zeta.
  rewrite Hm, Hslug, Hid, Hv, Hroot.
  cbn [truthy_str defined].
  rewrite (plain_not_empty m Hmp), (plain_not_empty slug Hsp), Hidn, Hvn, Hsv.
  cbn [negb]. rewrite (modality_listed m Hin), Hname.
  rewrite (argValue_fallback rest "--owner"), (argValue_fallback rest "--owner-name").
  cbn [negb orb prop app when bind ret path_arg now_iso].
  assert (Fsa : Forall (fun s => plain_segment s = true) (rs ++ ["models"; m; slug]))
    by plain_tac.
  assert (Nsa : rs ++ ["models"; m; slug] <> []) by plain_tac.
  rewrite (join_root root rs ["models"; m; slug] Hr) by plain_tac.
  rewrite (join_two (rs ++ ["models"; m; slug]) "model.json") by plain_tac.
  rewrite (join_two (rs ++ ["models"; m; slug]) "PERFORMANCE.md") by plain_tac.
  rewrite (join_three (rs ++ ["models"; m; slug]) "versions" (v ++ ".json")) by plain_tac.
  do 3 eexists. split.
  - erewrite bind_run;
      [| apply (write_fresh (rs ++ ["models"; m; slug]) "model.json" _ w Hfs Fsa Nsa);
         reflexivity].
    erewrite bind_run;
      [| eapply (write_into_nest_sub (rs ++ ["models"; m; slug]) "versions" (v ++ ".json"));
         [ reflexivity | assumption | assumption | reflexivity | assumption
         | reflexivity | reflexivity ]].
    erewrite bind_run;
      [| eapply (write_into_nest (rs ++ ["models"; m; slug]) "PERFORMANCE.md");
         [ reflexivity | assumption | assumption | reflexivity | reflexivity ]].
    reflexivity.
  - cbn. repeat split; try reflexivity. eexists. reflexivity.
Qed.

(** ** Validating what was scaffolded *)

Lemma all_path_of g segs :
  g "/"%char = true ->
  Forall (fun s => Str.all g s = true) segs ->
  Str.all g (path_of segs) = true.
Proof.
  intros Hg F. induction F as [|s segs Hs F IH]; [reflexivity|].
  destruct segs as [|s2 segs]; [exact Hs|].
  rewrite path_of_cons by discriminate.
  rewrite !all_append, Hs, IH. cbn [Str.all]. rewrite Hg. reflexivity.
Qed.

Lemma to_slashes_path_of segs :
  Forall (fun s => plain_segment s = true) segs ->
  to_slashes (path_of segs) = path_of segs.
Proof.
  intros F. unfold to_slashes, Str.replace_char. apply map_fixed.
  apply all_path_of; [reflexivity|].
  eapply Forall_impl; [|exact F]. intros s Hs.
  apply plain_segment_facts in Hs as (_ & _ & B & _).
  eapply all_weaken; [|exact B]. intros c Hc. cbn beta in *.
  apply negb_true_iff in Hc. unfold is_backslash in Hc. rewrite Hc.
  apply Ascii.eqb_refl.
Qed.

Lemma split_parts_path_of segs :
  segs <> [] -> Forall (fun s => plain_segment s = true) segs ->
  path_parts (path_of segs) = segs.
Proof.
  intros N F. unfold path_parts. apply split_path_of; [reflexivity | assumption |].
  eapply Forall_impl; [|exact F]. intros s Hs.
  apply plain_segment_facts in Hs as (_ & _ & _ & S & _). exact S.
Qed.

Lemma path_of_last segs x :
  segs <> [] -> path_of (segs ++ [x]) = ((path_of segs ++ "/") ++ x)%string.
Proof.
  intros N. rewrite path_of_app by (assumption || discriminate).
  rewrite append_assoc. reflexivity.
Qed.

Lemma endsWith_json v : Str.endsWith (v ++ ".json") "model.json" = Str.endsWith v "model".
Proof.
  unfold Str.endsWith. rewrite rev_append.
  change (Str.rev ".json") with "nosj."%string.
  change (Str.rev "model.json") with ("nosj." ++ Str.rev "model")%string.
  apply startsWith_common.
Qed.

Section Scaffolded.

Variable sa : list string.
Variable v : string.
Hypothesis Hsa : Forall (fun s => plain_segment s = true) sa.
Hypothesis Hne : sa <> [].
Hypothesis Hv : test SEMVER_RE v = true.
Hypothesis Hnot_model : Str.endsWith v "model" = false.

Local Notation MF := (path_of (sa ++ ["model.json"])).
Local Notation VF := (path_of (sa ++ ["versions"; (v ++ ".json")%string])).
Local Notation PF := (path_of (sa ++ ["PERFORMANCE.md"])).

Lemma scaffold_version_length : 10 <= String.length (v ++ ".json").
Proof.
  pose proof Hv as H. apply SEMVER_RE_lang, semver_length in H.
  rewrite length_append. simpl. lia.
Qed.

Lemma scaffold_VF_form :
  VF = ((path_of sa ++ "/versions/") ++ (v ++ ".json"))%string.
Proof.
  rewrite path_of_app by plain_tac.
  change (path_of ["versions"; (v ++ ".json")%string])
    with ("versions" ++ "/" ++ (v ++ ".json"))%string.
  rewrite !append_assoc. reflexivity.
Qed.

Lemma scaffold_versionsDir : versionsDir MF = path_of (sa ++ ["versions"]).
Proof.
  unfold versionsDir. rewrite !path_of_last by assumption.
  apply replace_suffix_append.
Qed.

Lemma scaffold_perfPath : Str.replace_suffix "model.json" "PERFORMANCE.md" MF = PF.
Proof.
  rewrite !path_of_last by assumption. apply replace_suffix_append.
Qed.

Lemma scaffold_expectedFile : expectedFile MF v = VF.
Proof.
  unfold expectedFile. rewrite scaffold_versionsDir.
  rewrite join_two by plain_tac.
  rewrite <- app_assoc. cbn [app].
  apply to_slashes_path_of; plain_tac.
Qed.

Lemma scaffold_versionFromFile : versionFromFile VF = Some v.
Proof.
  unfold versionFromFile.
  rewrite (split_path_of Path.is_slash); [| reflexivity | plain_tac |].
  - rewrite map_app. cbn [List.map].
    change (List.map Some sa ++ [Some "versions"; Some (v ++ ".json")%string])
      with (List.map Some sa ++ [Some "versions"] ++ [Some (v ++ ".json")%string]).
    rewrite app_assoc, last_last. cbn [option_map].
    rewrite replace_suffix_append, append_nil_r. reflexivity.
  - apply plain_slash_free; plain_tac.
Qed.

End Scaffolded.

(** ** The version files of a model *)

Lemma startsWith_iff s p : Str.startsWith s p = true <-> begins_with s p.
Proof.
  split.
  - revert s. induction p as [|a p IH]; intros s H.
    + exists s. reflexivity.
    + destruct s as [|b s]; [discriminate H|]. cbn [Str.startsWith] in H.
      apply andb_true_iff in H as [E H]. apply Ascii.eqb_eq in E. subst b.
      destruct (IH s H) as (r & ->). exists r. reflexivity.
  - intros (r & ->). apply startsWith_append.
Qed.

Lemma endsWith_iff s p : Str.endsWith s p = true <-> ends_with s p.
Proof.
  unfold Str.endsWith. rewrite startsWith_iff. split.
  - intros (r & E). exists (Str.rev r).
    rewrite <- (rev_involutive s), E, rev_append, rev_involutive. reflexivity.
  - intros (f & ->). exists (Str.rev f). apply rev_append.
Qed.

Lemma includes_iff s p : Str.includes s p = true <-> occurs_in p s.
Proof.
  split.
  - induction s as [|c s IH]; cbn [Str.includes]; intros H.
    + rewrite orb_false_r in H. apply startsWith_iff in H as (r & E).
      exists EmptyString, r. exact E.
    + apply orb_true_iff in H as [H | H].
      * apply startsWith_iff in H as (r & E). exists EmptyString, r. exact E.
      * destruct (IH H) as (f & r & ->). exists (String c f), r. reflexivity.
  - intros (f & r & ->). apply includes_append, includes_prefix.
Qed.

Lemma to_slashes_append a b :
  to_slashes (a ++ b) = (to_slashes a ++ to_slashes b)%string.
Proof. apply map_append. Qed.

Lemma strict_eq_true x y : strict_eq x y = true -> x = y.
Proof.
  destruct x as [[| a | a | a | |]|]; destruct y as [[| b | b | b | |]|];
    cbn [strict_eq]; intros H; try discriminate H; try reflexivity.
  - apply Bool.eqb_prop in H. congruence.
  - apply Z.eqb_eq in H. congruence.
  - apply String.eqb_eq in H. congruence.
Qed.

Lemma typeof_string x :
  String.eqb (typeof x) "string" = true <-> exists s, x = Some (VStr s).
Proof.
  split.
  - destruct x as [[| | |s| |]|]; try discriminate. intros _. exists s. reflexivity.
  - intros (s & ->). reflexivity.
Qed.

(** A string the SemVer check of the engine accepts, and one it rejects. *)
Lemma semver_string_check x :
  String.eqb (typeof x) "string" && test SEMVER_RE (as_string x) = true <->
  exists s, x = Some (VStr s) /\ semver_form s.
Proof.
  rewrite andb_true_iff, typeof_string. split.
  - intros [(s & ->) T]. exists s. split; [reflexivity|]. apply SEMVER_RE_lang. exact T.
  - intros (s & -> & F). split; [exists s; reflexivity|]. apply SEMVER_RE_lang. exact F.
Qed.

Lemma digest_string_check d :
  String.eqb (typeof (Some d)) "string" && test SHA256_RE (as_string (Some d)) = true <->
  exists s, d = VStr s /\ digest_form s.
Proof.
  rewrite andb_true_iff, typeof_string. split.
  - intros [(s & E) T]. inversion E. subst d. exists s. split; [reflexivity|].
    apply SHA256_RE_lang. exact T.
  - intros (s & -> & F). split; [exists s; reflexivity|]. apply SHA256_RE_lang. exact F.
Qed.

(** *** The file name of a path *)

Lemma split_app_sep sep a c b :
  sep c = true ->
  Str.split sep (a ++ String c b) = Str.split sep a ++ Str.split sep b.
Proof.
  intros Hc. induction a as [|x a IH]; cbn [append Str.split].
  - rewrite Hc. reflexivity.
  - rewrite IH. destruct (sep x); [reflexivity|].
    pose proof (split_nonempty sep a) as N.
    destruct (Str.split sep a) as [|h t]; [congruence | reflexivity].
Qed.

Lemma last_app_nonempty {A} (l l' : list A) d :
  l' <> [] -> List.last (l ++ l') d = List.last l' d.
Proof.
  intros N. induction l as [|x l IH]; [reflexivity|].
  cbn [app]. destruct (l ++ l') as [|a l0] eqn:E.
  - apply app_eq_nil in E as [_ E]. contradiction.
  - exact IH.
Qed.

Lemma slash_free_json stem :
  Str.all (fun c => negb (Path.is_slash c)) stem = true ->
  Str.all (fun c => negb (Path.is_slash c)) (stem ++ ".json") = true.
Proof. intros H. rewrite all_append, H. reflexivity. Qed.

Lemma versionFromFile_stem p stem : file_stem p stem -> versionFromFile p = Some stem.
Proof.
  intros [A [-> | (d & ->)]]; unfold versionFromFile.
  - rewrite (split_none Path.is_slash _ (slash_free_json stem A)).
    cbn [List.map List.last option_map].
    rewrite replace_suffix_append, append_nil_r. reflexivity.
  - change (d ++ "/" ++ stem ++ ".json")%string
      with (d ++ String "/" (stem ++ ".json"))%string.
    rewrite (split_app_sep Path.is_slash d "/" _ eq_refl).
    rewrite (split_none Path.is_slash _ (slash_free_json stem A)).
    rewrite map_app, last_app_nonempty by discriminate.
    cbn [List.map List.last option_map].
    rewrite replace_suffix_append, append_nil_r. reflexivity.
Qed.

Lemma last_slash s :
  Str.all (fun c => negb (Path.is_slash c)) s = true \/
  exists d t, s = (d ++ "/" ++ t)%string /\
              Str.all (fun c => negb (Path.is_slash c)) t = true.
Proof.
  induction s as [|c s IH]; [left; reflexivity|].
  destruct IH as [A | (d & t & -> & A)].
  - destruct (Path.is_slash c) eqn:E.
    + right. exists EmptyString, s. split; [|exact A].
      apply Ascii.eqb_eq in E. subst c. reflexivity.
    + left. cbn [Str.all]. rewrite E, A. reflexivity.
  - right. exists (String c d), t. split; [reflexivity | exact A].
Qed.

Lemma stem_exists p : ends_with p ".json" -> exists stem, file_stem p stem.
Proof.
  intros (f & ->). destruct (last_slash f) as [A | (d & t & -> & A)].
  - exists f. split; [exact A | left; reflexivity].
  - exists t. split; [exact A|]. right. exists d.
    rewrite <- !append_assoc. reflexivity.
Qed.

(** The stem the engine cuts out of a path that ends in [.json] is the
    stem of its file name. *)
Lemma versionFromFile_iff p stem :
  ends_with p ".json" -> (versionFromFile p = Some stem <-> file_stem p stem).
Proof.
  intros E. split; [|apply versionFromFile_stem].
  intros H. destruct (stem_exists p E) as (s0 & F).
  rewrite (versionFromFile_stem p s0 F) in H. inversion H. subst s0. exact F.
Qed.

(** *** The filters of the engine *)

Lemma versions_dir_test_iff p :
  versions_dir_test p = true <->
  occurs_in "versions/" p \/ occurs_in ("versions" ++ backslash) p.
Proof.
  unfold versions_dir_test. rewrite orb_true_iff, !includes_iff. reflexivity.
Qed.

Lemma versionFiles_iff files p :
  In p (versionFiles files) <-> In p files /\ version_path p.
Proof.
  unfold versionFiles, version_path.
  rewrite filter_In, andb_true_iff, versions_dir_test_iff, endsWith_iff. reflexivity.
Qed.

Lemma modelFiles_iff files p :
  In p (modelFiles files) <-> In p files /\ ends_with p "model.json".
Proof. unfold modelFiles. rewrite filter_In, endsWith_iff. reflexivity. Qed.

Lemma versionsDir_beside dir : versionsDir (dir ++ "model.json") = (dir ++ "versions")%string.
Proof. apply replace_suffix_append. Qed.

Lemma perfPath_beside dir :
  Str.replace_suffix "model.json" "PERFORMANCE.md" (dir ++ "model.json")
  = (dir ++ "PERFORMANCE.md")%string.
Proof. apply replace_suffix_append. Qed.

(** The version files the engine keeps for a model are the version files
    of that model, written with forward slashes. *)
Lemma matching_iff files dir x :
  In x (matching (versionFiles files) (dir ++ "model.json")) <->
  exists vf, version_file_of files dir vf /\ x = to_slashes vf.
Proof.
  unfold matching, version_file_of. rewrite in_map_iff. split.
  - intros (vf & <- & H). apply filter_In in H as [H S].
    apply versionFiles_iff in H as [H1 H2].
    rewrite versionsDir_beside in S. apply startsWith_iff in S.
    exists vf. auto.
  - intros (vf & (H1 & H2 & S) & ->). exists vf. split; [reflexivity|].
    apply filter_In. split; [apply versionFiles_iff; auto|].
    rewrite versionsDir_beside. apply startsWith_iff. exact S.
Qed.

Lemma version_file_json files dir vf :
  version_file_of files dir vf -> ends_with (to_slashes vf) ".json".
Proof.
  intros (_ & (_ & f & ->) & _). exists (to_slashes f). apply to_slashes_append.
Qed.

Section VersionFiles.

Variable Date_parse : string -> option Z.
Variable cmdDigest cmdPublish : list string -> M Z.

Local Notation ValidateModel := (validate_model Date_parse).
Local Notation Run := (run Date_parse cmdDigest cmdPublish).

(** A model document that passes its field checks has a string for [id]
    and a SemVer-valid string for [version]. *)
Lemma field_checks_strings m :
  field_checks Date_parse m = true ->
  exists id version,
    field m "id" = Some (VStr id) /\
    field m "version" = Some (VStr version) /\ semver_form version.
Proof.
  intros F. unfold field_checks, nonblank in F.
  repeat match goal with
         | H : _ && _ = true |- _ => apply andb_true_iff in H; destruct H
         end.
  assert (I : exists id, field m "id" = Some (VStr id))
    by (apply typeof_string; assumption).
  assert (V : String.eqb (typeof (field m "version")) "string" &&
              test SEMVER_RE (as_string (field m "version")) = true)
    by (apply andb_true_iff; split; assumption).
  destruct I as (id & Hid).
  apply semver_string_check in V as (version & Hv & Sv).
  exists id, version. auto.
Qed.

(** What the run of status 0 has found for the model file
    [dir ++ "model.json"]. *)
Lemma run_validate_model_ok rest w files dir :
  no_help (validate_args rest) ->
  eval (walk (modelsDir rest)) w = Ret files ->
  fst (Run (validate_args rest) w) = 0%Z ->
  In (dir ++ "model.json")%string files ->
  exists m id version,
    eval (parseJson (dir ++ "model.json")) w = Ret m /\
    field m "id" = Some (VStr id) /\
    field m "version" = Some (VStr version) /\
    (exists vf, version_file_of files dir vf /\
                to_slashes vf = expectedFile (dir ++ "model.json") version) /\
    (forall vf, version_file_of files dir vf ->
                eval (validate_version (Some (VStr id)) (to_slashes vf)) w = Ret tt).
Proof.
  intros Hh Hw H0 Hin.
  destruct (run_validate_ok Date_parse cmdDigest cmdPublish rest w files Hh Hw H0)
    as [_ Hall].
  assert (Hmf : In (dir ++ "model.json")%string (modelFiles files)).
  { apply modelFiles_iff. split; [exact Hin | exists dir; reflexivity]. }
  destruct (validate_model_ok Date_parse _ _ w (Hall _ Hmf))
    as (m & P & F & _ & _ & _ & I & V).
  destruct (field_checks_strings m F) as (id & version & Hid & Hv & _).
  rewrite Hid in V. rewrite Hv in I. cbn [as_string] in I.
  exists m, id, version. split; [exact P|]. split; [exact Hid|]. split; [exact Hv|]. split.
  - apply matching_iff in I as (vf & Hvf & E). exists vf. split; [exact Hvf|].
    symmetry. exact E.
  - intros vf Hvf. apply V. apply matching_iff. exists vf. auto.
Qed.

(** C4, as the program has it.  The expected path of a model file is
    [<directory of the model file>/versions/<version>.json].  A run
    that ends with status 0 has found, for every model file, a version
    file whose path begins with the path of the model's [versions]
    directory and is the expected path.  A model file that is reached
    (the model files before it pass) and passes its field checks, the
    folder check and the check of the performance notes ends the run with
    status 1 when no version file of the model is the expected one: with
    [no versions found for model <id>], which does not name the expected
    file, when the model has no version file at all, and with
    [missing versions/<version>.json for model <id>] when it has some. *)
Theorem C4_expected_version_file rest w files :
  no_help (validate_args rest) ->
  eval (walk (modelsDir rest)) w = Ret files ->
  (forall sa version,
     sa <> [] -> Forall (fun s => plain_segment s = true) sa ->
     test SEMVER_RE version = true ->
     expectedFile (path_of (sa ++ ["model.json"])) version
     = path_of (sa ++ ["versions"; (version ++ ".json")%string])) /\
  (fst (Run (validate_args rest) w) = 0%Z ->
   forall dir, In (dir ++ "model.json")%string files ->
     exists m version vf,
       eval (parseJson (dir ++ "model.json")) w = Ret m /\
       field m "version" = Some (VStr version) /\
       version_file_of files dir vf /\
       to_slashes vf = expectedFile (dir ++ "model.json") version) /\
  (forall pre dir post m id version,
     modelFiles files = pre ++ (dir ++ "model.json")%string :: post ->
     (forall y, In y pre -> eval (ValidateModel (versionFiles files) y) w = Ret tt) ->
     eval (parseJson (dir ++ "model.json")) w = Ret m ->
     field_checks Date_parse m = true ->
     field m "id" = Some (VStr id) ->
     field m "version" = Some (VStr version) ->
     option_map VStr (folderModality (dir ++ "model.json")) = field m "modality" ->
     eval (Fs.statSync (dir ++ "PERFORMANCE.md")) w = Ret Fs.IsFile ->
     ((forall vf, ~ version_file_of files dir vf) ->
      Run (validate_args rest) w =
      (1%Z, with_error w ("no versions found for model " ++ id))) /\
     (forall vf0,
        version_file_of files dir vf0 ->
        (forall vf, version_file_of files dir vf ->
                    to_slashes vf <> expectedFile (dir ++ "model.json") version) ->
        Run (validate_args rest) w =
        (1%Z, with_error w ("missing versions/" ++ version ++ ".json for model " ++ id)))).
Proof.
  intros Hh Hw. split; [|split].
  - intros sa version Nsa Fsa Hv. apply scaffold_expectedFile; assumption.
  - intros H0 dir Hin.
    destruct (run_validate_model_ok rest w files dir Hh Hw H0 Hin)
      as (m & id & version & P & _ & Hv & (vf & Hvf & E) & _).
    exists m, version, vf. auto.
  - intros pre dir post m id version Hs Hp P F Hid Hver S St.
    apply strict_eq_string in S.
    pose proof (validate_model_after_fields Date_parse (versionFiles files) _ w m P F) as V.
    rewrite S, perfPath_beside, St, Hid, Hver in V. cbn [negb as_string] in V.
    split.
    + intros Hnone.
      destruct (matching (versionFiles files) (dir ++ "model.json")) as [|x found] eqn:Em.
      * apply (run_validate_throw Date_parse cmdDigest cmdPublish rest w files
                 pre _ post _ Hh Hw Hs Hp V).
      * exfalso. assert (I : In x (matching (versionFiles files) (dir ++ "model.json")))
          by (rewrite Em; left; reflexivity).
        apply matching_iff in I as (vf & Hvf & _). exact (Hnone vf Hvf).
    + intros vf0 Hvf0 Hnot.
      destruct (matching (versionFiles files) (dir ++ "model.json")) as [|x found] eqn:Em.
      * exfalso.
        assert (I : In (to_slashes vf0) (matching (versionFiles files) (dir ++ "model.json")))
          by (apply matching_iff; exists vf0; auto).
        rewrite Em in I. exact I.
      * cbn [List.length Nat.ltb Nat.leb negb] in V.
        destruct (existsb (String.eqb (expectedFile (dir ++ "model.json") version))
                          (x :: found)) eqn:Ex.
        -- exfalso. apply existsb_exists in Ex as (y & Hy & Ey).
           apply String.eqb_eq in Ey. subst y. rewrite <- Em in Hy.
           apply matching_iff in Hy as (vf & Hvf & E).
           exact (Hnot vf Hvf (eq_sym E)).
        -- cbn [negb] in V.
           apply (run_validate_throw Date_parse cmdDigest cmdPublish rest w files
                    pre _ post _ Hh Hw Hs Hp V).
Qed.

(** The checks of one version file, in the words of the specification. *)
Lemma version_checks_hold m_id vf v :
  ends_with vf ".json" ->
  (forall c, version_check_holds m_id vf v c = true) ->
  field v "modelId" = m_id /\
  (exists s, field v "version" = Some (VStr s) /\ semver_form s /\ file_stem vf s) /\
  (forall d, artifact_digest v = Some d -> exists s, d = VStr s /\ digest_form s).
Proof.
  intros J H.
  pose proof (H ModelIdMatches) as H1. pose proof (H VersionIsSemVer) as H2.
  pose proof (H StemMatchesVersion) as H3. pose proof (H DigestWellFormed) as H4.
  cbn [version_check_holds] in H1, H2, H3, H4.
  split; [apply strict_eq_true; exact H1|]. split.
  - apply semver_string_check in H2 as (s & E & F). exists s.
    split; [exact E|]. split; [exact F|].
    rewrite E in H3. apply (strict_eq_string (versionFromFile vf)) in H3.
    apply (versionFromFile_iff vf s J).
    destruct (versionFromFile vf); inversion H3. reflexivity.
  - intros d Hd. rewrite Hd in H4. apply digest_string_check. exact H4.
Qed.

(** The first check of a version file that does not hold. *)
Lemma version_first_violated m_id vf v :
  ends_with vf ".json" ->
  (exists i, m_id = Some (VStr i)) ->
  (field v "modelId" <> m_id ->
   first_violated m_id vf v version_checks = Some ModelIdMatches) /\
  (field v "modelId" = m_id ->
   (forall s, field v "version" = Some (VStr s) -> ~ semver_form s) ->
   first_violated m_id vf v version_checks = Some VersionIsSemVer) /\
  (field v "modelId" = m_id ->
   forall s, field v "version" = Some (VStr s) -> semver_form s ->
   (~ file_stem vf s ->
    first_violated m_id vf v version_checks = Some StemMatchesVersion) /\
   (file_stem vf s ->
    forall d, artifact_digest v = Some d ->
    (forall t, d = VStr t -> ~ digest_form t) ->
    first_violated m_id vf v version_checks = Some DigestWellFormed)).
Proof.
  intros J (i & Hi).
  unfold first_violated, version_checks. cbn [find version_check_holds].
  split; [|split].
  - intros N. destruct (strict_eq (field v "modelId") m_id) eqn:E; [|reflexivity].
    apply strict_eq_true in E. contradiction.
  - intros E N. rewrite E, Hi. cbn [strict_eq]. rewrite String.eqb_refl. cbn [negb].
    destruct (String.eqb (typeof (field v "version")) "string" &&
              test SEMVER_RE (as_string (field v "version"))) eqn:T; [|reflexivity].
    apply semver_string_check in T as (s & Es & F). exfalso. exact (N s Es F).
  - intros E s Es F.
    assert (T : String.eqb (typeof (field v "version")) "string" &&
                test SEMVER_RE (as_string (field v "version")) = true).
    { apply semver_string_check. exists s. auto. }
    rewrite E, Hi. cbn [strict_eq]. rewrite String.eqb_refl, T. cbn [negb].
    rewrite Es. split.
    + intros N.
      destruct (strict_eq (option_map VStr (versionFromFile vf)) (Some (VStr s))) eqn:S;
        [|reflexivity].
      exfalso. apply N. apply (versionFromFile_iff vf s J).
      apply (strict_eq_string (versionFromFile vf)) in S.
      destruct (versionFromFile vf); inversion S. reflexivity.
    + intros St d Hd N.
      rewrite (versionFromFile_stem vf s St). cbn [option_map strict_eq].
      rewrite String.eqb_refl. cbn [negb]. rewrite Hd.
      destruct (String.eqb (typeof (Some d)) "string" &&
                test SHA256_RE (as_string (Some d))) eqn:D; [|reflexivity].
      apply digest_string_check in D as (t & Et & Ft). exfalso. exact (N t Et Ft).
Qed.


End VersionFiles.

(** The version file of the example registries and its model. *)
Lemma example_version_file files :
  In "models/text/foo/versions/1.0.0.json" files ->
  version_file_of files "models/text/foo/" "models/text/foo/versions/1.0.0.json".
Proof.
  intros H. split; [exact H|]. split; [split|].
  - left. exists "models/text/foo/"%string, "1.0.0.json"%string. reflexivity.
  - exists "models/text/foo/versions/1.0.0"%string. reflexivity.
  - exists "/1.0.0.json"%string. reflexivity.
Qed.

Lemma C4_expected_version_file_witness :
  (fst (run Date_parse_example cmd_example cmd_example (validate_args []) world_valid)
     = 0%Z /\
   exists m version vf,
     eval (parseJson ("models/text/foo/" ++ "model.json")) world_valid = Ret m /\
     field m "version" = Some (VStr version) /\
     version_file_of ["models/text/foo/model.json";
                      "models/text/foo/PERFORMANCE.md";
                      "models/text/foo/versions/1.0.0.json"] "models/text/foo/" vf /\
     to_slashes vf = expectedFile ("models/text/foo/" ++ "model.json") version) /\
  run Date_parse_example cmd_example cmd_example (validate_args []) world_missing_version =
  (1%Z, with_error world_missing_version "missing versions/1.1.0.json for model org/foo") /\
  run Date_parse_example cmd_example cmd_example (validate_args []) world_no_versions =
  (1%Z, with_error world_no_versions "no versions found for model org/foo").
Proof.
  split; [|split].
  - assert (H0 : fst (run Date_parse_example cmd_example cmd_example
                        (validate_args []) world_valid) = 0%Z)
      by (vm_compute; reflexivity).
    split; [exact H0|].
    refine (proj1 (proj2 (C4_expected_version_file Date_parse_example cmd_example cmd_example
                     [] world_valid
                     ["models/text/foo/model.json";
                      "models/text/foo/PERFORMANCE.md";
                      "models/text/foo/versions/1.0.0.json"] _ _)) H0 "models/text/foo/" _).
    + split; reflexivity.
    + vm_compute; reflexivity.
    + left. reflexivity.
  - refine (proj2 (proj2 (proj2 (C4_expected_version_file
                     Date_parse_example cmd_example cmd_example
                     [] world_missing_version
                     ["models/text/foo/model.json";
                      "models/text/foo/PERFORMANCE.md";
                      "models/text/foo/versions/1.0.0.json"] _ _))
                  [] "models/text/foo/" []
                  (example_model "org/foo" "text" "1.1.0") "org/foo" "1.1.0"
                  _ _ _ _ _ _ _ _)
                  "models/text/foo/versions/1.0.0.json" _ _).
    + split; reflexivity.
    + vm_compute; reflexivity.
    + vm_compute; reflexivity.
    + intros y [].
    + vm_compute; reflexivity.
    + vm_compute; reflexivity.
    + reflexivity.
    + reflexivity.
    + vm_compute; reflexivity.
    + vm_compute; reflexivity.
    + apply example_version_file. right. right. left. reflexivity.
    + intros vf (Hin & _) E.
      destruct Hin as [<- | [<- | [<- | []]]]; vm_compute in E; discriminate E.
  - refine (proj1 (proj2 (proj2 (C4_expected_version_file
                     Date_parse_example cmd_example cmd_example
                     [] world_no_versions
                     ["models/text/foo/model.json";
                      "models/text/foo/PERFORMANCE.md"] _ _))
                  [] "models/text/foo/" []
                  (example_model "org/foo" "text" "1.0.0") "org/foo" "1.0.0"
                  _ _ _ _ _ _ _ _) _).
    + split; reflexivity.
    + vm_compute; reflexivity.
    + vm_compute; reflexivity.
    + intros y [].
    + vm_compute; reflexivity.
    + vm_compute; reflexivity.
    + reflexivity.
    + reflexivity.
    + vm_compute; reflexivity.
    + vm_compute; reflexivity.
    + intros vf (Hin & _ & B). apply startsWith_iff in B.
      destruct Hin as [<- | [<- | []]]; vm_compute in B; discriminate B.
Defined.

(** C4 as stated fails.  The model document passes its field checks, the
    folder check and the check of the performance notes; its [versions]
    directory is empty, so the expected file [versions/1.0.0.json] is
    absent.  The run ends with status 1, but its message names the model
    and not the expected version file. *)
Lemma C4_message_without_the_expected_file :
  eval (walk (modelsDir [])) world_no_versions =
    Ret ["models/text/foo/model.json"; "models/text/foo/PERFORMANCE.md"] /\
  field_checks Date_parse_example (example_model "org/foo" "text" "1.0.0") = true /\
  expectedFile "models/text/foo/model.json" "1.0.0" = "models/text/foo/versions/1.0.0.json" /\
  eval (Fs.statSync "models/text/foo/versions/1.0.0.json") world_no_versions =
    Throw (FsError ENOENT "stat" "models/text/foo/versions/1.0.0.json") /\
  run Date_parse_example cmd_example cmd_example (validate_args []) world_no_versions =
    (1%Z, with_error world_no_versions "no versions found for model org/foo") /\
  Str.includes "no versions found for model org/foo" "1.0.0" = false /\
  Str.includes "no versions found for model org/foo" "versions/" = false.
Proof.
  repeat split; vm_compute; reflexivity.
Qed.


Lemma scaffold_folderModality rs m slug :
  Forall (fun s => plain_segment s = true) rs ->
  ~ In "models" rs ->
  In m modalities -> plain_segment slug = true ->
  folderModality (path_of ((rs ++ ["models"; m; slug]) ++ ["model.json"])) = Some m.
Proof.
  intros Frs N Hm Hslug.
  apply (folderModality_after_models _ rs m [slug; "model.json"]); [|assumption].
  rewrite split_parts_path_of by plain_tac.
  rewrite <- app_assoc. reflexivity.
Qed.

Lemma eval_readdir_plain w segs es :
  segs <> [] -> Forall (fun s => plain_segment s = true) segs ->
  descend segs (fs w) = Some (Dir es) ->
  eval (Fs.readdirSync (path_of segs)) w = Ret es.
Proof.
  intros N F D. unfold eval, Fs.readdirSync, bind, get_fs.
  rewrite (resolve_path_of (fs w) segs N F), D. reflexivity.
Qed.

Lemma eval_parseJson_plain w segs doc :
  segs <> [] -> Forall (fun s => plain_segment s = true) segs ->
  descend segs (fs w) = Some (File (Json doc)) ->
  eval (parseJson (path_of segs)) w = Ret doc.
Proof.
  intros N F D. unfold eval. rewrite parseJson_run.
  unfold eval, Fs.readFileSync, bind, get_fs.
  rewrite (resolve_path_of (fs w) segs N F), D. reflexivity.
Qed.

Lemma eval_stat_file_plain w segs c :
  segs <> [] -> Forall (fun s => plain_segment s = true) segs ->
  descend segs (fs w) = Some (File c) ->
  eval (Fs.statSync (path_of segs)) w = Ret Fs.IsFile.
Proof.
  intros N F D. unfold eval, Fs.statSync, bind, get_fs.
  rewrite (resolve_path_of (fs w) segs N F), D. reflexivity.
Qed.

Section RoundTrip.

Variable Date_parse : string -> option Z.
Variable cmdDigest cmdPublish : list string -> M Z.

Local Notation Run := (run Date_parse cmdDigest cmdPublish).

Lemma run_init rest w :
  no_help (init_args rest) ->
  Run (init_args rest) w =
  match cmdInitModel rest w with
  | (Ret code, w') => (code, w')
  | (Throw e, w') => (1%Z, with_error w' (message e))
  | (Exit code, w') => (code, w')
  end.
Proof.
  intros [H1 H2]. unfold run, program, try_catch, main.
  rewrite H1, H2. unfold init_args.
  cbn -[cmdValidateModels cmdInitModel help]. unfold bind.
  destruct (cmdInitModel rest w) as [[c|e|c] w']; reflexivity.
Qed.

Lemma includes_modality m :
  In m modalities -> includes_str modalities (Some (VStr m)) = true.
Proof.
  intros H. unfold includes_str. apply existsb_exists. exists m.
  split; [assumption | apply String.eqb_refl].
Qed.

Lemma nonblank_not_empty s :
  nonblank (Some (VStr s)) = true -> Str.is_empty s = false.
Proof. destruct s; [discriminate | reflexivity]. Qed.

End RoundTrip.

(** ** Paths that are absolute or start above the working directory *)

Lemma lead_cases lead :
  lead_ok lead ->
  lead = [] \/ lead = [EmptyString] \/
  exists ups, lead = ".." :: ups /\ Forall (fun s => s = "..") ups.
Proof.
  intros [-> | F]; [auto|].
  destruct F as [|s ups Hs F]; [auto|]. subst s. right. right. eauto.
Qed.

Lemma lead_forall (P : string -> Prop) lead :
  lead_ok lead -> P EmptyString -> P ".." -> Forall P lead.
Proof.
  intros [-> | F] H0 H2; [repeat constructor; assumption|].
  eapply Forall_impl; [|exact F]. intros s ->. exact H2.
Qed.

Lemma lead_slash_free lead segs :
  lead_ok lead -> Forall (fun s => plain_segment s = true) segs ->
  Forall (fun s => Str.all (fun x => negb (Path.is_slash x)) s = true) (lead ++ segs).
Proof.
  intros L F. apply Forall_app. split.
  - apply lead_forall; [assumption | reflexivity | reflexivity].
  - apply plain_slash_free. assumption.
Qed.

Lemma split_lead lead segs :
  lead_ok lead -> Forall (fun s => plain_segment s = true) segs -> segs <> [] ->
  Str.split Path.is_slash (path_of (lead ++ segs)) = lead ++ segs.
Proof.
  intros L F N. apply split_path_of; [reflexivity | |].
  - apply app_not_nil_r. assumption.
  - apply lead_slash_free; assumption.
Qed.

Lemma path_parts_lead lead segs :
  lead_ok lead -> Forall (fun s => plain_segment s = true) segs -> segs <> [] ->
  path_parts (path_of (lead ++ segs)) = lead ++ segs.
Proof.
  intros L F N. unfold path_parts. apply split_path_of; [reflexivity | |].
  - apply app_not_nil_r. assumption.
  - apply Forall_app. split.
    + apply lead_forall; [assumption | reflexivity | reflexivity].
    + eapply Forall_impl; [|exact F]. intros s Hs.
      apply plain_segment_facts in Hs as (_ & _ & _ & S & _). exact S.
Qed.

Lemma to_slashes_lead lead segs :
  lead_ok lead -> Forall (fun s => plain_segment s = true) segs ->
  to_slashes (path_of (lead ++ segs)) = path_of (lead ++ segs).
Proof.
  intros L F. unfold to_slashes, Str.replace_char. apply map_fixed.
  apply all_path_of; [reflexivity|].
  apply Forall_app. split.
  - apply lead_forall; [assumption | reflexivity | reflexivity].
  - eapply Forall_impl; [|exact F]. intros s Hs.
    apply plain_segment_facts in Hs as (_ & _ & B & _).
    eapply all_weaken; [|exact B]. intros c Hc. cbn beta in *.
    apply negb_true_iff in Hc. unfold is_backslash in Hc. rewrite Hc.
    apply Ascii.eqb_refl.
Qed.

Lemma startsWith_slash_cons s : Str.startsWith (String "/" s) "/" = true.
Proof. destruct s; reflexivity. Qed.

(** The string of a path with a lead. *)
Lemma path_of_lead lead segs :
  lead_ok lead -> Forall (fun s => plain_segment s = true) segs -> segs <> [] ->
  exists c0 d,
    path_of (lead ++ segs) = String c0 d /\
    (Path.is_slash c0 = true -> lead = [EmptyString] /\ d = path_of segs) /\
    (lead = [EmptyString] -> Path.is_slash c0 = true).
Proof.
  intros L F N.
  pose proof (path_of_not_empty segs N F) as NE.
  pose proof (path_of_startsWith_slash segs N F) as NS.
  destruct (lead_cases lead L) as [-> | [-> | (ups & -> & U)]].
  - cbn [app]. destruct (path_of segs) as [|c0 d]; [discriminate NE|].
    exists c0, d. split; [reflexivity|]. split.
    + intros S. exfalso. cbn [Str.startsWith] in NS.
      unfold Path.is_slash in S. rewrite Ascii.eqb_sym, S in NS.
      destruct d; discriminate NS.
    + discriminate.
  - cbn [app]. rewrite path_of_cons by assumption.
    exists "/"%char, (path_of segs). split; [reflexivity|]. split; [auto | reflexivity].
  - cbn [app]. rewrite path_of_cons by (apply app_not_nil_r; assumption).
    exists "."%char, ("." ++ "/" ++ path_of (ups ++ segs))%string.
    split; [reflexivity|]. split; [discriminate | discriminate].
Qed.

Lemma path_of_lead_not_empty lead segs :
  lead_ok lead -> Forall (fun s => plain_segment s = true) segs -> segs <> [] ->
  Str.is_empty (path_of (lead ++ segs)) = false.
Proof.
  intros L F N. destruct (path_of_lead lead segs L F N) as (c0 & d & -> & _). reflexivity.
Qed.

(** *** Normalization *)

Lemma normalize_fold_ups ups : forall acc,
  Forall (fun s => s = "..") ups -> Forall (fun s => s = "..") acc ->
  fold_left (Path.normalize_step false) ups acc = List.rev ups ++ acc.
Proof.
  induction ups as [|u ups IH]; intros acc U A; [reflexivity|].
  inversion U as [|? ? -> U']; subst. cbn [fold_left List.rev].
  assert (S : Path.normalize_step false acc ".." = ".." :: acc).
  { destruct A as [|a acc -> A]; reflexivity. }
  rewrite S, IH by (assumption || (constructor; [reflexivity | assumption])).
  rewrite <- app_assoc. reflexivity.
Qed.

Lemma normalize_fold_lead lead :
  lead_ok lead ->
  fold_left (Path.normalize_step (is_absolute lead)) lead [] = List.rev (kept_lead lead).
Proof.
  intros L. destruct (lead_cases lead L) as [-> | [-> | (ups & -> & U)]].
  - reflexivity.
  - reflexivity.
  - assert (A : is_absolute (".." :: ups) = false) by (destruct ups; reflexivity).
    unfold kept_lead. rewrite A.
    rewrite (normalize_fold_ups (".." :: ups) []);
      [apply app_nil_r | constructor; [reflexivity | assumption] | constructor].
Qed.

Lemma normalize_fold_skip b segs : forall acc,
  Forall (fun s => plain_segment s = true \/ s = EmptyString) segs ->
  fold_left (Path.normalize_step b) segs acc
  = List.rev (filter (fun a => negb (Str.is_empty a)) segs) ++ acc.
Proof.
  induction segs as [|s segs IH]; intros acc F; [reflexivity|].
  inversion F as [|? ? [Hs | ->] F']; subst; cbn [fold_left filter].
  - rewrite (normalize_step_plain b acc s Hs), (plain_not_empty s Hs). cbn [negb List.rev].
    rewrite IH by assumption. rewrite <- app_assoc. reflexivity.
  - cbn [Str.is_empty negb]. change (Path.normalize_step b acc EmptyString) with acc.
    apply IH. assumption.
Qed.

Lemma normalize_parts_lead lead segs :
  lead_ok lead ->
  Forall (fun s => plain_segment s = true \/ s = EmptyString) segs ->
  Path.normalize_parts (is_absolute lead) (lead ++ segs)
  = kept_lead lead ++ filter (fun a => negb (Str.is_empty a)) segs.
Proof.
  intros L F. unfold Path.normalize_parts.
  rewrite fold_left_app, (normalize_fold_lead lead L), normalize_fold_skip by assumption.
  rewrite rev_app_distr, !List.rev_involutive. reflexivity.
Qed.

Lemma path_of_kept_lead lead segs :
  lead_ok lead -> segs <> [] ->
  ((if is_absolute lead then "/" else EmptyString) ++ path_of (kept_lead lead ++ segs))%string
  = path_of (lead ++ segs).
Proof.
  intros L N. destruct (lead_cases lead L) as [-> | [-> | (ups & -> & U)]].
  - reflexivity.
  - cbn [is_absolute kept_lead String.eqb app]. rewrite path_of_cons by assumption. reflexivity.
  - assert (A : is_absolute (".." :: ups) = false) by (destruct ups; reflexivity).
    unfold kept_lead. rewrite A. reflexivity.
Qed.

Lemma endsWith_last front x :
  front <> [] -> plain_segment x = true ->
  Str.endsWith (path_of (front ++ [x])) "/" = false.
Proof.
  intros N Hx. apply plain_segment_facts in Hx as (E & A & _).
  rewrite path_of_last by assumption.
  rewrite endsWith_long by (destruct x; [discriminate E | simpl; lia]).
  apply endsWith_slash_free; assumption.
Qed.

(** A path of components that are plain but for empty ones in the
    middle: [path.normalize] drops the empty components. *)
Lemma normalize_lead lead a mid xs x :
  lead_ok lead ->
  a <> [] -> Forall (fun s => plain_segment s = true) a ->
  Forall (fun s => plain_segment s = true \/ s = EmptyString) mid ->
  Forall (fun s => plain_segment s = true) xs -> plain_segment x = true ->
  Path.normalize (path_of (lead ++ a ++ mid ++ xs ++ [x]))
  = path_of (lead ++ a ++ filter (fun s => negb (Str.is_empty s)) mid ++ xs ++ [x]).
Proof.
  intros L Na Fa Fm Fx Hx.
  destruct a as [|a0 a']; [congruence|]. inversion Fa as [|? ? Ha0 Fa']; subst.
  set (comps := (a0 :: a') ++ mid ++ xs ++ [x]).
  assert (Fc : Forall (fun s => plain_segment s = true \/ s = EmptyString) comps).
  { subst comps. repeat (apply Forall_app; split); try assumption.
    - eapply Forall_impl; [|exact Fa]. auto.
    - eapply Forall_impl; [|exact Fx]. auto.
    - repeat constructor. auto. }
  assert (Sc : Forall (fun s => Str.all (fun c => negb (Path.is_slash c)) s = true)
                      (lead ++ comps)).
  { apply Forall_app. split.
    - apply lead_forall; [assumption | reflexivity | reflexivity].
    - eapply Forall_impl; [|exact Fc]. intros s [Hs | ->]; [|reflexivity].
      apply plain_segment_facts in Hs. tauto. }
  assert (Nc : comps <> []) by discriminate.
  assert (Kf : filter (fun s => negb (Str.is_empty s)) comps
               = (a0 :: a') ++ filter (fun s => negb (Str.is_empty s)) mid ++ xs ++ [x]).
  { subst comps. rewrite !filter_app.
    rewrite (filter_plain (a0 :: a') Fa), (filter_plain xs Fx).
    cbn [filter]. rewrite (plain_not_empty x Hx). reflexivity. }
  assert (Nk : filter (fun s => negb (Str.is_empty s)) comps <> []).
  { rewrite Kf. discriminate. }
  assert (Fk : Forall (fun s => plain_segment s = true)
                      (filter (fun s => negb (Str.is_empty s)) comps)).
  { apply Forall_forall. intros s Hs. apply filter_In in Hs as [Hin Hs].
    rewrite Forall_forall in Fc. destruct (Fc s Hin) as [P | ->]; [exact P | discriminate Hs]. }
  assert (Abs : Str.startsWith (path_of (lead ++ comps)) "/" = is_absolute lead).
  { destruct (lead_cases lead L) as [-> | [-> | (ups & -> & U)]].
    - cbn [app is_absolute]. subst comps. cbn [app].
      apply plain_segment_facts in Ha0 as (E & A & _).
      destruct a0 as [|c a0]; [discriminate E|].
      cbn [Str.all] in A. apply andb_true_iff in A as [A _]. apply negb_true_iff in A.
      unfold Path.is_slash in A.
      unfold path_of.
      destruct (a' ++ mid ++ xs ++ [x]);
        cbn [Str.concat_with append Str.startsWith];
        rewrite Ascii.eqb_sym, A; reflexivity.
    - cbn [app]. rewrite path_of_cons by assumption. apply startsWith_slash_cons.
    - cbn [app]. rewrite path_of_cons by (apply app_not_nil_r; assumption).
      destruct ups; reflexivity. }
  assert (Tr : Str.endsWith (path_of (lead ++ comps)) "/" = false).
  { subst comps.
    replace (lead ++ (a0 :: a') ++ mid ++ xs ++ [x])
      with ((lead ++ (a0 :: a') ++ mid ++ xs) ++ [x])
      by (rewrite <- !app_assoc; reflexivity).
    apply endsWith_last; [|assumption].
    intros E. apply app_eq_nil in E as [_ E]. discriminate E. }
  assert (Ne : Str.is_empty (path_of (lead ++ comps)) = false).
  { destruct (lead_cases lead L) as [-> | [-> | (ups & -> & U)]].
    - cbn [app]. subst comps. cbn [app].
      apply plain_not_empty in Ha0.
      destruct a0; [discriminate Ha0|]. unfold path_of.
      destruct (a' ++ mid ++ xs ++ [x]); reflexivity.
    - cbn [app]. rewrite path_of_cons by assumption. reflexivity.
    - cbn [app]. rewrite path_of_cons by (apply app_not_nil_r; assumption). reflexivity. }
  unfold Path.normalize. rewrite Ne, Abs, Tr.
  rewrite (split_path_of Path.is_slash (lead ++ comps) eq_refl (app_not_nil_r _ _ Nc) Sc).
  rewrite (normalize_parts_lead lead comps L Fc).
  fold (path_of (kept_lead lead ++ filter (fun a => negb (Str.is_empty a)) comps)).
  assert (Ke : Str.is_empty
                 (path_of (kept_lead lead ++ filter (fun a => negb (Str.is_empty a)) comps))
               = false).
  { pose proof (path_of_not_empty _ Nk Fk) as Q.
    destruct (lead_cases lead L) as [-> | [-> | (ups & -> & U)]].
    - exact Q.
    - exact Q.
    - assert (A : is_absolute (".." :: ups) = false) by (destruct ups; reflexivity).
      unfold kept_lead. rewrite A. cbn [app].
      rewrite path_of_cons by (apply app_not_nil_r; assumption). reflexivity. }
  rewrite Ke, append_nil_r, (path_of_kept_lead lead _ L Nk), Kf. reflexivity.
Qed.

(** *** [path.join] and [path.dirname] *)

Lemma at_dir_not_empty base lead a :
  lead_ok lead -> a <> [] -> Forall (fun s => plain_segment s = true) a ->
  at_dir base (lead ++ a) -> Str.is_empty base = false.
Proof.
  intros L Na Fa [-> | ->].
  - apply path_of_lead_not_empty; assumption.
  - destruct (path_of_lead lead a L Fa Na) as (c0 & d & -> & _). reflexivity.
Qed.

Lemma concat_with_cons s ys :
  ys <> [] -> Str.concat_with "/" (s :: ys) = (s ++ "/" ++ path_of ys)%string.
Proof. destruct ys; [congruence | reflexivity]. Qed.

(** Joining plain components onto a directory. *)
Lemma join_at base lead a xs x :
  lead_ok lead -> a <> [] -> Forall (fun s => plain_segment s = true) a ->
  at_dir base (lead ++ a) ->
  Forall (fun s => plain_segment s = true) xs -> plain_segment x = true ->
  Path.join (base :: xs ++ [x]) = path_of (lead ++ a ++ xs ++ [x]).
Proof.
  intros L Na Fa Hb Fx Hx.
  assert (Fy : Forall (fun s => plain_segment s = true) (xs ++ [x])) by plain_tac.
  assert (Ny : xs ++ [x] <> []) by plain_tac.
  unfold Path.join. cbn [filter].
  rewrite (at_dir_not_empty base lead a L Na Fa Hb), (filter_plain _ Fy). cbn [negb].
  rewrite (concat_with_cons base _ Ny).
  destruct Hb as [-> | ->].
  - rewrite <- path_of_app by (assumption || apply app_not_nil_r; assumption).
    rewrite <- app_assoc.
    apply (normalize_lead lead a [] xs x L Na Fa); [constructor | assumption | assumption].
  - replace ((path_of (lead ++ a) ++ "/") ++ "/" ++ path_of (xs ++ [x]))%string
      with (path_of ((lead ++ a) ++ EmptyString :: xs ++ [x])).
    + rewrite <- app_assoc.
      apply (normalize_lead lead a [EmptyString] xs x L Na Fa);
        [constructor; [right; reflexivity | constructor] | assumption | assumption].
    + rewrite path_of_app by (discriminate || apply app_not_nil_r; assumption).
      rewrite (path_of_cons EmptyString _ Ny), <- append_assoc. reflexivity.
Qed.

Lemma join_lead lead a xs x :
  lead_ok lead -> a <> [] -> Forall (fun s => plain_segment s = true) a ->
  Forall (fun s => plain_segment s = true) xs -> plain_segment x = true ->
  Path.join (path_of (lead ++ a) :: xs ++ [x]) = path_of (lead ++ a ++ xs ++ [x]).
Proof.
  intros L Na Fa. apply join_at; try assumption. left. reflexivity.
Qed.

Lemma join_lead_one lead a x :
  lead_ok lead -> a <> [] -> Forall (fun s => plain_segment s = true) a -> plain_segment x = true ->
  Path.join [path_of (lead ++ a); x] = path_of (lead ++ a ++ [x]).
Proof.
  intros L Na Fa Hx. apply (join_lead lead a [] x L Na Fa); [constructor | assumption].
Qed.

Lemma dirname_cut c0 d x :
  plain_segment x = true ->
  Path.is_slash c0 = false \/ d <> EmptyString ->
  Path.dirname (String c0 (d ++ "/" ++ x)) = String c0 d.
Proof.
  intros Hx Hd.
  pose proof (plain_segment_facts x Hx) as (Ex & Ax & _).
  assert (Ar : Str.all (fun c => negb (Path.is_slash c)) (Str.rev x) = true)
    by (apply all_rev; assumption).
  assert (Er : Str.is_empty (Str.rev x) = false) by (apply rev_not_empty; assumption).
  unfold Path.dirname.
  change (d ++ "/" ++ x)%string with (d ++ String "/" x)%string.
  rewrite rev_append, rev_cons, append_assoc.
  change (String "/" EmptyString ++ Str.rev d)%string with (String "/" (Str.rev d)).
  rewrite (drop_while_keep Path.is_slash).
  2:{ destruct (Str.rev x) as [|y r]; [discriminate Er|].
      cbn [Str.all] in Ar. apply andb_true_iff in Ar as [Ar _].
      apply negb_true_iff in Ar. exact Ar. }
  rewrite all_append, Ar. cbn [Str.all andb].
  change (Path.is_slash "/") with true. cbn [negb andb].
  rewrite (drop_while_all (fun c => negb (Path.is_slash c)) (Str.rev x) "/" (Str.rev d) Ar)
    by reflexivity.
  destruct (Str.rev d) as [|y r] eqn:Ed.
  - assert (d = EmptyString).
    { rewrite <- (rev_involutive d), Ed. reflexivity. }
    subst d. destruct Hd as [-> | N]; [reflexivity | congruence].
  - rewrite <- Ed, rev_involutive. reflexivity.
Qed.

Lemma dirname_lead lead segs x :
  lead_ok lead -> segs <> [] -> Forall (fun s => plain_segment s = true) segs ->
  plain_segment x = true ->
  Path.dirname (path_of (lead ++ segs ++ [x])) = path_of (lead ++ segs).
Proof.
  intros L N F Hx.
  rewrite app_assoc, path_of_last by (apply app_not_nil_r; assumption).
  destruct (path_of_lead lead segs L F N) as (c0 & d & -> & S & _).
  rewrite append_assoc.
  change ((String c0 d) ++ "/" ++ x)%string with (String c0 (d ++ "/" ++ x))%string.
  apply dirname_cut; [assumption|].
  destruct (Path.is_slash c0) eqn:E; [right | left; reflexivity].
  destruct (S eq_refl) as [_ ->].
  pose proof (path_of_not_empty segs N F) as NE.
  intros Z. rewrite Z in NE. discriminate NE.
Qed.

(** *** The file system on such paths *)

Lemma normalize_fold_root lead :
  lead_ok lead -> fold_left (Path.normalize_step true) lead [] = [].
Proof.
  intros [-> | U]; [reflexivity|].
  induction U as [|u ups -> U IH]; [reflexivity | exact IH].
Qed.

Lemma components_lead lead segs :
  lead_ok lead -> segs <> [] -> Forall (fun s => plain_segment s = true) segs ->
  Fs.components (path_of (lead ++ segs)) = segs.
Proof.
  intros L N F. unfold Fs.components.
  rewrite (split_lead lead segs L F N).
  unfold Path.normalize_parts.
  rewrite fold_left_app, (normalize_fold_root lead L).
  apply (normalize_parts_plain true segs F).
Qed.

Lemma resolve_from_lead lead segs t :
  lead_ok lead -> segs <> [] -> Forall (fun s => plain_segment s = true) segs ->
  Fs.resolve_from [] t (lead ++ segs) = descend segs t.
Proof.
  intros L N F.
  assert (Hfile : forall c comps, comps <> [] -> Fs.resolve_from [] (File c) comps = None).
  { intros c [|k comps] Nc; [congruence | reflexivity]. }
  assert (Dfile : forall c, descend segs (File c) = None).
  { intros c. destruct segs; [congruence | reflexivity]. }
  destruct t as [c|es].
  - rewrite Hfile by (apply app_not_nil_r; assumption). symmetry. apply Dfile.
  - destruct L as [-> | U].
    + cbn [app Fs.resolve_from String.eqb orb]. apply resolve_from_plain. assumption.
    + induction U as [|u ups -> U IH]; [apply resolve_from_plain; assumption|].
      cbn [app Fs.resolve_from]. exact IH.
Qed.

Lemma resolve_lead t lead segs :
  lead_ok lead -> segs <> [] -> Forall (fun s => plain_segment s = true) segs ->
  Fs.resolve t (path_of (lead ++ segs)) = descend segs t.
Proof.
  intros L N F. unfold Fs.resolve.
  rewrite (path_of_lead_not_empty lead segs L F N), (split_lead lead segs L F N).
  apply resolve_from_lead; assumption.
Qed.

Lemma write_lead lead segs x c w t1 t2 :
  lead_ok lead -> segs <> [] -> Forall (fun s => plain_segment s = true) segs ->
  plain_segment x = true ->
  Fs.mkdirp segs (fs w) = Some t1 ->
  Fs.put_file (segs ++ [x]) c t1 = Some t2 ->
  write (path_of (lead ++ segs ++ [x])) c w =
  (Ret tt, World t2 (stdout w) (stderr w) (clock w)).
Proof.
  intros L N F Hx H1 H2.
  unfold write, ensureDir, Fs.mkdirSync_recursive, Fs.writeFileSync, bind, get_fs, put_fs.
  rewrite (dirname_lead lead segs x L N F Hx).
  rewrite (components_lead lead segs L N F), H1. cbn [fs stdout stderr clock].
  rewrite (components_lead lead (segs ++ [x]) L), H2; [reflexivity | plain_tac | plain_tac].
Qed.

Lemma write_fresh_lead lead sa x c w :
  lead_ok lead -> fs w = Dir [] ->
  Forall (fun s => plain_segment s = true) sa -> sa <> [] -> plain_segment x = true ->
  write (path_of (lead ++ sa ++ [x])) c w =
  (Ret tt, World (nest sa (Dir [(x, File c)])) (stdout w) (stderr w) (clock w)).
Proof.
  intros L Hfs F N Hx.
  apply (write_lead lead sa x c w (nest sa (Dir []))); try assumption.
  - rewrite Hfs. apply mkdirp_fresh.
  - rewrite put_file_nest by discriminate. reflexivity.
Qed.

Lemma write_into_nest_lead lead sa x c w es es' :
  lead_ok lead -> fs w = nest sa (Dir es) ->
  Forall (fun s => plain_segment s = true) sa -> sa <> [] -> plain_segment x = true ->
  Fs.put_file [x] c (Dir es) = Some (Dir es') ->
  write (path_of (lead ++ sa ++ [x])) c w =
  (Ret tt, World (nest sa (Dir es')) (stdout w) (stderr w) (clock w)).
Proof.
  intros L Hfs F N Hx Hp.
  apply (write_lead lead sa x c w (nest sa (Dir es))); try assumption.
  - rewrite Hfs. rewrite <- (app_nil_r sa) at 1.
    rewrite mkdirp_nest. reflexivity.
  - rewrite put_file_nest by discriminate. rewrite Hp. reflexivity.
Qed.

Lemma write_into_nest_sub_lead lead sa d x c w es es1 es' :
  lead_ok lead -> fs w = nest sa (Dir es) ->
  Forall (fun s => plain_segment s = true) sa -> sa <> [] ->
  plain_segment d = true -> plain_segment x = true ->
  Fs.mkdirp [d] (Dir es) = Some (Dir es1) ->
  Fs.put_file [d; x] c (Dir es1) = Some (Dir es') ->
  write (path_of (lead ++ sa ++ [d] ++ [x])) c w =
  (Ret tt, World (nest sa (Dir es')) (stdout w) (stderr w) (clock w)).
Proof.
  intros L Hfs F N Hd Hx Hm Hp.
  rewrite (app_assoc sa [d] [x]).
  apply (write_lead lead (sa ++ [d]) x c w (nest sa (Dir es1))); try assumption.
  - destruct sa; discriminate.
  - apply Forall_plain_app; [assumption | repeat constructor; assumption].
  - rewrite Hfs, mkdirp_nest, Hm. reflexivity.
  - rewrite <- app_assoc. cbn [app].
    rewrite put_file_nest by discriminate. rewrite Hp. reflexivity.
Qed.

(** ** Scaffolding at any root *)

(** What [init model] leaves in an empty tree when [path.join] puts the
    entry at the directory [sa], reached through [lead]. *)
Lemma cmdInitModel_at rest w root lead sa m slug id name v :
  fs w = Dir [] ->
  argValue rest "--root" (Some ".") = Some root ->
  argValue rest "--modality" None = Some m -> In m modalities ->
  argValue rest "--slug" None = Some slug -> Str.is_empty slug = false ->
  argValue rest "--id" None = Some id -> Str.is_empty id = false ->
  argValue rest "--name" (Some slug) = Some name ->
  argValue rest "--version" (Some "0.1.0") = Some v -> test SEMVER_RE v = true ->
  lead_ok lead -> Forall (fun s => plain_segment s = true) sa -> sa <> [] ->
  at_dir (Path.join [root; "models"; m; slug]) (lead ++ sa) ->
  exists modelJson versionJson notes,
    cmdInitModel rest w =
    (Ret 0%Z,
     World (scaffolded_tree sa v modelJson versionJson notes)
           (stdout w ++ [("Scaffolded: " ++ Path.join [root; "models"; m; slug])%string])
           (stderr w) (clock w)) /\
    field modelJson "id" = Some (VStr id) /\
    field modelJson "name" = Some (VStr name) /\
    field modelJson "modality" = Some (VStr m) /\
    (exists o, field modelJson "owner" = Some (VObj o)) /\
    field modelJson "createdAt" = Some (VStr (clock w)) /\
    field modelJson "version" = Some (VStr v) /\
    field versionJson "modelId" = Some (VStr id) /\
    field versionJson "version" = Some (VStr v) /\
    artifact_digest versionJson = Some (VStr zero_digest).
Proof.
  intros Hfs Hroot Hm Hin Hslug Hsn Hid Hidn Hname Hv Hsv L Fsa Nsa Hb.
  pose proof (modality_plain m Hin) as Hmp.
  pose proof (semver_file_plain v Hsv) as Hvp.
  assert (Hvn : Str.is_empty v = false).
  { apply SEMVER_RE_lang, semver_length in Hsv. destruct v; [simpl in Hsv; lia | reflexivity]. }
  set (base := Path.join [root; "models"; m; slug]) in *.
  assert (J1 : Path.join [base; "model.json"] = path_of (lead ++ sa ++ ["model.json"])).
  { apply (join_at base lead sa [] "model.json"); plain_tac. }
  assert (J2 : Path.join [base; "versions"; (v ++ ".json")%string]
               = path_of (lead ++ sa ++ ["versions"] ++ [(v ++ ".json")%string])).
  { apply (join_at base lead sa ["versions"] (v ++ ".json")); plain_tac. }
  assert (J3 : Path.join [base; "PERFORMANCE.md"] = path_of (lead ++ sa ++ ["PERFORMANCE.md"])).
  { apply (join_at base lead sa [] "PERFORMANCE.md"); plain_tac. }
  unfold cmdInitModel. cbv zeta.
  rewrite Hm, Hslug, Hid, Hv, Hroot.
  cbn [truthy_str defined].
  rewrite (plain_not_empty m Hmp), Hsn, Hidn, Hvn, Hsv.
  cbn [negb]. rewrite (modality_listed m Hin), Hname.
  rewrite (argValue_fallback rest "--owner"), (argValue_fallback rest "--owner-name").
  cbn [negb orb prop app when bind ret path_arg now_iso].
  fold base. rewrite J1, J2, J3.
  do 3 eexists. split.
  - erewrite bind_run;
      [| apply (write_fresh_lead lead sa "model.json" _ w L Hfs Fsa Nsa); reflexivity].
    erewrite bind_run;
      [| eapply (write_into_nest_sub_lead lead sa "versions" (v ++ ".json"));
         [ exact L | reflexivity | assumption | assumption | reflexivity | assumption
         | reflexivity | reflexivity ]].
    erewrite bind_run;
      [| eapply (write_into_nest_lead lead sa "PERFORMANCE.md");
         [ exact L | reflexivity | assumption | assumption | reflexivity | reflexivity ]].
    reflexivity.
  - cbn. repeat split; try reflexivity. eexists. reflexivity.
Qed.

(** ** Walking the scaffold *)

Lemma nest_cons t tail n : nest (t :: tail) n = Dir [(t, nest tail n)].
Proof. reflexivity. Qed.

Lemma nest_is_dir tail es : exists es', nest tail (Dir es) = Dir es'.
Proof. destruct tail; eexists; reflexivity. Qed.

Lemma walk_node_nest lead tail : forall dir es,
  lead_ok lead -> dir <> [] -> Forall (fun s => plain_segment s = true) dir ->
  Forall (fun s => plain_segment s = true) tail ->
  walk_node (path_of (lead ++ dir)) (nest tail (Dir es))
  = walk_node (path_of (lead ++ dir ++ tail)) (Dir es).
Proof.
  induction tail as [|t tail IH]; intros dir es L N F Ft.
  - rewrite app_nil_r. reflexivity.
  - inversion Ft as [|? ? Ht Ft']; subst.
    set (R := walk_node (path_of (lead ++ dir ++ t :: tail)) (Dir es)).
    rewrite nest_cons.
    destruct (nest_is_dir tail es) as (es' & E).
    cbn [walk_node]. rewrite E, <- E, app_nil_r.
    rewrite (join_lead_one lead dir t L N F Ht).
    rewrite IH by plain_tac.
    subst R. rewrite <- app_assoc. reflexivity.
Qed.

Lemma walk_node_entry lead dir v mj vj notes :
  lead_ok lead -> dir <> [] -> Forall (fun s => plain_segment s = true) dir ->
  plain_segment (v ++ ".json") = true ->
  walk_node (path_of (lead ++ dir))
    (Dir [("model.json", File (Json mj));
          ("versions", Dir [((v ++ ".json")%string, File (Json vj))]);
          ("PERFORMANCE.md", File (Plain notes))])
  = [path_of (lead ++ dir ++ ["model.json"]);
     path_of (lead ++ dir ++ ["versions"; (v ++ ".json")%string]);
     path_of (lead ++ dir ++ ["PERFORMANCE.md"])].
Proof.
  intros L N F Hv.
  cbn [walk_node app].
  rewrite (join_lead_one lead dir "model.json" L N F) by plain_tac.
  rewrite (join_lead_one lead dir "PERFORMANCE.md" L N F) by plain_tac.
  rewrite (join_lead_one lead dir "versions" L N F) by plain_tac.
  rewrite (join_lead_one lead (dir ++ ["versions"]) (v ++ ".json") L) by plain_tac.
  rewrite <- !app_assoc. reflexivity.
Qed.

Lemma eval_readdir_lead w lead segs es :
  lead_ok lead -> segs <> [] -> Forall (fun s => plain_segment s = true) segs ->
  descend segs (fs w) = Some (Dir es) ->
  eval (Fs.readdirSync (path_of (lead ++ segs))) w = Ret es.
Proof.
  intros L N F D. unfold eval, Fs.readdirSync, bind, get_fs.
  rewrite (resolve_lead (fs w) lead segs L N F), D. reflexivity.
Qed.

Lemma eval_parseJson_lead w lead segs doc :
  lead_ok lead -> segs <> [] -> Forall (fun s => plain_segment s = true) segs ->
  descend segs (fs w) = Some (File (Json doc)) ->
  eval (parseJson (path_of (lead ++ segs))) w = Ret doc.
Proof.
  intros L N F D. unfold eval. rewrite parseJson_run.
  unfold eval, Fs.readFileSync, bind, get_fs.
  rewrite (resolve_lead (fs w) lead segs L N F), D. reflexivity.
Qed.

Lemma eval_stat_file_lead w lead segs c :
  lead_ok lead -> segs <> [] -> Forall (fun s => plain_segment s = true) segs ->
  descend segs (fs w) = Some (File c) ->
  eval (Fs.statSync (path_of (lead ++ segs))) w = Ret Fs.IsFile.
Proof.
  intros L N F D. unfold eval, Fs.statSync, bind, get_fs.
  rewrite (resolve_lead (fs w) lead segs L N F), D. reflexivity.
Qed.

Lemma walk_scaffolded_at w lead md tail v mj vj notes :
  fs w = scaffolded_tree (md ++ tail) v mj vj notes ->
  lead_ok lead -> md <> [] -> Forall (fun s => plain_segment s = true) md ->
  Forall (fun s => plain_segment s = true) tail ->
  test SEMVER_RE v = true ->
  eval (walk (path_of (lead ++ md))) w =
  Ret [path_of (lead ++ (md ++ tail) ++ ["model.json"]);
       path_of (lead ++ (md ++ tail) ++ ["versions"; (v ++ ".json")%string]);
       path_of (lead ++ (md ++ tail) ++ ["PERFORMANCE.md"])].
Proof.
  intros Hfs L N F Ft Hv.
  pose proof (semver_file_plain v Hv) as Hvp.
  destruct (nest_is_dir tail
              [("model.json", File (Json mj));
               ("versions", Dir [((v ++ ".json")%string, File (Json vj))]);
               ("PERFORMANCE.md", File (Plain notes))]) as (es & E).
  unfold eval, walk.
  rewrite (bind_readonly _ _ w (readonly_readdirSync _)).
  rewrite (eval_readdir_lead w lead md es L N F).
  2:{ rewrite Hfs. unfold scaffolded_tree. rewrite nest_app.
      rewrite <- (app_nil_r md) at 1. rewrite descend_nest, E. reflexivity. }
  cbn [ret fst]. rewrite <- E.
  rewrite (walk_node_nest lead tail md _ L N F Ft).
  assert (Nmt : md ++ tail <> []) by (destruct md; [congruence | discriminate]).
  rewrite (walk_node_entry lead (md ++ tail) v mj vj notes L Nmt) by plain_tac.
  reflexivity.
Qed.

(** ** Validating the scaffold at any root *)

Lemma lead_not_models lead : lead_ok lead -> ~ In "models" lead.
Proof.
  intros [-> | U] H.
  - destruct H as [H | []]. discriminate H.
  - rewrite Forall_forall in U. specialize (U _ H). discriminate U.
Qed.

(** The modality segment of a model file whose first [models] component
    is followed by [m]. *)
Lemma folderModality_at lead sa m :
  lead_ok lead -> Forall (fun s => plain_segment s = true) sa ->
  (exists pre post, sa ++ ["model.json"] = pre ++ "models" :: m :: post /\
                    ~ In "models" pre) ->
  folderModality (path_of (lead ++ sa ++ ["model.json"])) = Some m.
Proof.
  intros L F (pre & post & E & N).
  apply (folderModality_after_models _ (lead ++ pre) m post).
  - rewrite (path_parts_lead lead (sa ++ ["model.json"]) L) by plain_tac.
    rewrite E, <- app_assoc. reflexivity.
  - intros H. apply in_app_or in H as [H | H]; [exact (lead_not_models lead L H) | exact (N H)].
Qed.

Section EntryAt.

Variable lead sa : list string.
Variable v : string.
Hypothesis L : lead_ok lead.
Hypothesis Hsa : Forall (fun s => plain_segment s = true) sa.
Hypothesis Hne : sa <> [].
Hypothesis Hv : test SEMVER_RE v = true.
Hypothesis Hnot_model : Str.endsWith v "model" = false.

Local Notation D := (path_of (lead ++ sa) ++ "/")%string.
Local Notation MF := (path_of (lead ++ sa ++ ["model.json"])).
Local Notation VF := (path_of (lead ++ sa ++ ["versions"; (v ++ ".json")%string])).
Local Notation PF := (path_of (lead ++ sa ++ ["PERFORMANCE.md"])).

Lemma entry_file x : path_of (lead ++ sa ++ [x]) = (D ++ x)%string.
Proof. rewrite app_assoc. apply path_of_last. apply app_not_nil_r. assumption. Qed.

Lemma entry_VF : VF = ((D ++ "versions/") ++ (v ++ ".json"))%string.
Proof.
  rewrite app_assoc, path_of_app by (discriminate || apply app_not_nil_r; assumption).
  change (path_of ["versions"; (v ++ ".json")%string])
    with ("versions" ++ "/" ++ (v ++ ".json"))%string.
  rewrite !append_assoc. reflexivity.
Qed.

Lemma entry_VF_dir : VF = ((D ++ "versions") ++ "/" ++ (v ++ ".json"))%string.
Proof. rewrite entry_VF, !append_assoc. reflexivity. Qed.

Lemma entry_modelFiles : modelFiles [MF; VF; PF] = [MF].
Proof.
  unfold modelFiles. cbn [filter].
  replace (Str.endsWith MF "model.json") with true
    by (symmetry; rewrite entry_file; apply endsWith_append).
  replace (Str.endsWith VF "model.json") with false.
  2:{ symmetry. rewrite entry_VF.
      rewrite endsWith_long by exact (scaffold_version_length v Hv).
      rewrite endsWith_json. exact Hnot_model. }
  replace (Str.endsWith PF "model.json") with false.
  2:{ symmetry. rewrite entry_file.
      rewrite endsWith_long by (simpl; lia). reflexivity. }
  reflexivity.
Qed.

Lemma entry_versionsDir : versionsDir MF = path_of (lead ++ sa ++ ["versions"]).
Proof. rewrite !entry_file. apply versionsDir_beside. Qed.

Lemma entry_perfPath : Str.replace_suffix "model.json" "PERFORMANCE.md" MF = PF.
Proof. rewrite !entry_file. apply perfPath_beside. Qed.

Lemma entry_matching : matching (versionFiles [MF; VF; PF]) MF = [VF].
Proof.
  pose proof (semver_file_plain v Hv) as Hvp.
  assert (Tm : to_slashes MF = MF) by (apply to_slashes_lead; plain_tac).
  assert (Tv : to_slashes VF = VF) by (apply to_slashes_lead; plain_tac).
  assert (Td : to_slashes (versionsDir MF) = versionsDir MF).
  { rewrite entry_versionsDir. apply to_slashes_lead; plain_tac. }
  assert (S1 : Str.startsWith MF (versionsDir MF) = false).
  { rewrite entry_versionsDir, !entry_file. rewrite startsWith_common. reflexivity. }
  assert (S2 : Str.startsWith VF (versionsDir MF) = true).
  { rewrite entry_versionsDir, entry_file, entry_VF_dir. apply startsWith_append. }
  assert (V2 : versions_dir_test VF && Str.endsWith VF ".json" = true).
  { apply andb_true_iff. split.
    - unfold versions_dir_test. apply orb_true_iff. left.
      rewrite entry_VF, !append_assoc. do 2 apply includes_append. apply includes_prefix.
    - rewrite entry_VF, <- append_assoc. apply endsWith_append. }
  assert (V3 : versions_dir_test PF && Str.endsWith PF ".json" = false).
  { apply andb_false_iff. right. rewrite entry_file.
    rewrite endsWith_long by (simpl; lia). reflexivity. }
  unfold matching, versionFiles. cbn [filter]. rewrite V2, V3.
  destruct (versions_dir_test MF && Str.endsWith MF ".json");
    cbn [filter List.map]; rewrite ?Tm, ?Tv, ?Td, ?S1, S2; cbn [List.map];
    rewrite Tv; reflexivity.
Qed.

Lemma entry_expectedFile : expectedFile MF v = VF.
Proof.
  pose proof (semver_file_plain v Hv) as Hvp.
  unfold expectedFile. rewrite entry_versionsDir, app_assoc.
  rewrite <- (app_assoc lead sa ["versions"]).
  rewrite (join_lead_one lead (sa ++ ["versions"]) (v ++ ".json") L) by plain_tac.
  rewrite <- !app_assoc. apply to_slashes_lead; plain_tac.
Qed.

Lemma entry_versionFromFile : versionFromFile VF = Some v.
Proof.
  apply versionFromFile_stem. split.
  - pose proof (semver_no_separator v Hv) as S.
    eapply all_weaken; [|exact S]. intros c Hc. cbn beta in Hc.
    apply negb_true_iff in Hc. apply orb_false_iff in Hc as [_ Hc]. rewrite Hc. reflexivity.
  - right. exists (D ++ "versions")%string. apply entry_VF_dir.
Qed.

End EntryAt.

Section RoundTripAt.

Variable Date_parse : string -> option Z.
Variable cmdDigest cmdPublish : list string -> M Z.

Local Notation Run := (run Date_parse cmdDigest cmdPublish).

Lemma validate_at vrest w root lead md tail m v modelJson versionJson notes id name o :
  no_help (validate_args vrest) ->
  argValue vrest "--root" (Some ".") = Some root ->
  Path.join [root; "models"] = path_of (lead ++ md) ->
  lead_ok lead -> md <> [] -> Forall (fun s => plain_segment s = true) md ->
  Forall (fun s => plain_segment s = true) tail ->
  folderModality (path_of (lead ++ (md ++ tail) ++ ["model.json"])) = Some m ->
  fs w = scaffolded_tree (md ++ tail) v modelJson versionJson notes ->
  In m modalities ->
  test SEMVER_RE v = true -> Str.endsWith v "model" = false ->
  nonblank (Some (VStr id)) = true ->
  nonblank (Some (VStr name)) = true ->
  isIsoDate Date_parse (clock w) = true ->
  field modelJson "id" = Some (VStr id) ->
  field modelJson "name" = Some (VStr name) ->
  field modelJson "modality" = Some (VStr m) ->
  field modelJson "owner" = Some (VObj o) ->
  field modelJson "createdAt" = Some (VStr (clock w)) ->
  field modelJson "version" = Some (VStr v) ->
  field versionJson "modelId" = Some (VStr id) ->
  field versionJson "version" = Some (VStr v) ->
  artifact_digest versionJson = Some (VStr zero_digest) ->
  Run (validate_args vrest) w =
  (0%Z, with_output w "OK: models registry validation passed.").
Proof.
  intros Hh Hroot Hdir L Nmd Fmd Ftail Hfolder Hfs Hm Hv Hnot Hid Hname Hdate
         Fid Fname Fmod Fown Fcreated Fver Gid Gver Gdig.
  pose proof (semver_file_plain v Hv) as Hvp.
  set (sa := md ++ tail) in *.
  assert (Fsa : Forall (fun s => plain_segment s = true) sa) by (subst sa; plain_tac).
  assert (Nsa : sa <> []) by (subst sa; destruct md; [congruence | discriminate]).
  assert (Dm : descend (sa ++ ["model.json"]) (fs w) = Some (File (Json modelJson))).
  { rewrite Hfs. unfold scaffolded_tree. rewrite descend_nest. reflexivity. }
  assert (Dp : descend (sa ++ ["PERFORMANCE.md"]) (fs w) = Some (File (Plain notes))).
  { rewrite Hfs. unfold scaffolded_tree. rewrite descend_nest. reflexivity. }
  assert (Dv : descend (sa ++ ["versions"; (v ++ ".json")%string]) (fs w)
               = Some (File (Json versionJson))).
  { rewrite Hfs. unfold scaffolded_tree. rewrite descend_nest.
    cbn [descend assoc].
    change (String.eqb "versions" "model.json") with false.
    change (String.eqb "versions" "versions") with true.
    cbn [descend assoc]. rewrite String.eqb_refl. reflexivity. }
  assert (Ep : eval (Fs.statSync (path_of (lead ++ sa ++ ["PERFORMANCE.md"]))) w
               = Ret Fs.IsFile).
  { apply (eval_stat_file_lead w lead _ (Plain notes) L); [plain_tac | plain_tac | exact Dp]. }
  apply (run_validate_passes Date_parse cmdDigest cmdPublish vrest w
           [path_of (lead ++ sa ++ ["model.json"]);
            path_of (lead ++ sa ++ ["versions"; (v ++ ".json")%string]);
            path_of (lead ++ sa ++ ["PERFORMANCE.md"])] Hh).
  - unfold modelsDir. rewrite Hroot. cbn [defined]. rewrite Hdir.
    apply (walk_scaffolded_at w lead md tail v modelJson versionJson notes); assumption.
  - rewrite (entry_modelFiles lead sa v) by assumption. discriminate.
  - rewrite (entry_modelFiles lead sa v) by assumption. intros mf [<- | []].
    rewrite (validate_model_after_fields Date_parse _ _ w modelJson).
    + rewrite Hfolder, Fmod.
      cbn [option_map strict_eq]. rewrite String.eqb_refl. cbn [negb].
      rewrite (entry_perfPath lead sa) by assumption.
      rewrite Ep.
      rewrite (entry_matching lead sa v) by assumption.
      cbn [List.length Nat.ltb Nat.leb negb].
      rewrite Fver. cbn [as_string].
      rewrite (entry_expectedFile lead sa v) by assumption.
      cbn [existsb]. rewrite String.eqb_refl. cbn [orb negb].
      unfold eval. cbn [for_of].
      rewrite (bind_readonly _ _ w (readonly_validate_version _ _)).
      rewrite (validate_version_spec _ _ w versionJson).
      * unfold first_violated, version_checks. cbn [find version_check_holds].
        rewrite Fid, Gid, Gver, Gdig.
        rewrite (entry_versionFromFile lead sa v) by assumption.
        cbn [strict_eq option_map typeof as_string]. rewrite !String.eqb_refl, Hv.
        replace (test SHA256_RE zero_digest) with true by (vm_compute; reflexivity).
        destruct versionJson; try discriminate Gid. reflexivity.
      * apply (eval_parseJson_lead w lead _ versionJson L); [plain_tac | plain_tac | exact Dv].
    + apply (eval_parseJson_lead w lead _ modelJson L); [plain_tac | plain_tac | exact Dm].
    + unfold field_checks. rewrite Fid, Fname, Fmod, Fown, Fcreated, Fver.
      rewrite Hid, Hname, (includes_modality m Hm).
      cbn [truthy typeof as_string andb]. rewrite !String.eqb_refl, Hdate, Hv.
      reflexivity.
Qed.


End RoundTripAt.



(** ** The format validators *)

Lemma count_append c a b : Str.count c (a ++ b) = Str.count c a + Str.count c b.
Proof. induction a as [|x a IH]; simpl; [reflexivity | rewrite IH; lia]. Qed.

Lemma digit_not_dot c : Str.is_digit c = true -> Ascii.eqb c "." = false.
Proof.
  destruct c as [[] [] [] [] [] [] [] []]; vm_compute; intros H;
    first [reflexivity | discriminate H].
Qed.

Lemma digits_no_dot s : Str.all Str.is_digit s = true -> Str.count "." s = 0.
Proof.
  induction s as [|c s IH]; simpl; [reflexivity|]. intros H.
  apply andb_true_iff in H as [H1 H2].
  rewrite (digit_not_dot c H1), (IH H2). reflexivity.
Qed.

Lemma semver_two_dots s : semver_form s -> 2 <= Str.count "." s.
Proof.
  intros (major & minor & patch & pre & build & -> & _).
  rewrite !count_append. simpl. lia.
Qed.

(** C2, as the program has it.  The digest check accepts a string if and
    only if it is [sha256:], in any mix of upper and lower case, followed
    by exactly 64 hexadecimal characters of either case, with nothing
    before or after: a run of 63 or of 65, or a character that is not
    hexadecimal, is rejected.  Every string with the lowercase prefix and
    such a run is accepted. *)
Theorem C2_digest_check :
  (forall s, test SHA256_RE s = true <-> digest_form s) /\
  (forall s, digest_form_lowercase_prefix s -> test SHA256_RE s = true) /\
  test SHA256_RE ("sha256:" ++ Str.repeat "a" 64) = true /\
  test SHA256_RE ("sha256:" ++ Str.repeat "A" 64) = true /\
  test SHA256_RE ("sha256:" ++ Str.repeat "0" 63) = false /\
  test SHA256_RE ("sha256:" ++ Str.repeat "0" 65) = false /\
  test SHA256_RE ("sha256:" ++ Str.repeat "0" 63 ++ "g") = false /\
  test SHA256_RE (" sha256:" ++ Str.repeat "0" 64) = false /\
  test SHA256_RE ("sha256:" ++ Str.repeat "0" 64 ++ lf) = false.
Proof.
  split; [exact SHA256_RE_lang|]. split.
  - intros s (h & -> & L & A). apply SHA256_RE_lang.
    exists "sha256:"%string, h. auto.
  - repeat split; vm_compute; reflexivity.
Qed.

Lemma C2_digest_check_witness :
  digest_form_lowercase_prefix zero_digest /\ test SHA256_RE zero_digest = true.
Proof.
  assert (H : digest_form_lowercase_prefix zero_digest).
  { exists (Str.repeat "0" 64). repeat split. }
  split; [exact H|].
  exact (proj1 (proj2 C2_digest_check) zero_digest H).
Defined.

(** C2 as stated fails: the prefix is matched without regard to case too,
    so [SHA256:] and 64 zeros is accepted although it does not start with
    the lowercase [sha256:]. *)
Lemma C2_uppercase_prefix_accepted :
  test SHA256_RE ("SHA256:" ++ Str.repeat "0" 64) = true /\
  ~ digest_form_lowercase_prefix ("SHA256:" ++ Str.repeat "0" 64).
Proof.
  split; [vm_compute; reflexivity|].
  intros (h & E & _). simpl in E. discriminate E.
Qed.

(** C6.  The SemVer check accepts exactly the strings
    [MAJOR.MINOR.PATCH], each component a non-empty run of decimal digits
    (leading zeros allowed), optionally followed by [-] and a non-empty
    run of alphanumerics, dots and hyphens, then optionally by [+] and
    such a run, with nothing before or after.  A string with fewer than
    three components is rejected, and so is one that holds a character
    other than an alphanumeric, a dot, a hyphen or a plus sign (white
    space, a line end); a component that is not a number and trailing text
    are rejected. *)
Theorem C6_semver_check :
  (forall s, test SEMVER_RE s = true <-> semver_form s) /\
  (forall a, numeric a -> test SEMVER_RE a = false) /\
  (forall a b, numeric a -> numeric b -> test SEMVER_RE (a ++ "." ++ b) = false) /\
  (forall s, Str.all is_semver_char s = false -> test SEMVER_RE s = false) /\
  test SEMVER_RE "1.2.3" = true /\
  test SEMVER_RE "01.002.0003" = true /\
  test SEMVER_RE "1.2.3-rc.1+build-5.x" = true /\
  test SEMVER_RE "1.2" = false /\
  test SEMVER_RE "1..3" = false /\
  test SEMVER_RE "1.x.3" = false /\
  test SEMVER_RE "-1.2.3" = false /\
  test SEMVER_RE "1.2.3 " = false /\
  test SEMVER_RE "1.2.3-" = false /\
  test SEMVER_RE "1.2.3-rc_1" = false /\
  test SEMVER_RE ("1.2.3" ++ lf) = false.
Proof.
  split; [exact SEMVER_RE_lang|]. split; [|split; [|split]].
  - intros a [_ A]. destruct (test SEMVER_RE a) eqn:T; [|reflexivity].
    apply SEMVER_RE_lang, semver_two_dots in T.
    rewrite (digits_no_dot a A) in T. lia.
  - intros a b [_ A] [_ B]. destruct (test SEMVER_RE (a ++ "." ++ b)) eqn:T; [|reflexivity].
    apply SEMVER_RE_lang, semver_two_dots in T.
    rewrite !count_append, (digits_no_dot a A), (digits_no_dot b B) in T.
    simpl in T. lia.
  - intros s A. destruct (test SEMVER_RE s) eqn:T; [|reflexivity].
    apply SEMVER_RE_lang, semver_chars in T. congruence.
  - repeat split; vm_compute; reflexivity.
Qed.

Lemma C6_semver_check_witness :
  numeric "12" /\ numeric "7" /\
  test SEMVER_RE "12" = false /\
  test SEMVER_RE ("12" ++ "." ++ "7") = false /\
  Str.all is_semver_char "1.2.3 beta" = false /\
  test SEMVER_RE "1.2.3 beta" = false.
Proof.
  assert (N1 : numeric "12") by (split; [discriminate | reflexivity]).
  assert (N2 : numeric "7") by (split; [discriminate | reflexivity]).
  assert (G : Str.all is_semver_char "1.2.3 beta" = false) by reflexivity.
  split; [exact N1|]. split; [exact N2|].
  split; [exact (proj1 (proj2 C6_semver_check) "12" N1)|].
  split; [exact (proj1 (proj2 (proj2 C6_semver_check)) "12" "7" N1 N2)|].
  split; [exact G|].
  exact (proj1 (proj2 (proj2 (proj2 C6_semver_check))) "1.2.3 beta" G).
Defined.

(* ================================================================== *)
(** * Command line *)
(* ================================================================== *)

(** ** Flags *)

Lemma indexOf_absent args name : ~ In name args -> indexOf args name = None.
Proof.
  induction args as [|a args IH]; intros N; [reflexivity|].
  cbn [indexOf]. destruct (String.eqb a name) eqn:E.
  - apply String.eqb_eq in E. exfalso. apply N. left. assumption.
  - rewrite IH; [reflexivity|]. intros H. apply N. right. assumption.
Qed.

(** X1.  [argValue] looks at the first occurrence of the flag only and
    returns the token that follows it, whatever that token is; when the
    flag is absent, or is the last token, it returns the fallback. *)
Theorem argValue_first_occurrence pre name fallback :
  ~ In name pre ->
  argValue pre name fallback = fallback /\
  argValue (pre ++ [name]) name fallback = fallback /\
  (forall v post, argValue (pre ++ name :: v :: post) name fallback = Some v).
Proof.
  intros N. unfold argValue. split; [|split].
  - rewrite (indexOf_absent pre name N). reflexivity.
  - rewrite (indexOf_first pre name [] N).
    replace (nth_error (pre ++ [name]) (List.length pre + 1)) with (@None string);
      [reflexivity|].
    symmetry. apply nth_error_None. rewrite length_app. simpl. lia.
  - intros v post. rewrite (indexOf_first pre name (v :: post) N).
    rewrite nth_error_app2 by lia.
    replace (List.length pre + 1 - List.length pre) with 1 by lia. reflexivity.
Qed.

Lemma argValue_first_occurrence_witness :
  argValue ["--root"; "x"] "--slug" None = None /\
  argValue (["--root"; "x"] ++ ["--slug"]) "--slug" None = None /\
  (forall v post,
     argValue (["--root"; "x"] ++ "--slug" :: v :: post) "--slug" None = Some v).
Proof.
  apply (argValue_first_occurrence ["--root"; "x"] "--slug" None).
  intros [H | [H | []]]; discriminate H.
Defined.

(** ** The dispatcher and any handlers *)

Section Dispatcher.

Variable Date_parse : string -> option Z.
Variable digest_handler publish_handler : list string -> M Z.

Local Notation Run := (run Date_parse digest_handler publish_handler).

Lemma run_dispatch args w key h :
  args <> [] -> no_help args ->
  command_key (nth_error args 0) (nth_error args 1) = Some key ->
  assoc key (commands Date_parse digest_handler publish_handler) = Some h ->
  Run args w = finish (h (skipn 2 args) w).
Proof.
  intros Hn [H1 H2] Hk Hh. unfold run, program, try_catch, main.
  rewrite H1, H2. destruct args as [|a args]; [congruence|].
  cbn [List.length Nat.eqb orb]. rewrite Hk, Hh.
  unfold bind, finish.
  destruct (h (skipn 2 (a :: args)) w) as [[c|e|c] w']; reflexivity.
Qed.

Lemma run_unknown args w :
  args <> [] -> no_help args ->
  command_key (nth_error args 0) (nth_error args 1) = None ->
  Run args w =
  (1%Z, World (fs w) (stdout w ++ [help]) (stderr w ++ ["Unknown command."]) (clock w)).
Proof.
  intros Hn [H1 H2] Hk. unfold run, program, try_catch, main.
  rewrite H1, H2. destruct args as [|a args]; [congruence|].
  cbn [List.length Nat.eqb orb]. rewrite Hk. reflexivity.
Qed.

Lemma no_help_cons a args :
  a <> "--help" -> a <> "-h" -> no_help args -> no_help (a :: args).
Proof.
  intros Ha Hb [H1 H2]. unfold no_help. cbn [hasFlag existsb].
  fold (hasFlag args "--help"). fold (hasFlag args "-h"). rewrite H1, H2.
  apply String.eqb_neq in Ha, Hb. rewrite Ha, Hb. split; reflexivity.
Qed.

(** X2.  A first token other than [digest] and [publish], unless it is
    [init] followed by [model] or [validate] followed by [models], is an
    unknown command: the run prints [Unknown command.] on the error
    stream and the usage text on the output stream, ends with status 1
    and calls no handler, so the file tree is left as it was. *)
Theorem unknown_command_rejected c1 rest w :
  no_help (c1 :: rest) ->
  c1 <> "digest" -> c1 <> "publish" ->
  (c1 = "init" -> nth_error rest 0 <> Some "model") ->
  (c1 = "validate" -> nth_error rest 0 <> Some "models") ->
  Run (c1 :: rest) w =
  (1%Z, World (fs w) (stdout w ++ [help]) (stderr w ++ ["Unknown command."]) (clock w)).
Proof.
  intros Hh Hd Hp Hi Hv. apply run_unknown; [discriminate | assumption |].
  change (nth_error (c1 :: rest) 0) with (Some c1).
  change (nth_error (c1 :: rest) 1) with (nth_error rest 0).
  destruct (nth_error rest 0) as [c2|]; unfold command_key;
    apply String.eqb_neq in Hd, Hp; rewrite Hd, Hp.
  - destruct (String.eqb c1 "init") eqn:Ei; cbn [andb].
    + apply String.eqb_eq in Ei. specialize (Hi Ei).
      destruct (String.eqb c2 "model") eqn:E2.
      * apply String.eqb_eq in E2. subst c2. congruence.
      * destruct (String.eqb c1 "validate") eqn:Ev; [|reflexivity].
        apply String.eqb_eq in Ev. subst c1. discriminate Ev.
    + destruct (String.eqb c1 "validate") eqn:Ev; [|reflexivity].
      apply String.eqb_eq in Ev. specialize (Hv Ev). cbn [andb].
      destruct (String.eqb c2 "models") eqn:E2; [|reflexivity].
      apply String.eqb_eq in E2. subst c2. congruence.
  - rewrite !andb_false_r. reflexivity.
Qed.

Lemma run_digest_handler x rest w :
  no_help (x :: rest) ->
  Run ("digest" :: x :: rest) w = finish (digest_handler rest w).
Proof.
  intros Hh.
  apply (run_dispatch ("digest" :: x :: rest) w "digest" digest_handler);
    [discriminate | apply no_help_cons; [discriminate | discriminate | assumption]
    | reflexivity | reflexivity].
Qed.

Lemma run_publish_handler x rest w :
  no_help (x :: rest) ->
  Run ("publish" :: x :: rest) w = finish (publish_handler rest w).
Proof.
  intros Hh.
  apply (run_dispatch ("publish" :: x :: rest) w "publish" publish_handler);
    [discriminate | apply no_help_cons; [discriminate | discriminate | assumption]
    | reflexivity | reflexivity].
Qed.

(** X3.  The dispatcher hands every handler the arguments from the third
    token on, also the handlers of the one-word commands [digest] and
    [publish]: the token that follows the command name never reaches
    them.  The run ends with the status the handler returns, or with
    status 1 and the message of the exception the handler lets escape on
    the error stream. *)
Theorem one_word_commands_drop_a_token x rest w :
  no_help (x :: rest) ->
  Run ("digest" :: x :: rest) w = finish (digest_handler rest w) /\
  Run ("publish" :: x :: rest) w = finish (publish_handler rest w).
Proof.
  intros Hh. split; [apply run_digest_handler | apply run_publish_handler]; assumption.
Qed.

End Dispatcher.

Lemma unknown_command_rejected_witness :
  run Date_parse_example cmd_example cmd_example ["init"; "models"] world_valid =
  (1%Z, World (fs world_valid) [help] ["Unknown command."] (clock world_valid)).
Proof.
  apply (unknown_command_rejected Date_parse_example cmd_example cmd_example
           "init" ["models"] world_valid).
  - split; reflexivity.
  - discriminate.
  - discriminate.
  - intros _. discriminate.
  - discriminate.
Defined.

Lemma one_word_commands_drop_a_token_witness :
  run Date_parse_example cmd_example cmd_example ["digest"; "--file"; "a.bin"] world_valid =
    finish (cmd_example ["a.bin"] world_valid) /\
  run Date_parse_example cmd_example cmd_example ["publish"; "--file"; "a.bin"] world_valid =
    finish (cmd_example ["a.bin"] world_valid).
Proof.
  apply (one_word_commands_drop_a_token Date_parse_example cmd_example cmd_example
           "--file" ["a.bin"] world_valid).
  split; reflexivity.
Defined.

(** ** The digest handler *)

Section DigestRuns.

Variable Date_parse : string -> option Z.
Variable publish_handler : list string -> M Z.
Variable sha256_hex : content -> string.
Variable JSON_stringify : value -> string.

Local Notation CmdDigest := (cmdDigest sha256_hex JSON_stringify).
Local Notation Run := (run Date_parse CmdDigest publish_handler).

Lemma cmdDigest_spec rest w :
  CmdDigest rest w =
  if truthy_str (argValue rest "--file" None) then
    match eval (Fs.readFileSync (defined (argValue rest "--file" None))) w with
    | Ret buf =>
        (Ret 0%Z,
         with_output w
           (if hasFlag rest "--json"
            then JSON_stringify
                   (VObj [("file", VStr (defined (argValue rest "--file" None)));
                          ("digest", VStr ("sha256:" ++ sha256_hex buf))])
            else "sha256:" ++ sha256_hex buf))
    | Throw e => (Throw e, w)
    | Exit c => (Exit c, w)
    end
  else (Exit 1%Z, with_error w "digest: --file is required").
Proof.
  unfold cmdDigest. cbv zeta.
  destruct (truthy_str (argValue rest "--file" None)); [|reflexivity].
  cbn [negb when]. change (bind (ret tt) ?k w) with (k tt w). cbv beta.
  rewrite (bind_readonly _ _ w (readonly_readFileSync _)).
  destruct (eval (Fs.readFileSync (defined (argValue rest "--file" None))) w)
    as [buf|e|c]; try reflexivity.
  destruct (hasFlag rest "--json"); reflexivity.
Qed.

Lemma run_digest x rest w :
  no_help (x :: rest) ->
  Run ("digest" :: x :: rest) w = finish (CmdDigest rest w).
Proof. apply run_digest_handler. Qed.

(** X4.  [digest] looks for [--file] among the tokens that come after the
    one following the command name.  When it finds no value there, the run
    ends with status 1 and [digest: --file is required] on the error
    stream; nothing is read or printed on the output stream.  The usage
    text's own example is such a run: in [digest --file <path>] the flag
    is the token that is dropped. *)
Theorem digest_needs_file_after_second_token x rest w :
  no_help (x :: rest) ->
  truthy_str (argValue rest "--file" None) = false ->
  Run ("digest" :: x :: rest) w = (1%Z, with_error w "digest: --file is required").
Proof.
  intros Hh Hf. rewrite (run_digest x rest w Hh), cmdDigest_spec, Hf. reflexivity.
Qed.

Lemma hex_digest_accepted h : hex_digest h -> test SHA256_RE ("sha256:" ++ h) = true.
Proof.
  intros [L A]. apply SHA256_RE_lang. exists "sha256:", h. auto.
Qed.

(** X5.  A digest that [digest] prints is one that [validate models]
    accepts: when the file is read, the run ends with status 0 after the
    one line [sha256:<hash>] on the output stream, and with the hash in
    64 hexadecimal digits that line passes the digest pattern, hence the
    digest check of any version document that carries it. *)
Theorem digest_output_is_accepted x rest f c w :
  no_help (x :: rest) ->
  argValue rest "--file" None = Some f -> Str.is_empty f = false ->
  hasFlag rest "--json" = false ->
  eval (Fs.readFileSync f) w = Ret c ->
  hex_digest (sha256_hex c) ->
  Run ("digest" :: x :: rest) w = (0%Z, with_output w ("sha256:" ++ sha256_hex c)) /\
  test SHA256_RE ("sha256:" ++ sha256_hex c) = true /\
  (forall m_id vf v,
     artifact_digest v = Some (VStr ("sha256:" ++ sha256_hex c)) ->
     version_check_holds m_id vf v DigestWellFormed = true).
Proof.
  intros Hh Hf Hn Hj Hr Hx.
  pose proof (hex_digest_accepted _ Hx) as T.
  split; [|split].
  - rewrite (run_digest x rest w Hh), cmdDigest_spec, Hf.
    cbn [truthy_str defined]. rewrite Hn, Hr, Hj. reflexivity.
  - exact T.
  - intros m_id vf v Hd. cbn [version_check_holds]. rewrite Hd.
    cbn [typeof as_string]. rewrite T. reflexivity.
Qed.

(** X6.  When the file named by [--file] cannot be read, [digest] lets the
    error of the file system escape as it is: the run ends with status 1
    and that error's own message on the error stream, and nothing on the
    output stream.  The error is either that of [open], which names the
    path, or, when the path is a directory, the [EISDIR] of [read], which
    names no path. *)
Theorem digest_read_error_escapes x rest f e w :
  no_help (x :: rest) ->
  argValue rest "--file" None = Some f -> Str.is_empty f = false ->
  eval (Fs.readFileSync f) w = Throw e ->
  Run ("digest" :: x :: rest) w = (1%Z, with_error w (message e)) /\
  ((exists code, e = FsError code "open" f /\
                 message e = (errno_text code ++ ", open '" ++ f ++ "'")%string) \/
   (e = FdError EISDIR "read" /\
    eval (Fs.statSync f) w = Ret Fs.IsDirectory /\
    message e = "EISDIR: illegal operation on a directory, read")).
Proof.
  intros Hh Hf Hn Hr. split.
  - rewrite (run_digest x rest w Hh), cmdDigest_spec, Hf.
    cbn [truthy_str defined]. rewrite Hn, Hr. reflexivity.
  - unfold eval, Fs.readFileSync, Fs.statSync, bind, get_fs in *.
    destruct (Fs.resolve (fs w) f) as [[c|es]|]; cbn in Hr; inversion Hr.
    + right. repeat split.
    + left. exists (Fs.lookup_errno (fs w) f). split; reflexivity.
Qed.

End DigestRuns.

Lemma digest_needs_file_after_second_token_witness :
  run Date_parse_example (cmdDigest sha256_hex_example JSON_stringify_example) cmd_example
      ["digest"; "--file"; "./artifact.bin"] world_valid =
  (1%Z, with_error world_valid "digest: --file is required").
Proof.
  apply (digest_needs_file_after_second_token Date_parse_example cmd_example
           sha256_hex_example JSON_stringify_example "--file" ["./artifact.bin"] world_valid).
  - split; reflexivity.
  - reflexivity.
Defined.

Lemma digest_output_is_accepted_witness :
  run Date_parse_example (cmdDigest sha256_hex_example JSON_stringify_example) cmd_example
      ["digest"; "now"; "--file"; "models/text/foo/PERFORMANCE.md"] world_valid =
    (0%Z, with_output world_valid zero_digest) /\
  test SHA256_RE zero_digest = true /\
  (forall m_id vf v,
     artifact_digest v = Some (VStr zero_digest) ->
     version_check_holds m_id vf v DigestWellFormed = true).
Proof.
  apply (digest_output_is_accepted Date_parse_example cmd_example
           sha256_hex_example JSON_stringify_example
           "now" ["--file"; "models/text/foo/PERFORMANCE.md"]
           "models/text/foo/PERFORMANCE.md" (Plain "# Performance notes") world_valid).
  - split; reflexivity.
  - reflexivity.
  - reflexivity.
  - reflexivity.
  - reflexivity.
  - split; reflexivity.
Defined.

Lemma digest_read_error_escapes_witness :
  run Date_parse_example (cmdDigest sha256_hex_example JSON_stringify_example) cmd_example
      ["digest"; "now"; "--file"; "missing.bin"] world_valid =
    (1%Z, with_error world_valid
            "ENOENT: no such file or directory, open 'missing.bin'") /\
  run Date_parse_example (cmdDigest sha256_hex_example JSON_stringify_example) cmd_example
      ["digest"; "now"; "--file"; "models/text"] world_valid =
    (1%Z, with_error world_valid "EISDIR: illegal operation on a directory, read").
Proof.
  split.
  - refine (proj1 (digest_read_error_escapes Date_parse_example cmd_example
                     sha256_hex_example JSON_stringify_example
                     "now" ["--file"; "missing.bin"] "missing.bin"
                     (FsError ENOENT "open" "missing.bin") world_valid _ _ _ _)).
    + split; reflexivity.
    + reflexivity.
    + reflexivity.
    + reflexivity.
  - refine (proj1 (digest_read_error_escapes Date_parse_example cmd_example
                     sha256_hex_example JSON_stringify_example
                     "now" ["--file"; "models/text"] "models/text"
                     (FdError EISDIR "read") world_valid _ _ _ _)).
    + split; reflexivity.
    + reflexivity.
    + reflexivity.
    + reflexivity.
Defined.

(* ================================================================== *)
(** * The file tree *)
(* ================================================================== *)

Lemma node_induction (P : node -> Prop) :
  (forall c, P (File c)) ->
  (forall es, Forall (fun e => P (snd e)) es -> P (Dir es)) ->
  forall n, P n.
Proof.
  intros Hf Hd. fix IH 1. intros [c|es]; [apply Hf|]. apply Hd.
  induction es as [|[k child] es IHes]; constructor; [apply IH | exact IHes].
Qed.

Lemma well_named_cons name child rest :
  well_named (Dir ((name, child) :: rest)) =
  plain_segment name && negb (existsb (fun e => String.eqb name (fst e)) rest) &&
  well_named child && well_named (Dir rest).
Proof. reflexivity. Qed.

Lemma well_named_entries es :
  well_named (Dir es) = true ->
  Forall (fun e => plain_segment (fst e) = true /\ well_named (snd e) = true) es /\
  NoDup (List.map fst es).
Proof.
  induction es as [|[name child] es IH]; intros H.
  - split; constructor.
  - rewrite well_named_cons in H.
    apply andb_true_iff in H as [H Hr]. apply andb_true_iff in H as [H Hc].
    apply andb_true_iff in H as [Hp Hx].
    destruct (IH Hr) as [F N]. split.
    + constructor; [cbn [fst snd]; split; assumption | assumption].
    + cbn [List.map fst]. constructor; [|assumption].
      intros I. apply in_map_iff in I as ([k v] & E & I). cbn [fst] in E. subst k.
      apply negb_true_iff in Hx.
      assert (T : existsb (fun e => String.eqb name (fst e)) es = true).
      { apply existsb_exists. exists (name, v). split; [assumption | apply String.eqb_refl]. }
      congruence.
Qed.

Lemma assoc_in {A} k (es : list (string * A)) v : assoc k es = Some v -> In (k, v) es.
Proof.
  induction es as [|[k' v'] es IH]; cbn [assoc]; [discriminate|].
  destruct (String.eqb k k') eqn:E.
  - apply String.eqb_eq in E. intros H. inversion H. subst. left. reflexivity.
  - intros H. right. auto.
Qed.

Lemma in_assoc {A} k (es : list (string * A)) v :
  NoDup (List.map fst es) -> In (k, v) es -> assoc k es = Some v.
Proof.
  induction es as [|[k' v'] es IH]; intros N I; [destruct I|].
  cbn [List.map fst] in N. inversion N as [|? ? Nk N']; subst.
  cbn [assoc]. destruct I as [I | I].
  - inversion I. subst. rewrite String.eqb_refl. reflexivity.
  - destruct (String.eqb k k') eqn:E; [|auto].
    apply String.eqb_eq in E. subst k'. exfalso. apply Nk.
    apply in_map_iff. exists (k, v). auto.
Qed.

Lemma descend_app a : forall b n,
  descend (a ++ b) n =
  match descend a n with Some m => descend b m | None => None end.
Proof.
  induction a as [|s a IH]; intros b n; [reflexivity|].
  cbn [app descend]. destruct n as [c|es]; [reflexivity|].
  destruct (assoc s es); [apply IH | reflexivity].
Qed.

(** The components that lead to a node of a well-named tree. *)
Lemma descend_plain cs : forall n m,
  well_named n = true -> descend cs n = Some m ->
  Forall (fun s => plain_segment s = true) cs /\ well_named m = true.
Proof.
  induction cs as [|s cs IH]; intros n m W D.
  - inversion D. subst. split; [constructor | assumption].
  - cbn [descend] in D. destruct n as [c|es]; [discriminate|].
    destruct (assoc s es) as [child|] eqn:A; [|discriminate].
    destruct (well_named_entries es W) as [F _].
    apply assoc_in in A. rewrite Forall_forall in F.
    destruct (F _ A) as [Hs Hc]. cbn [fst snd] in Hs, Hc.
    destruct (IH child m Hc D) as [Fc Wm]. split; [constructor|]; assumption.
Qed.

(** ** [walk] *)

Lemma walk_node_cons dir name child rest :
  walk_node dir (Dir ((name, child) :: rest)) =
  match child with
  | Dir _ => walk_node (Path.join [dir; name]) child
  | File _ => [Path.join [dir; name]]
  end ++ walk_node dir (Dir rest).
Proof. reflexivity. Qed.

Lemma walk_node_entries dir es p :
  In p (walk_node dir (Dir es)) <->
  exists name child,
    In (name, child) es /\
    In p match child with
         | Dir _ => walk_node (Path.join [dir; name]) child
         | File _ => [Path.join [dir; name]]
         end.
Proof.
  induction es as [|[name child] es IH].
  - split; [intros [] | intros (? & ? & [] & _)].
  - rewrite walk_node_cons, in_app_iff, IH. split.
    + intros [H | (n & c & I & H)].
      * exists name, child. split; [left; reflexivity | assumption].
      * exists n, c. split; [right; assumption | assumption].
    + intros (n & c & [E | I] & H).
      * inversion E. subst. left. assumption.
      * right. exists n, c. auto.
Qed.

Lemma root_at_onto dir ds name :
  root_at dir ds -> plain_segment name = true ->
  Path.join [dir; name] = path_of (ds ++ [name]) /\
  root_at (path_of (ds ++ [name])) (ds ++ [name]).
Proof.
  intros Hr Hn. split.
  - apply (join_root dir ds [name] Hr); plain_tac.
  - split; [destruct Hr; plain_tac|]. right. split; [plain_tac | reflexivity].
Qed.

Lemma walk_node_files n : forall dir ds,
  root_at dir ds ->
  well_named n = true ->
  forall p,
    In p (walk_node dir n) <->
    exists cs c, cs <> [] /\ p = path_of (ds ++ cs) /\ descend cs n = Some (File c).
Proof.
  induction n as [c0|es IH] using node_induction; intros dir ds Hr W p.
  - split; [intros [] |]. intros (cs & c & Nc & _ & D).
    destruct cs; [congruence | discriminate D].
  - destruct (well_named_entries es W) as [Fe Ne].
    rewrite Forall_forall in IH, Fe.
    rewrite walk_node_entries. split.
    + intros (name & child & I & H).
      destruct (Fe _ I) as [Hn Hc]. cbn [fst snd] in Hn, Hc.
      destruct (root_at_onto dir ds name Hr Hn) as [J Hr'].
      rewrite J in H.
      pose proof (in_assoc name es child Ne I) as A.
      destruct child as [c|es'].
      * destruct H as [<- | []]. exists [name], c.
        split; [discriminate|]. split; [reflexivity|].
        cbn [descend]. rewrite A. reflexivity.
      * apply (IH _ I _ (ds ++ [name]) Hr' Hc) in H.
        destruct H as (cs & c & Nc & -> & D).
        exists (name :: cs), c. split; [discriminate|].
        split; [rewrite <- app_assoc; reflexivity|].
        cbn [descend]. rewrite A. assumption.
    + intros (cs & c & Nc & -> & D).
      destruct cs as [|name cs]; [congruence|].
      cbn [descend] in D. destruct (assoc name es) as [child|] eqn:A; [|discriminate].
      apply assoc_in in A. exists name, child. split; [assumption|].
      destruct (Fe _ A) as [Hn Hc]. cbn [fst snd] in Hn, Hc.
      destruct (root_at_onto dir ds name Hr Hn) as [J Hr'].
      rewrite J.
      destruct child as [c'|es'].
      * destruct cs; [|discriminate D]. left. reflexivity.
      * apply (IH _ A _ (ds ++ [name]) Hr' Hc).
        exists cs, c. split.
        -- intros ->. discriminate D.
        -- split; [rewrite <- app_assoc; reflexivity | assumption].
Qed.

Lemma resolve_root t dir ds es :
  root_at dir ds -> descend ds t = Some (Dir es) -> Fs.resolve t dir = Some (Dir es).
Proof.
  intros [F [[-> ->] | [N ->]]] D.
  - cbn [descend] in D. inversion D. reflexivity.
  - rewrite (resolve_path_of t ds N F). assumption.
Qed.

(** X7.  [walk] lists the regular files below the directory, and nothing
    else.  The directory is the working directory ([.]) or a relative
    path of plain components; in a tree that names its entries by single
    path components, a path is yielded exactly when it is the directory's
    path followed by the components that lead to a regular file; no
    directory is yielded, and every path yielded can be read. *)
Theorem walk_yields_the_regular_files dir ds es w :
  root_at dir ds ->
  descend ds (fs w) = Some (Dir es) ->
  well_named (Dir es) = true ->
  exists files,
    eval (walk dir) w = Ret files /\
    (forall p,
       In p files <->
       exists cs c, cs <> [] /\ p = path_of (ds ++ cs) /\
                    descend (ds ++ cs) (fs w) = Some (File c)) /\
    (forall p, In p files -> exists c, eval (Fs.readFileSync p) w = Ret c).
Proof.
  intros Hr D W.
  assert (S : forall p,
             In p (walk_node dir (Dir es)) <->
             exists cs c, cs <> [] /\ p = path_of (ds ++ cs) /\
                          descend (ds ++ cs) (fs w) = Some (File c)).
  { intros p. rewrite (walk_node_files (Dir es) dir ds Hr W p).
    split; intros (cs & c & Nc & E & Dc); exists cs, c;
      (split; [assumption|]; split; [assumption|]).
    - rewrite descend_app, D. assumption.
    - rewrite descend_app, D in Dc. assumption. }
  exists (walk_node dir (Dir es)). split; [|split].
  - unfold eval, walk, Fs.readdirSync, bind, get_fs.
    rewrite (resolve_root (fs w) dir ds es Hr D). reflexivity.
  - exact S.
  - intros p I. apply S in I as (cs & c & Nc & -> & Dc).
    exists c. unfold eval, Fs.readFileSync, bind, get_fs.
    rewrite resolve_path_of, Dc; [reflexivity | plain_tac |].
    apply Forall_plain_app; [exact (proj1 Hr)|].
    rewrite descend_app, D in Dc.
    apply (descend_plain cs (Dir es) (File c) W Dc).
Qed.

Lemma walk_yields_the_regular_files_witness :
  exists files,
    eval (walk ".") world_valid = Ret files /\
    (forall p,
       In p files <->
       exists cs c, cs <> [] /\ p = path_of ([] ++ cs) /\
                    descend ([] ++ cs) (fs world_valid) = Some (File c)) /\
    (forall p, In p files -> exists c, eval (Fs.readFileSync p) world_valid = Ret c).
Proof.
  apply (walk_yields_the_regular_files "." []
           [("models", Dir [("text", Dir [("foo",
              example_entry (example_model "org/foo" "text" "1.0.0")
                [("1.0.0.json",
                  File (Json (example_version "org/foo" "1.0.0" zero_digest)))])])])]
           world_valid).
  - split; [constructor | left; split; reflexivity].
  - reflexivity.
  - reflexivity.
Defined.

(** ** [write] *)

Lemma assoc_set_entry k v es k' :
  assoc k' (Fs.set_entry k v es) = if String.eqb k' k then Some v else assoc k' es.
Proof.
  induction es as [|[k0 v0] es IH]; cbn [Fs.set_entry assoc].
  - reflexivity.
  - destruct (String.eqb k k0) eqn:E; cbn [assoc].
    + apply String.eqb_eq in E. subst k0. destruct (String.eqb k' k); reflexivity.
    + destruct (String.eqb k' k0) eqn:E'; [|exact IH].
      apply String.eqb_eq in E'. subst k0.
      rewrite String.eqb_sym, E. reflexivity.
Qed.

Lemma assoc_app_some {A} k (es l : list (string * A)) v :
  assoc k es = Some v -> assoc k (es ++ l) = Some v.
Proof.
  induction es as [|[k0 v0] es IH]; cbn [assoc app]; [discriminate|].
  destruct (String.eqb k k0); auto.
Qed.

Lemma assoc_app_none {A} k (es l : list (string * A)) :
  assoc k es = None -> assoc k (es ++ l) = assoc k l.
Proof.
  induction es as [|[k0 v0] es IH]; cbn [assoc app]; [reflexivity|].
  destruct (String.eqb k k0); [discriminate | auto].
Qed.

(** The file is where it was put. *)
Lemma put_file_descend comps c : forall t t2,
  Fs.put_file comps c t = Some t2 -> descend comps t2 = Some (File c).
Proof.
  induction comps as [|name comps IH]; intros t t2 H.
  - destruct t; discriminate H.
  - destruct t as [c0|es]; [discriminate H|].
    destruct comps as [|y ys].
    + cbn [Fs.put_file] in H. cbn [descend].
      destruct (assoc name es) as [[c1|es1]|] eqn:A; inversion H; subst; cbn [descend].
      * rewrite assoc_set_entry, String.eqb_refl. reflexivity.
      * rewrite (assoc_app_none name es _ A). cbn [assoc].
        rewrite String.eqb_refl. reflexivity.
    + destruct (assoc name es) as [child|] eqn:A;
        [rewrite (put_file_step name y ys c es child A) in H
        | cbn [Fs.put_file] in H; rewrite A in H; discriminate H].
      destruct (Fs.put_file (y :: ys) c child) as [child'|] eqn:P; [|discriminate H].
      inversion H. subst t2. cbn [descend].
      rewrite assoc_set_entry, String.eqb_refl. apply (IH child child' P).
Qed.

(** Every other file stays where it was. *)
Lemma put_file_frame comps c : forall t t2 cs c',
  Fs.put_file comps c t = Some t2 ->
  cs <> comps ->
  descend cs t = Some (File c') -> descend cs t2 = Some (File c').
Proof.
  induction comps as [|name comps IH]; intros t t2 cs c' H N D.
  - destruct t; discriminate H.
  - destruct t as [c0|es]; [discriminate H|].
    destruct cs as [|k cs]; [discriminate D|].
    cbn [descend] in D. destruct (assoc k es) as [ch|] eqn:Ak; [|discriminate D].
    destruct comps as [|y ys].
    + cbn [Fs.put_file] in H.
      destruct (assoc name es) as [[c1|es1]|] eqn:A; inversion H; subst; cbn [descend].
      * rewrite assoc_set_entry. destruct (String.eqb k name) eqn:E.
        -- apply String.eqb_eq in E. subst k. rewrite A in Ak. inversion Ak. subst ch.
           destruct cs; [congruence | discriminate D].
        -- rewrite Ak. assumption.
      * rewrite (assoc_app_some k es _ ch Ak). assumption.
    + destruct (assoc name es) as [child|] eqn:A;
        [rewrite (put_file_step name y ys c es child A) in H
        | cbn [Fs.put_file] in H; rewrite A in H; discriminate H].
      destruct (Fs.put_file (y :: ys) c child) as [child'|] eqn:P; [|discriminate H].
      inversion H. subst t2. cbn [descend].
      rewrite assoc_set_entry. destruct (String.eqb k name) eqn:E.
      * apply String.eqb_eq in E. subst k. rewrite A in Ak. inversion Ak. subst ch.
        apply (IH child child' cs c' P); [congruence | assumption].
      * rewrite Ak. assumption.
Qed.

Lemma mkdirp_frame comps : forall t t1 cs c',
  Fs.mkdirp comps t = Some t1 ->
  descend cs t = Some (File c') -> descend cs t1 = Some (File c').
Proof.
  induction comps as [|name comps IH]; intros t t1 cs c' H D.
  - destruct t; [discriminate H|]. inversion H. subst. assumption.
  - destruct t as [c0|es]; [discriminate H|].
    destruct cs as [|k cs]; [discriminate D|].
    cbn [descend] in D. destruct (assoc k es) as [ch|] eqn:Ak; [|discriminate D].
    cbn [Fs.mkdirp] in H. destruct (assoc name es) as [child|] eqn:A.
    + destruct (Fs.mkdirp comps child) as [child'|] eqn:P; [|discriminate H].
      inversion H. subst t1. cbn [descend]. rewrite assoc_set_entry.
      destruct (String.eqb k name) eqn:E.
      * apply String.eqb_eq in E. subst k. rewrite A in Ak. inversion Ak. subst ch.
        apply (IH child child' cs c' P D).
      * rewrite Ak. assumption.
    + destruct (Fs.mkdirp comps (Dir [])) as [child'|] eqn:P; [|discriminate H].
      inversion H. subst t1. cbn [descend].
      rewrite (assoc_app_some k es _ ch Ak). assumption.
Qed.

Lemma dirname_plain x : plain_segment x = true -> Path.dirname x = ".".
Proof.
  intros Hx. apply plain_segment_facts in Hx as (E & A & _).
  destruct x as [|c0 tl]; [discriminate E|].
  cbn [Str.all] in A. apply andb_true_iff in A as [A0 A].
  apply negb_true_iff in A0. unfold Path.dirname. rewrite A0.
  assert (Ar : Str.all (fun c => negb (Path.is_slash c)) (Str.rev tl) = true)
    by (apply all_rev; assumption).
  rewrite (drop_while_keep Path.is_slash).
  - rewrite Ar. reflexivity.
  - destruct (Str.rev tl) as [|y r]; [exact I|].
    cbn [Str.all] in Ar. apply andb_true_iff in Ar as [Ar _].
    apply negb_true_iff in Ar. exact Ar.
Qed.

(** The two steps of [write] on a path of plain components. *)
Lemma write_steps segs x c w :
  Forall (fun s => plain_segment s = true) segs -> plain_segment x = true ->
  write (path_of (segs ++ [x])) c w =
  match Fs.mkdirp segs (fs w) with
  | Some t1 =>
      match Fs.put_file (segs ++ [x]) c t1 with
      | Some t2 => (Ret tt, World t2 (stdout w) (stderr w) (clock w))
      | None => (Throw (FsError (Fs.put_file_errno (segs ++ [x]) t1) "open"
                                (path_of (segs ++ [x]))),
                 World t1 (stdout w) (stderr w) (clock w))
      end
  | None => (Throw (FsError (Fs.mkdirp_errno segs (fs w)) "mkdir"
                            (Path.dirname (path_of (segs ++ [x])))), w)
  end.
Proof.
  intros F Hx.
  assert (C : Fs.components (Path.dirname (path_of (segs ++ [x]))) = segs).
  { destruct segs as [|s segs].
    - cbn [app]. change (path_of [x]) with x. rewrite (dirname_plain x Hx). reflexivity.
    - rewrite (dirname_path_of (s :: segs) x) by (discriminate || assumption).
      apply components_path_of; [discriminate | assumption]. }
  unfold write, ensureDir, Fs.mkdirSync_recursive, Fs.writeFileSync, bind, get_fs, put_fs.
  rewrite C. destruct (Fs.mkdirp segs (fs w)) as [t1|]; [|reflexivity].
  cbn [fs stdout stderr clock].
  rewrite (components_path_of (segs ++ [x])) by plain_tac.
  rewrite (path_of_not_empty (segs ++ [x])) by plain_tac.
  destruct (Fs.put_file (segs ++ [x]) c t1); reflexivity.
Qed.

Lemma read_plain cs w c :
  cs <> [] -> Forall (fun s => plain_segment s = true) cs ->
  eval (Fs.readFileSync (path_of cs)) w = Ret c <-> descend cs (fs w) = Some (File c).
Proof.
  intros N F. unfold eval, Fs.readFileSync, bind, get_fs.
  rewrite (resolve_path_of (fs w) cs N F).
  destruct (descend cs (fs w)) as [[c0|es]|]; cbn; split; intros H;
    inversion H; reflexivity.
Qed.

(** X8.  What [write] has stored can be read back: when [write] returns,
    the path holds a regular file with exactly the content written,
    whether the file and its directories existed before or not; every
    other file of the tree still reads as before, and nothing is printed. *)
Theorem write_then_read segs x c w w' :
  Forall (fun s => plain_segment s = true) segs -> plain_segment x = true ->
  write (path_of (segs ++ [x])) c w = (Ret tt, w') ->
  eval (Fs.readFileSync (path_of (segs ++ [x]))) w' = Ret c /\
  (forall cs c',
     cs <> [] -> Forall (fun s => plain_segment s = true) cs ->
     cs <> segs ++ [x] ->
     eval (Fs.readFileSync (path_of cs)) w = Ret c' ->
     eval (Fs.readFileSync (path_of cs)) w' = Ret c') /\
  stdout w' = stdout w /\ stderr w' = stderr w.
Proof.
  intros F Hx H. rewrite (write_steps segs x c w F Hx) in H.
  destruct (Fs.mkdirp segs (fs w)) as [t1|] eqn:M; [|discriminate H].
  destruct (Fs.put_file (segs ++ [x]) c t1) as [t2|] eqn:P; [|discriminate H].
  inversion H. subst w'. clear H. cbn [stdout stderr].
  split; [|split; [|split; reflexivity]].
  - apply read_plain; [plain_tac | plain_tac |].
    cbn [fs]. apply (put_file_descend _ c t1 t2 P).
  - intros cs c' Nc Fc Ne R.
    apply (read_plain cs _ c' Nc Fc). apply (read_plain cs _ c' Nc Fc) in R.
    cbn [fs]. apply (put_file_frame _ c t1 t2 cs c' P Ne).
    apply (mkdirp_frame segs (fs w) t1 cs c' M R).
Qed.

Lemma write_then_read_witness :
  eval (Fs.readFileSync (path_of (["models"; "text"; "foo"] ++ ["model.json"])))
       (snd (write "models/text/foo/model.json" (Plain "{") world_valid)) = Ret (Plain "{") /\
  (forall cs c',
     cs <> [] -> Forall (fun s => plain_segment s = true) cs ->
     cs <> ["models"; "text"; "foo"] ++ ["model.json"] ->
     eval (Fs.readFileSync (path_of cs)) world_valid = Ret c' ->
     eval (Fs.readFileSync (path_of cs))
          (snd (write "models/text/foo/model.json" (Plain "{") world_valid)) = Ret c') /\
  stdout (snd (write "models/text/foo/model.json" (Plain "{") world_valid))
    = stdout world_valid /\
  stderr (snd (write "models/text/foo/model.json" (Plain "{") world_valid))
    = stderr world_valid.
Proof.
  apply (write_then_read ["models"; "text"; "foo"] "model.json" (Plain "{") world_valid).
  - repeat constructor.
  - reflexivity.
  - reflexivity.
Defined.

(** ** When [write] fails *)

Lemma write_outcome p c w :
  exists t,
    write p c w = (Ret tt, World t (stdout w) (stderr w) (clock w)) \/
    exists code syscall path,
      write p c w =
      (Throw (FsError code syscall path), World t (stdout w) (stderr w) (clock w)).
Proof.
  unfold write, ensureDir, Fs.mkdirSync_recursive, Fs.writeFileSync, bind, get_fs, put_fs.
  destruct (Fs.mkdirp (Fs.components (Path.dirname p)) (fs w)) as [t1|].
  - cbn [fs stdout stderr clock].
    destruct (Fs.put_file (Fs.components p) c t1) as [t2|].
    + exists t2. left. reflexivity.
    + exists t1. right. do 3 eexists. reflexivity.
  - exists (fs w). right. do 3 eexists. destruct w. reflexivity.
Qed.

Lemma mkdirp_succeeds segs : forall t,
  (exists t1, Fs.mkdirp segs t = Some t1) <->
  (forall pre suf c0, segs = pre ++ suf -> descend pre t <> Some (File c0)).
Proof.
  induction segs as [|s segs IH]; intros t.
  - destruct t as [c|es]; cbn [Fs.mkdirp]; split.
    + intros (t1 & H). discriminate H.
    + intros H. exfalso. apply (H [] [] c eq_refl). reflexivity.
    + intros _ pre suf c0 E. symmetry in E. apply app_eq_nil in E as [-> _]. discriminate.
    + intros _. eexists. reflexivity.
  - destruct t as [c|es]; cbn [Fs.mkdirp].
    + split.
      * intros (t1 & H). discriminate H.
      * intros H. exfalso. apply (H [] (s :: segs) c eq_refl). reflexivity.
    + destruct (assoc s es) as [child|] eqn:A.
      * split.
        -- intros (t1 & H) pre suf c0 E.
           destruct pre as [|k pre]; [discriminate|].
           cbn [app] in E. inversion E. subst k. cbn [descend]. rewrite A.
           destruct (Fs.mkdirp segs child) as [child'|] eqn:M; [|discriminate H].
           apply (proj1 (IH child) (ex_intro _ child' M) pre suf c0). assumption.
        -- intros H.
           destruct (proj2 (IH child)) as (child' & M).
           { intros pre suf c0 E. specialize (H (s :: pre) suf c0).
             cbn [app descend] in H. rewrite A in H. apply H. rewrite E. reflexivity. }
           rewrite M. eexists. reflexivity.
      * split.
        -- intros _ pre suf c0 E.
           destruct pre as [|k pre]; [discriminate|].
           cbn [app] in E. inversion E. subst k. cbn [descend]. rewrite A. discriminate.
        -- intros _. rewrite mkdirp_fresh. eexists. reflexivity.
Qed.

Lemma mkdirp_keeps_target segs x : forall t t1,
  Fs.mkdirp segs t = Some t1 ->
  descend (segs ++ [x]) t1 = descend (segs ++ [x]) t.
Proof.
  induction segs as [|s segs IH]; intros t t1 H.
  - destruct t; [discriminate H|]. inversion H. reflexivity.
  - destruct t as [c|es]; [discriminate H|]. cbn [Fs.mkdirp] in H.
    cbn [app descend]. destruct (assoc s es) as [child|] eqn:A.
    + destruct (Fs.mkdirp segs child) as [child'|] eqn:M; [|discriminate H].
      inversion H. subst t1. cbn [descend].
      rewrite assoc_set_entry, String.eqb_refl. apply (IH child child' M).
    + rewrite mkdirp_fresh in H. inversion H. subst t1. cbn [descend option_map].
      rewrite (assoc_app_none s es _ A). cbn [assoc]. rewrite String.eqb_refl.
      rewrite descend_nest. reflexivity.
Qed.

Lemma mkdirp_dir segs : forall t t1,
  Fs.mkdirp segs t = Some t1 -> exists es, descend segs t1 = Some (Dir es).
Proof.
  induction segs as [|s segs IH]; intros t t1 H.
  - destruct t as [c|es]; [discriminate H|]. inversion H. exists es. reflexivity.
  - destruct t as [c|es]; [discriminate H|]. cbn [Fs.mkdirp] in H.
    destruct (assoc s es) as [child|] eqn:A.
    + destruct (Fs.mkdirp segs child) as [child'|] eqn:M; [|discriminate H].
      inversion H. subst t1. cbn [descend].
      rewrite assoc_set_entry, String.eqb_refl. apply (IH child child' M).
    + destruct (Fs.mkdirp segs (Dir [])) as [child'|] eqn:M; [|discriminate H].
      inversion H. subst t1. cbn [descend].
      rewrite (assoc_app_none s es _ A). cbn [assoc]. rewrite String.eqb_refl.
      apply (IH (Dir []) child' M).
Qed.

Lemma put_file_cons name rest c es child :
  assoc name es = Some child -> rest <> [] ->
  Fs.put_file (name :: rest) c (Dir es) =
  option_map (fun child' => Dir (Fs.set_entry name child' es)) (Fs.put_file rest c child).
Proof.
  intros A N. destruct rest as [|y ys]; [congruence|]. apply put_file_step. assumption.
Qed.

Lemma put_file_succeeds segs x c : forall t1,
  (exists es, descend segs t1 = Some (Dir es)) ->
  ((exists t2, Fs.put_file (segs ++ [x]) c t1 = Some t2) <->
   (forall es', descend (segs ++ [x]) t1 <> Some (Dir es'))).
Proof.
  induction segs as [|s segs IH]; intros t1 (es & D).
  - cbn [descend] in D. inversion D. subst t1.
    cbn [app Fs.put_file descend].
    destruct (assoc x es) as [[c1|es1]|]; split.
    + intros _ es'. discriminate.
    + intros _. eexists. reflexivity.
    + intros (t2 & H). discriminate H.
    + intros H. exfalso. apply (H es1). reflexivity.
    + intros _ es'. discriminate.
    + intros _. eexists. reflexivity.
  - cbn [descend] in D. destruct t1 as [c1|es1]; [discriminate D|].
    destruct (assoc s es1) as [child|] eqn:A; [|discriminate D].
    cbn [app]. rewrite (put_file_cons s (segs ++ [x]) c es1 child A)
      by (destruct segs; discriminate).
    cbn [descend]. rewrite A.
    rewrite <- (IH child (ex_intro _ es D)).
    destruct (Fs.put_file (segs ++ [x]) c child) as [child'|]; split.
    + intros _. eexists. reflexivity.
    + intros _. eexists. reflexivity.
    + intros (t2 & H). discriminate H.
    + intros (t2 & H). discriminate H.
Qed.

(** X9.  On a path that the operating system takes (no component of more
    than 255 bytes, fewer than 4096 bytes in all), [write] fails exactly
    when a component of the path above the file is a regular file, or the
    path itself is a directory; it then throws an error of the file
    system.  In every other tree it creates the directories that are
    missing and returns. *)
Theorem write_fails_exactly_when segs x c w :
  Forall (fun s => plain_segment s = true) segs -> plain_segment x = true ->
  Fs.path_fits (path_of (segs ++ [x])) = true ->
  ((exists w', write (path_of (segs ++ [x])) c w = (Ret tt, w')) <->
   (forall pre suf c0, segs = pre ++ suf -> descend pre (fs w) <> Some (File c0)) /\
   (forall es, descend (segs ++ [x]) (fs w) <> Some (Dir es))) /\
  ((exists w', write (path_of (segs ++ [x])) c w = (Ret tt, w')) \/
   (exists code syscall path w',
      write (path_of (segs ++ [x])) c w = (Throw (FsError code syscall path), w'))).
Proof.
  intros F Hx _. split.
  - rewrite (write_steps segs x c w F Hx).
    rewrite <- (mkdirp_succeeds segs (fs w)).
    destruct (Fs.mkdirp segs (fs w)) as [t1|] eqn:M.
    + rewrite <- (mkdirp_keeps_target segs x (fs w) t1 M).
      rewrite <- (put_file_succeeds segs x c t1 (mkdirp_dir segs (fs w) t1 M)).
      destruct (Fs.put_file (segs ++ [x]) c t1) as [t2|]; split.
      * intros _. split; eexists; reflexivity.
      * intros _. eexists. reflexivity.
      * intros (w' & H). discriminate H.
      * intros [_ (t2 & H)]. discriminate H.
    + split.
      * intros (w' & H). discriminate H.
      * intros [(t1 & H) _]. discriminate H.
  - destruct (write_outcome (path_of (segs ++ [x])) c w)
      as (t & [E | (co & sy & pa & E)]).
    + left. eexists. exact E.
    + right. exists co, sy, pa. eexists. exact E.
Qed.

Lemma write_fails_exactly_when_witness :
  ((exists w', write (path_of (["models"; "text"] ++ ["notes.md"])) (Plain "x") world_valid
               = (Ret tt, w')) <->
   (forall pre suf c0,
      ["models"; "text"] = pre ++ suf -> descend pre (fs world_valid) <> Some (File c0)) /\
   (forall es,
      descend (["models"; "text"] ++ ["notes.md"]) (fs world_valid) <> Some (Dir es))) /\
  ((exists w', write (path_of (["models"; "text"] ++ ["notes.md"])) (Plain "x") world_valid
               = (Ret tt, w')) \/
   (exists code syscall path w',
      write (path_of (["models"; "text"] ++ ["notes.md"])) (Plain "x") world_valid
      = (Throw (FsError code syscall path), w'))).
Proof.
  apply (write_fails_exactly_when ["models"; "text"] "notes.md" (Plain "x") world_valid).
  - repeat constructor.
  - reflexivity.
  - reflexivity.
Defined.

(* ================================================================== *)
(** * The outcomes of [init model] *)
(* ================================================================== *)

Section InitRuns.

Variable Date_parse : string -> option Z.
Variable digest_handler publish_handler : list string -> M Z.

Local Notation Run := (run Date_parse digest_handler publish_handler).

Lemma run_init_handler rest w :
  no_help (init_args rest) ->
  Run (init_args rest) w = finish (cmdInitModel rest w).
Proof.
  intros Hh.
  apply (run_dispatch Date_parse digest_handler publish_handler
           (init_args rest) w "init:model" cmdInitModel);
    [discriminate | assumption | reflexivity | reflexivity].
Qed.

Lemma cmdInitModel_usage_error rest w msg :
  init_usage_error rest = Some msg ->
  cmdInitModel rest w = (Exit 1%Z, with_error w msg).
Proof.
  unfold init_usage_error, cmdInitModel. cbv zeta.
  destruct (negb (truthy_str (argValue rest "--modality" None)) ||
            negb (existsb (String.eqb (defined (argValue rest "--modality" None)))
                          modalities)).
  { intros H. inversion H. reflexivity. }
  destruct (negb (truthy_str (argValue rest "--slug" None))).
  { intros H. inversion H. reflexivity. }
  destruct (negb (truthy_str (argValue rest "--id" None))).
  { intros H. inversion H. reflexivity. }
  destruct (negb (truthy_str (argValue rest "--version" (Some "0.1.0"))) ||
            negb (test SEMVER_RE (defined (argValue rest "--version" (Some "0.1.0"))))).
  { intros H. inversion H. reflexivity. }
  discriminate.
Qed.

Lemma cmdInitModel_checked rest w :
  init_usage_error rest = None ->
  let base := Path.join [defined (argValue rest "--root" (Some "."));
                         "models"; defined (argValue rest "--modality" None);
                         defined (argValue rest "--slug" None)] in
  exists t,
    cmdInitModel rest w =
      (Ret 0%Z, World t (stdout w ++ [("Scaffolded: " ++ base)%string]) (stderr w) (clock w)) \/
    exists code syscall path,
      cmdInitModel rest w =
      (Throw (FsError code syscall path), World t (stdout w) (stderr w) (clock w)).
Proof.
  unfold init_usage_error, cmdInitModel. cbv zeta.
  destruct (negb (truthy_str (argValue rest "--modality" None)) ||
            negb (existsb (String.eqb (defined (argValue rest "--modality" None)))
                          modalities)); [discriminate|].
  destruct (negb (truthy_str (argValue rest "--slug" None))); [discriminate|].
  destruct (negb (truthy_str (argValue rest "--id" None))); [discriminate|].
  destruct (negb (truthy_str (argValue rest "--version" (Some "0.1.0"))) ||
            negb (test SEMVER_RE (defined (argValue rest "--version" (Some "0.1.0")))));
    [discriminate|].
  intros _. rewrite (argValue_fallback rest "--root" ".").
  cbn [when path_arg]. unfold now_iso.
  repeat (change (bind (ret ?x) ?k w) with (k x w); cbv beta).
  change (bind (fun w0 : world => (Ret (clock w0), w0)) ?k w) with (k (clock w) w).
  cbv beta.
  match goal with
  | |- context [bind (write ?p1 ?c1) _ w] =>
      destruct (write_outcome p1 c1 w) as (t1 & [E1 | (co & sy & pa & E1)])
  end.
  2:{ exists t1. right. exists co, sy, pa. unfold bind at 1. rewrite E1. reflexivity. }
  rewrite (bind_run _ _ w tt _ E1).
  match goal with
  | |- context [bind (write ?p2 ?c2) _ ?w1] =>
      destruct (write_outcome p2 c2 w1) as (t2 & [E2 | (co & sy & pa & E2)])
  end.
  2:{ exists t2. right. exists co, sy, pa. unfold bind at 1. rewrite E2. reflexivity. }
  rewrite (bind_run _ _ _ tt _ E2). cbn [stdout stderr clock].
  match goal with
  | |- context [bind (write ?p3 ?c3) _ ?w2] =>
      destruct (write_outcome p3 c3 w2) as (t3 & [E3 | (co & sy & pa & E3)])
  end.
  2:{ exists t3. right. exists co, sy, pa. unfold bind at 1. rewrite E3. reflexivity. }
  rewrite (bind_run _ _ _ tt _ E3). cbn [stdout stderr clock].
  exists t3. left. reflexivity.
Qed.

(** X10.  [init model] ends in one of three ways.  It checks its flags
    before it touches the file tree, in the order [--modality], [--slug],
    [--id], [--version]: the first check that fails ends the run with
    status 1 and its message on the error stream, and no directory or
    file has been created.  When the four checks pass, the run either
    ends with status 0 after the one line [Scaffolded: <base>] on the
    output stream, or with status 1 and the message of the file-system
    error that stopped a write on the error stream. *)
Theorem init_model_outcomes rest w :
  no_help (init_args rest) ->
  match init_usage_error rest with
  | Some msg => Run (init_args rest) w = (1%Z, with_error w msg)
  | None =>
      let base := Path.join [defined (argValue rest "--root" (Some "."));
                             "models"; defined (argValue rest "--modality" None);
                             defined (argValue rest "--slug" None)] in
      exists t,
        Run (init_args rest) w =
          (0%Z, World t (stdout w ++ [("Scaffolded: " ++ base)%string])
                      (stderr w) (clock w)) \/
        exists code syscall path,
          Run (init_args rest) w =
          (1%Z, World t (stdout w)
                      (stderr w ++ [message (FsError code syscall path)]) (clock w))
  end.
Proof.
  intros Hh. rewrite (run_init_handler rest w Hh).
  destruct (init_usage_error rest) as [msg|] eqn:He.
  - rewrite (cmdInitModel_usage_error rest w msg He). reflexivity.
  - cbv zeta.
    destruct (cmdInitModel_checked rest w He) as (t & [E | (co & sy & pa & E)]);
      exists t; rewrite E.
    + left. reflexivity.
    + right. exists co, sy, pa. reflexivity.
Qed.

End InitRuns.

Lemma init_model_outcomes_witness :
  run Date_parse_example cmd_example cmd_example
      (init_args ["--modality"; "audio"; "--id"; "org/x"]) world_empty =
  (1%Z, with_error world_empty
          "init model: --modality must be one of text|vision|multimodal").
Proof.
  apply (init_model_outcomes Date_parse_example cmd_example cmd_example
           ["--modality"; "audio"; "--id"; "org/x"] world_empty).
  split; reflexivity.
Defined.

(** ** Scaffolding over an earlier scaffold *)

Lemma put_file_replace x c c0 :
  Fs.put_file [x] c (Dir [(x, File c0)]) = Some (Dir [(x, File c)]).
Proof. cbn [Fs.put_file assoc Fs.set_entry]. rewrite String.eqb_refl. reflexivity. Qed.

Lemma cmdInitModel_twice rest w out err root rs m slug id name v mj0 vj0 n0 :
  fs w = Dir [] ->
  argValue rest "--root" (Some ".") = Some root -> root_at root rs ->
  argValue rest "--modality" None = Some m -> In m modalities ->
  argValue rest "--slug" None = Some slug -> plain_segment slug = true ->
  argValue rest "--id" None = Some id -> Str.is_empty id = false ->
  argValue rest "--name" (Some slug) = Some name ->
  argValue rest "--version" (Some "0.1.0") = Some v -> test SEMVER_RE v = true ->
  exists t,
    cmdInitModel rest w =
    (Ret 0%Z,
     World t (stdout w ++ [("Scaffolded: " ++ path_of (rs ++ ["models"; m; slug]))%string])
           (stderr w) (clock w)) /\
    cmdInitModel rest
      (World (scaffolded_tree (rs ++ ["models"; m; slug]) v mj0 vj0 n0) out err (clock w)) =
    (Ret 0%Z,
     World t (out ++ [("Scaffolded: " ++ path_of (rs ++ ["models"; m; slug]))%string])
           err (clock w)).
Proof.
  intros Hfs Hroot Hr Hm Hin Hslug Hsp Hid Hidn Hname Hv Hsv.
  pose proof (modality_plain m Hin) as Hmp.
  pose proof (semver_file_plain v Hsv) as Hvp.
  pose proof (proj1 Hr) as Frs.
  assert (Hvn : Str.is_empty v = false).
  { apply SEMVER_RE_lang, semver_length in Hsv. destruct v; [simpl in Hsv; lia | reflexivity]. }
  unfold cmdInitModel. cbv zeta.
  rewrite Hm, Hslug, Hid, Hv, Hroot.
  cbn [truthy_str defined].
  rewrite (plain_not_empty m Hmp), (plain_not_empty slug Hsp), Hidn, Hvn, Hsv.
  cbn [negb]. rewrite (modality_listed m Hin), Hname.
  rewrite (argValue_fallback rest "--owner"), (argValue_fallback rest "--owner-name").
  cbn [negb orb prop app when bind ret path_arg now_iso clock].
  assert (Fsa : Forall (fun s => plain_segment s = true) (rs ++ ["models"; m; slug]))
    by plain_tac.
  assert (Nsa : rs ++ ["models"; m; slug] <> []) by plain_tac.
  rewrite (join_root root rs ["models"; m; slug] Hr) by plain_tac.
  rewrite (join_two (rs ++ ["models"; m; slug]) "model.json") by plain_tac.
  rewrite (join_two (rs ++ ["models"; m; slug]) "PERFORMANCE.md") by plain_tac.
  rewrite (join_three (rs ++ ["models"; m; slug]) "versions" (v ++ ".json")) by plain_tac.
  eexists. split.
  - erewrite bind_run;
      [| apply (write_fresh (rs ++ ["models"; m; slug]) "model.json" _ w Hfs Fsa Nsa);
         reflexivity].
    erewrite bind_run;
      [| eapply (write_into_nest_sub (rs ++ ["models"; m; slug]) "versions" (v ++ ".json"));
         [ reflexivity | assumption | assumption | reflexivity | assumption
         | reflexivity | reflexivity ]].
    erewrite bind_run;
      [| eapply (write_into_nest (rs ++ ["models"; m; slug]) "PERFORMANCE.md");
         [ reflexivity | assumption | assumption | reflexivity | reflexivity ]].
    reflexivity.
  - erewrite bind_run;
      [| eapply (write_into_nest (rs ++ ["models"; m; slug]) "model.json");
         [ reflexivity | assumption | assumption | reflexivity | reflexivity ]].
    erewrite bind_run;
      [| eapply (write_into_nest_sub (rs ++ ["models"; m; slug]) "versions" (v ++ ".json"));
         [ reflexivity | assumption | assumption | reflexivity | assumption
         | reflexivity
         | (erewrite put_file_step; [| reflexivity]);
           rewrite put_file_replace; reflexivity ]].
    erewrite bind_run;
      [| eapply (write_into_nest (rs ++ ["models"; m; slug]) "PERFORMANCE.md");
         [ reflexivity | assumption | assumption | reflexivity | reflexivity ]].
    reflexivity.
Qed.

Section Overwrite.

Variable Date_parse : string -> option Z.
Variable digest_handler publish_handler : list string -> M Z.

Local Notation Run := (run Date_parse digest_handler publish_handler).

(** X11.  [init model] overwrites without notice.  Run on top of an
    earlier scaffold of the same entry (same root, modality, slug and
    version, whatever the three documents hold), it ends with status 0
    and leaves exactly the state it leaves when it is run in an empty
    directory: nothing of the earlier documents is kept. *)
Theorem init_model_overwrites rest w root rs m slug id name v mj0 vj0 n0 :
  no_help (init_args rest) ->
  fs w = scaffolded_tree (rs ++ ["models"; m; slug]) v mj0 vj0 n0 ->
  argValue rest "--root" (Some ".") = Some root -> root_at root rs ->
  argValue rest "--modality" None = Some m -> In m modalities ->
  argValue rest "--slug" None = Some slug -> plain_segment slug = true ->
  argValue rest "--id" None = Some id -> Str.is_empty id = false ->
  argValue rest "--name" (Some slug) = Some name ->
  argValue rest "--version" (Some "0.1.0") = Some v -> test SEMVER_RE v = true ->
  fst (Run (init_args rest) w) = 0%Z /\
  Run (init_args rest) w =
  Run (init_args rest) (World (Dir []) (stdout w) (stderr w) (clock w)).
Proof.
  intros Hh Hfs Hroot Hr Hm Hin Hslug Hsp Hid Hidn Hname Hv Hsv.
  destruct (cmdInitModel_twice rest (World (Dir []) (stdout w) (stderr w) (clock w))
              (stdout w) (stderr w) root rs m slug id name v mj0 vj0 n0
              eq_refl Hroot Hr Hm Hin Hslug Hsp Hid Hidn Hname Hv Hsv)
    as (t & E1 & E2).
  cbn [stdout stderr clock] in E1, E2. rewrite <- Hfs in E2.
  replace (World (fs w) (stdout w) (stderr w) (clock w)) with w in E2
    by (destruct w; reflexivity).
  rewrite !(run_init_handler Date_parse digest_handler publish_handler rest _ Hh).
  rewrite E1, E2. split; reflexivity.
Qed.

End Overwrite.

Lemma init_model_overwrites_witness :
  fst (run Date_parse_example cmd_example cmd_example
           (init_args init_flags_example) world_scaffolded_before) = 0%Z /\
  run Date_parse_example cmd_example cmd_example
      (init_args init_flags_example) world_scaffolded_before =
  run Date_parse_example cmd_example cmd_example (init_args init_flags_example)
      (World (Dir []) (stdout world_scaffolded_before) (stderr world_scaffolded_before)
             (clock world_scaffolded_before)).
Proof.
  apply (init_model_overwrites Date_parse_example cmd_example cmd_example
           init_flags_example world_scaffolded_before
           "." [] "text" "foo" "org/foo" "foo" "0.1.0" VNull (VStr "old") "old notes").
  - split; reflexivity.
  - reflexivity.
  - reflexivity.
  - split; [constructor | left; split; reflexivity].
  - reflexivity.
  - left. reflexivity.
  - reflexivity.
  - reflexivity.
  - reflexivity.
  - reflexivity.
  - reflexivity.
  - reflexivity.
  - reflexivity.
Defined.

(* ================================================================== *)
(** * The checks of [validate models], one by one *)
(* ================================================================== *)

Section ValidateRuns.

Variable Date_parse : string -> option Z.
Variable digest_handler publish_handler : list string -> M Z.

Local Notation ValidateModel := (validate_model Date_parse).
Local Notation Run := (run Date_parse digest_handler publish_handler).

(** No check fails exactly when the six field checks hold together. *)
Lemma first_failed_none m :
  first_failed Date_parse m model_checks = None <-> field_checks Date_parse m = true.
Proof.
  unfold first_failed, model_checks, field_checks.
  cbn [find model_check_holds].
  destruct (nonblank (field m "id")); cbn [negb andb]; [|split; discriminate].
  destruct (nonblank (field m "name")); cbn [negb andb]; [|split; discriminate].
  destruct (includes_str modalities (field m "modality")); cbn [negb andb];
    [|split; discriminate].
  destruct (truthy (field m "owner") && String.eqb (typeof (field m "owner")) "object");
    cbn [negb andb]; [|split; discriminate].
  destruct (String.eqb (typeof (field m "createdAt")) "string" &&
            isIsoDate Date_parse (as_string (field m "createdAt")));
    cbn [negb andb]; [|split; discriminate].
  destruct (String.eqb (typeof (field m "version")) "string" &&
            test SEMVER_RE (as_string (field m "version")));
    cbn [negb andb]; split; (reflexivity || discriminate).
Qed.

(** The first field check that fails decides the message. *)
Lemma validate_model_first_failed vfs mf w m c :
  eval (parseJson mf) w = Ret m ->
  m <> VNull ->
  first_failed Date_parse m model_checks = Some c ->
  eval (ValidateModel vfs mf) w = Throw (Error (model_check_message c mf)).
Proof.
  intros P N F. unfold eval at 1, validate_model.
  rewrite (bind_readonly _ _ w (readonly_parseJson mf)), P.
  unfold first_failed, model_checks in F. cbn [find model_check_holds] in F.
  fold (nonblank (field m "id")) in F.
  rewrite (get_bind m _ _ w N), assert_bind. fold (nonblank (field m "id")).
  destruct (nonblank (field m "id")); cbn [negb] in F;
    [|inversion F; reflexivity].
  rewrite (get_bind m _ _ w N), assert_bind. fold (nonblank (field m "name")).
  destruct (nonblank (field m "name")); cbn [negb] in F;
    [|inversion F; reflexivity].
  rewrite (get_bind m _ _ w N), assert_bind.
  destruct (includes_str modalities (field m "modality")); cbn [negb] in F;
    [|inversion F; reflexivity].
  rewrite (get_bind m _ _ w N), assert_bind.
  destruct (truthy (field m "owner") && String.eqb (typeof (field m "owner")) "object");
    cbn [negb] in F; [|inversion F; reflexivity].
  rewrite (get_bind m _ _ w N), assert_bind.
  destruct (String.eqb (typeof (field m "createdAt")) "string" &&
            isIsoDate Date_parse (as_string (field m "createdAt")));
    cbn [negb] in F; [|inversion F; reflexivity].
  rewrite (get_bind m _ _ w N), assert_bind.
  destruct (String.eqb (typeof (field m "version")) "string" &&
            test SEMVER_RE (as_string (field m "version")));
    cbn [negb] in F; [discriminate F | inversion F; reflexivity].
Qed.

Lemma validate_model_null vfs mf w :
  eval (parseJson mf) w = Ret VNull ->
  eval (ValidateModel vfs mf) w =
  Throw (TypeError "Cannot read properties of null (reading 'id')").
Proof.
  intros P. unfold eval at 1, validate_model.
  rewrite (bind_readonly _ _ w (readonly_parseJson mf)), P. reflexivity.
Qed.

(** X12.  The model document of a model file that is reached (the model
    files before it pass) is checked field by field in the order [id],
    [name], [modality], [owner], [createdAt], [version]: the first check
    that fails ends the run with status 1 and that check's message, which
    names the file.  A file that does not parse ends it with
    [invalid_json: <path>], and the document [null] with the type error
    of reading [id] from it. *)
Theorem model_fields_checked_in_order rest w files pre mf post :
  no_help (validate_args rest) ->
  eval (walk (modelsDir rest)) w = Ret files ->
  modelFiles files = pre ++ mf :: post ->
  (forall y, In y pre -> eval (ValidateModel (versionFiles files) y) w = Ret tt) ->
  (forall m c,
     eval (parseJson mf) w = Ret m -> m <> VNull ->
     first_failed Date_parse m model_checks = Some c ->
     Run (validate_args rest) w = (1%Z, with_error w (model_check_message c mf))) /\
  (eval (parseJson mf) w = Ret VNull ->
   Run (validate_args rest) w =
   (1%Z, with_error w "Cannot read properties of null (reading 'id')")) /\
  (forall e,
     eval (parseJson mf) w = Throw e ->
     Run (validate_args rest) w = (1%Z, with_error w ("invalid_json: " ++ mf))).
Proof.
  intros Hh Hw Hs Hp. split; [|split].
  - intros m c P N F.
    apply (run_validate_throw Date_parse digest_handler publish_handler
             rest w files pre mf post
             (Error (model_check_message c mf)) Hh Hw Hs Hp).
    apply (validate_model_first_failed _ mf w m c P N F).
  - intros P.
    apply (run_validate_throw Date_parse digest_handler publish_handler
             rest w files pre mf post
             (TypeError "Cannot read properties of null (reading 'id')") Hh Hw Hs Hp).
    apply (validate_model_null _ mf w P).
  - intros e P.
    assert (E : e = Error ("invalid_json: " ++ mf)).
    { unfold eval in P. rewrite parseJson_run in P. cbn [fst] in P.
      destruct (eval (Fs.readFileSync mf) w) as [[s|v]|e'|c']; congruence. }
    subst e.
    apply (run_validate_throw Date_parse digest_handler publish_handler
             rest w files pre mf post
             (Error ("invalid_json: " ++ mf)) Hh Hw Hs Hp).
    apply (validate_model_parse_throw Date_parse _ mf w _ P).
Qed.

(** X13.  The performance notes are looked for beside the model file,
    under the name [PERFORMANCE.md], once the six field checks and the
    folder check have passed and before any version file is looked at.
    When that path is missing, or is a directory, the run ends with
    status 1 and [PERFORMANCE.md missing: <path>]. *)
Theorem performance_notes_must_be_a_file rest w files pre mf post m :
  no_help (validate_args rest) ->
  eval (walk (modelsDir rest)) w = Ret files ->
  modelFiles files = pre ++ mf :: post ->
  (forall y, In y pre -> eval (ValidateModel (versionFiles files) y) w = Ret tt) ->
  eval (parseJson mf) w = Ret m ->
  field_checks Date_parse m = true ->
  option_map VStr (folderModality mf) = field m "modality" ->
  (forall c, Fs.resolve (fs w) (Str.replace_suffix "model.json" "PERFORMANCE.md" mf)
             <> Some (File c)) ->
  Run (validate_args rest) w =
  (1%Z, with_error w ("PERFORMANCE.md missing: " ++
                      Str.replace_suffix "model.json" "PERFORMANCE.md" mf)).
Proof.
  intros Hh Hw Hs Hp P F Sm Hn.
  apply (run_validate_throw Date_parse digest_handler publish_handler
           rest w files pre mf post
           (Error ("PERFORMANCE.md missing: " ++
                   Str.replace_suffix "model.json" "PERFORMANCE.md" mf))
           Hh Hw Hs Hp).
  rewrite (validate_model_after_fields Date_parse _ mf w m P F).
  apply (strict_eq_string (folderModality mf)) in Sm. rewrite Sm. cbn [negb].
  unfold eval, Fs.statSync, bind, get_fs.
  destruct (Fs.resolve (fs w) (Str.replace_suffix "model.json" "PERFORMANCE.md" mf))
    as [[c|es]|]; try reflexivity.
  exfalso. apply (Hn c). reflexivity.
Qed.

(** X14.  When [<root>/models] is not a directory that can be listed,
    [validate models] ends with status 1 and the message of the
    file-system error of the listing on the error stream; the message
    [no model.json entries found under models/] is for a directory that
    was listed. *)
Theorem models_directory_must_exist rest w :
  no_help (validate_args rest) ->
  (forall es, Fs.resolve (fs w) (modelsDir rest) <> Some (Dir es)) ->
  exists code,
    Run (validate_args rest) w =
    (1%Z, with_error w (message (FsError code "scandir" (modelsDir rest)))).
Proof.
  intros Hh Hn.
  assert (E : exists code,
             eval (walk (modelsDir rest)) w =
             Throw (FsError code "scandir" (modelsDir rest))).
  { unfold eval, walk, Fs.readdirSync, bind, get_fs.
    destruct (Fs.resolve (fs w) (modelsDir rest)) as [[c|es]|].
    - exists ENOTDIR. reflexivity.
    - exfalso. apply (Hn es). reflexivity.
    - exists (Fs.lookup_errno (fs w) (modelsDir rest)). reflexivity. }
  destruct E as (code & E). exists code.
  rewrite (run_validate Date_parse digest_handler publish_handler rest w Hh).
  rewrite (cmdValidateModels_walk_throw Date_parse rest w _ E). reflexivity.
Qed.

(** X15.  A run of [validate models] prints exactly one line: either the
    line [OK: models registry validation passed.] on the output stream,
    with status 0, or one message on the error stream, with status 1.
    It has no other status, never prints on both streams, and leaves the
    file tree as it found it. *)
Theorem validate_prints_one_line rest w :
  no_help (validate_args rest) ->
  Run (validate_args rest) w =
    (0%Z, with_output w "OK: models registry validation passed.") \/
  exists msg, Run (validate_args rest) w = (1%Z, with_error w msg).
Proof.
  intros Hh.
  rewrite (run_validate Date_parse digest_handler publish_handler rest w Hh).
  destruct (cmdValidateModels_split Date_parse rest) as (m & R & E). rewrite E.
  destruct (eval m w) as [[]|e|c] eqn:Em.
  - left. reflexivity.
  - right. exists (message e). reflexivity.
  - exfalso. exact (readonly_no_exit m w c R Em).
Qed.

End ValidateRuns.

Lemma model_fields_checked_in_order_witness :
  run Date_parse_example cmd_example cmd_example (validate_args []) world_owner_string =
  (1%Z, with_error world_owner_string "model.owner required: models/text/foo/model.json").
Proof.
  apply (proj1 (model_fields_checked_in_order Date_parse_example cmd_example cmd_example
                  [] world_owner_string
                  ["models/text/foo/model.json"; "models/text/foo/PERFORMANCE.md";
                   "models/text/foo/versions/1.0.0.json"]
                  [] "models/text/foo/model.json" []
                  (conj eq_refl eq_refl) eq_refl eq_refl
                  (fun y (H : In y []) => match H with end))
           (VObj [("id", VStr "org/foo"); ("name", VStr "Example");
                  ("modality", VStr "text"); ("owner", VStr "contrib:unknown");
                  ("createdAt", VStr "not a date"); ("version", VStr "1.0.0")])
           OwnerIsObject).
  - reflexivity.
  - discriminate.
  - reflexivity.
Defined.

Lemma performance_notes_must_be_a_file_witness :
  run Date_parse_example cmd_example cmd_example (validate_args []) world_notes_directory =
  (1%Z, with_error world_notes_directory
          "PERFORMANCE.md missing: models/text/foo/PERFORMANCE.md").
Proof.
  apply (performance_notes_must_be_a_file Date_parse_example cmd_example cmd_example
           [] world_notes_directory
           ["models/text/foo/model.json"]
           [] "models/text/foo/model.json" []
           (example_model "org/foo" "text" "1.0.0")).
  - split; reflexivity.
  - reflexivity.
  - reflexivity.
  - intros y [].
  - reflexivity.
  - reflexivity.
  - reflexivity.
  - intros c H. vm_compute in H. discriminate H.
Defined.

Lemma models_directory_must_exist_witness :
  exists code,
    run Date_parse_example cmd_example cmd_example (validate_args []) world_empty =
    (1%Z, with_error world_empty (message (FsError code "scandir" (modelsDir [])))).
Proof.
  apply (models_directory_must_exist Date_parse_example cmd_example cmd_example
           [] world_empty).
  - split; reflexivity.
  - intros es H. vm_compute in H. discriminate H.
Defined.

Lemma validate_prints_one_line_witness :
  run Date_parse_example cmd_example cmd_example (validate_args []) world_valid =
    (0%Z, with_output world_valid "OK: models registry validation passed.") \/
  exists msg,
    run Date_parse_example cmd_example cmd_example (validate_args []) world_valid =
    (1%Z, with_error world_valid msg).
Proof.
  apply (validate_prints_one_line Date_parse_example cmd_example cmd_example
           [] world_valid).
  split; reflexivity.
Defined.

(* ================================================================== *)
(** * The publish handler *)
(* ================================================================== *)

(** ** Trimming and cutting into lines *)

Lemma trim_start_keep s :
  match s with EmptyString => True | String c _ => Str.is_space c = false end ->
  Str.trim_start s = s.
Proof. destruct s as [|c s]; cbn [Str.trim_start]; [reflexivity|]. intros ->. reflexivity. Qed.

Lemma trim_start_spaces ws s :
  Str.all Str.is_space ws = true -> Str.trim_start (ws ++ s) = Str.trim_start s.
Proof.
  induction ws as [|c ws IH]; cbn [Str.all append Str.trim_start]; [reflexivity|].
  intros H. apply andb_true_iff in H as [H1 H2]. rewrite H1. auto.
Qed.

(** White space around a text that starts and ends with something else. *)
Lemma trim_core ws1 a s ws2 :
  Str.all Str.is_space ws1 = true -> Str.all Str.is_space ws2 = true ->
  Str.is_space a = false ->
  match Str.rev (String a s) with
  | EmptyString => True
  | String b _ => Str.is_space b = false
  end ->
  Str.trim (ws1 ++ String a s ++ ws2) = String a s.
Proof.
  intros W1 W2 Ha Hb. unfold Str.trim.
  rewrite (trim_start_spaces ws1 _ W1).
  rewrite (trim_start_keep (String a s ++ ws2)) by exact Ha.
  rewrite rev_append.
  rewrite (trim_start_spaces (Str.rev ws2) _ (all_rev _ _ W2)).
  rewrite (trim_start_keep _ Hb). apply rev_involutive.
Qed.

Lemma rev_starts_nonspace s :
  Str.all (fun a => negb (Str.is_space a)) s = true ->
  match Str.rev s with
  | EmptyString => True
  | String b _ => Str.is_space b = false
  end.
Proof.
  intros A. apply all_rev in A. destruct (Str.rev s) as [|b r]; [exact I|].
  cbn [Str.all] in A. apply andb_true_iff in A as [A _].
  apply negb_true_iff in A. exact A.
Qed.

Lemma trim_nonspace c s :
  Str.all (fun a => negb (Str.is_space a)) (String c s) = true ->
  Str.trim (String c s) = String c s.
Proof.
  intros A.
  pose proof (trim_core EmptyString c s EmptyString eq_refl eq_refl) as T.
  cbn [append] in T. rewrite append_nil_r in T. apply T.
  - cbn [Str.all] in A. apply andb_true_iff in A as [A _].
    apply negb_true_iff in A. exact A.
  - apply rev_starts_nonspace. exact A.
Qed.

Lemma split_lines_one s :
  Str.all (fun a => negb (is_lf a)) s = true -> split_lines s = [s].
Proof.
  induction s as [|c s IH]; [reflexivity|].
  cbn [Str.all]. intros H. apply andb_true_iff in H as [Hc Hs].
  apply negb_true_iff in Hc. cbn [split_lines]. rewrite Hc.
  destruct s as [|d s']; [reflexivity|].
  assert (Hd : is_lf d = false).
  { cbn [Str.all] in Hs. apply andb_true_iff in Hs as [Hd _].
    apply negb_true_iff in Hd. exact Hd. }
  rewrite Hd, andb_false_r. rewrite (IH Hs). reflexivity.
Qed.

Lemma space_is_lf a : is_lf a = true -> Str.is_space a = true.
Proof.
  unfold is_lf. intros H. apply Ascii.eqb_eq in H. subst a. reflexivity.
Qed.

Lemma split_lines_at l more :
  Str.all in_line l = true ->
  split_lines (l ++ lf ++ more) = l :: split_lines more.
Proof.
  induction l as [|c l IH]; intros H.
  - reflexivity.
  - cbn [Str.all] in H. apply andb_true_iff in H as [Hc Hl].
    unfold in_line in Hc. apply negb_true_iff, orb_false_iff in Hc as [Hlf Hcr].
    cbn [append].
    assert (Step : split_lines (String c (l ++ lf ++ more)) =
                   cons_head c (split_lines (l ++ lf ++ more))).
    { clear IH. cbn [split_lines]. rewrite Hlf.
      destruct (l ++ lf ++ more)%string as [|d s''] eqn:E.
      - destruct l; discriminate E.
      - rewrite Hcr. reflexivity. }
    rewrite Step, (IH Hl). reflexivity.
Qed.

Lemma in_line_no_lf l :
  Str.all in_line l = true -> Str.all (fun a => negb (is_lf a)) l = true.
Proof.
  apply all_weaken. intros a H. unfold in_line in H.
  apply negb_true_iff, orb_false_iff in H as [H _]. rewrite H. reflexivity.
Qed.

Lemma split_lines_join lines :
  lines <> [] ->
  Forall (fun l => Str.all in_line l = true) lines ->
  split_lines (Str.concat_with lf lines) = lines.
Proof.
  intros N F. induction F as [|l lines Hl F IH]; [congruence|].
  destruct lines as [|l2 lines].
  - cbn [Str.concat_with]. apply split_lines_one, in_line_no_lf. assumption.
  - change (Str.concat_with lf (l :: l2 :: lines))
      with (l ++ lf ++ Str.concat_with lf (l2 :: lines))%string.
    rewrite (split_lines_at l _ Hl), IH by discriminate. reflexivity.
Qed.

Lemma porcelain_join e es :
  porcelain (e :: es) =
  (Str.concat_with lf (List.map porcelain_line (e :: es)) ++ lf)%string.
Proof.
  revert e. induction es as [|e2 es IH]; intros e.
  - cbn [porcelain fold_right List.map Str.concat_with]. reflexivity.
  - change (porcelain (e :: e2 :: es))
      with (porcelain_line e ++ lf ++ porcelain (e2 :: es))%string.
    rewrite IH.
    change (Str.concat_with lf (List.map porcelain_line (e :: e2 :: es)))
      with (porcelain_line e ++ lf ++
            Str.concat_with lf (List.map porcelain_line (e2 :: es)))%string.
    rewrite !append_assoc. reflexivity.
Qed.

Lemma nonspace_in_line p :
  Str.all (fun a => negb (Str.is_space a)) p = true -> Str.all in_line p = true.
Proof.
  apply all_weaken. intros a H. apply negb_true_iff in H. unfold in_line.
  destruct (is_lf a) eqn:E1.
  - apply space_is_lf in E1. congruence.
  - destruct (is_cr a) eqn:E2; [|reflexivity].
    unfold is_cr in E2. apply Ascii.eqb_eq in E2. subst a. discriminate H.
Qed.

Lemma status_entry_line x y p :
  status_entry (x, y, p) = true -> Str.all in_line (porcelain_line (x, y, p)) = true.
Proof.
  cbn [status_entry porcelain_line]. intros H.
  apply andb_true_iff in H as [H Hp]. apply andb_true_iff in H as [Hx Hy].
  unfold bare_path in Hp. apply andb_true_iff in Hp as [_ Hp].
  cbn [Str.all]. rewrite Hx, Hy, (nonspace_in_line p Hp). reflexivity.
Qed.

(** The text ends as its last line does. *)
Lemma concat_with_last sep init last :
  exists prefix, Str.concat_with sep (init ++ [last]) = (prefix ++ last)%string.
Proof.
  induction init as [|l init IH].
  - exists EmptyString. reflexivity.
  - destruct IH as (prefix & E).
    destruct (init ++ [last]) as [|l2 rest] eqn:El.
    + destruct init; discriminate El.
    + exists (l ++ sep ++ prefix)%string.
      change ((l :: init) ++ [last]) with (l :: (init ++ [last])). rewrite El.
      change (Str.concat_with sep (l :: l2 :: rest))
        with (l ++ sep ++ Str.concat_with sep (l2 :: rest))%string.
      rewrite E, !append_assoc. reflexivity.
Qed.

Lemma rev_ends_nonspace prefix p :
  bare_path p = true ->
  match Str.rev (prefix ++ p) with
  | EmptyString => True
  | String b _ => Str.is_space b = false
  end.
Proof.
  unfold bare_path. intros H. apply andb_true_iff in H as [N A].
  apply negb_true_iff in N. rewrite rev_append.
  pose proof (rev_starts_nonspace p A) as R.
  pose proof (rev_not_empty p N) as E.
  destruct (Str.rev p) as [|b r]; [discriminate E|]. exact R.
Qed.

(** A line of the listing, read as the handler reads every line. *)
Lemma status_line_path x y p :
  bare_path p = true ->
  Str.trim (slice_from 3 (porcelain_line (x, y, p))) = p.
Proof.
  unfold bare_path. intros H. apply andb_true_iff in H as [N A].
  cbn [porcelain_line slice_from].
  destruct p as [|c p]; [discriminate N|]. apply trim_nonspace. assumption.
Qed.

Lemma status_lines_paths es :
  Forall (fun e => status_entry e = true) es ->
  filter (fun l => negb (Str.is_empty l))
         (List.map (fun l => Str.trim (slice_from 3 l)) (List.map porcelain_line es)) =
  List.map snd es.
Proof.
  intros F. induction F as [|[[x y] p] es He F IH]; [reflexivity|].
  cbn [List.map filter snd].
  cbn [status_entry] in He. apply andb_true_iff in He as [_ Hp].
  rewrite (status_line_path x y p Hp), IH.
  unfold bare_path in Hp. apply andb_true_iff in Hp as [N _]. rewrite N. reflexivity.
Qed.

Lemma last_line_path es e :
  exists prefix, Str.concat_with lf (List.map porcelain_line (es ++ [e])) =
                 (prefix ++ snd e)%string.
Proof.
  rewrite map_app. cbn [List.map].
  destruct (concat_with_last lf (List.map porcelain_line es) (porcelain_line e))
    as (prefix & E).
  rewrite E. destruct e as [[x y] p]. cbn [porcelain_line snd].
  exists (prefix ++ String x (String y " "))%string.
  rewrite append_assoc. reflexivity.
Qed.

(** The whole listing when its first status column is blank. *)
Lemma status_paths_porcelain y c p more :
  Str.is_space y = false -> in_line y = true ->
  bare_path (String c p) = true ->
  Forall (fun e => status_entry e = true) more ->
  status_paths (Str.trim (porcelain ((" "%char, y, String c p) :: more))) =
  filter (fun l => negb (Str.is_empty l)) [p] ++ List.map snd more.
Proof.
  intros Hy Ly Hp Fm.
  rewrite porcelain_join.
  set (first := String y (String " " (String c p))).
  assert (T : Str.trim (Str.concat_with lf (List.map porcelain_line
                                              ((" "%char, y, String c p) :: more)) ++ lf)
              = Str.concat_with lf (first :: List.map porcelain_line more)).
  { assert (E : (Str.concat_with lf (List.map porcelain_line
                                       ((" "%char, y, String c p) :: more)) ++ lf)%string
                = (" " ++ Str.concat_with lf (first :: List.map porcelain_line more)
                       ++ lf)%string).
    { cbn [List.map porcelain_line]. destruct (List.map porcelain_line more); reflexivity. }
    rewrite E.
    assert (S : exists s, Str.concat_with lf (first :: List.map porcelain_line more)
                          = String y s).
    { destruct (List.map porcelain_line more); eexists; reflexivity. }
    destruct S as (s & S). rewrite S.
    apply (trim_core " " y s lf eq_refl eq_refl Hy).
    rewrite <- S.
    destruct (exists_last (l := (" "%char, y, String c p) :: more)) as (init & (e & El));
      [discriminate|].
    assert (L : exists prefix,
               Str.concat_with lf (first :: List.map porcelain_line more)
               = (prefix ++ snd e)%string /\ bare_path (snd e) = true).
    { destruct init as [|e0 init].
      - cbn [app] in El. inversion El. subst e more.
        exists (String y " "). split; [reflexivity | exact Hp].
      - cbn [app] in El. inversion El. subst e0 more.
        destruct (last_line_path init e) as (prefix & E2).
        exists (first ++ lf ++ prefix)%string. split.
        + destruct (List.map porcelain_line (init ++ [e])) as [|l2 ls] eqn:E3.
          * apply map_eq_nil in E3. destruct init; discriminate E3.
          * change (Str.concat_with lf (first :: l2 :: ls))
              with (first ++ lf ++ Str.concat_with lf (l2 :: ls))%string.
            rewrite E2, !append_assoc. reflexivity.
        + rewrite Forall_forall in Fm.
          assert (I : In e (init ++ [e])) by (apply in_or_app; right; left; reflexivity).
          specialize (Fm e I). destruct e as [[x0 y0] p0]. cbn [status_entry] in Fm.
          apply andb_true_iff in Fm as [_ Fm]. exact Fm. }
    destruct L as (prefix & -> & Hb). apply rev_ends_nonspace. exact Hb. }
  rewrite T. unfold status_paths.
  replace (Str.is_empty (Str.concat_with lf (first :: List.map porcelain_line more)))
    with false by (destruct (List.map porcelain_line more); reflexivity).
  rewrite split_lines_join.
  - rewrite map_cons.
    match goal with
    | |- filter ?f (?a :: ?l) = _ => change (a :: l) with ([a] ++ l)
    end.
    rewrite filter_app, (status_lines_paths more Fm).
    subst first. cbn [slice_from].
    replace (Str.trim p) with p; [reflexivity|].
    destruct p as [|c0 p0]; [reflexivity|].
    unfold bare_path in Hp. apply andb_true_iff in Hp as [_ Hp].
    cbn [Str.all] in Hp. apply andb_true_iff in Hp as [_ Hp].
    rewrite (trim_nonspace c0 p0 Hp). reflexivity.
  - discriminate.
  - constructor.
    + subst first. unfold bare_path in Hp. apply andb_true_iff in Hp as [_ Hp].
      change (in_line y && (in_line " " && Str.all in_line (String c p)) = true).
      rewrite Ly, (nonspace_in_line _ Hp). reflexivity.
    + apply Forall_map. eapply Forall_impl; [|exact Fm].
      intros [[x0 y0] p0]. apply status_entry_line.
Qed.

Lemma nonspace_is_in_line y : Str.is_space y = false -> in_line y = true.
Proof.
  intros H.
  pose proof (nonspace_in_line (String y EmptyString)) as N.
  cbn [Str.all] in N. rewrite H in N. specialize (N eq_refl).
  apply andb_true_iff in N as [N _]. exact N.
Qed.

Lemma diff_paths_listing paths :
  paths <> [] ->
  Forall (fun p => bare_path p = true) paths ->
  diff_paths (Str.trim (Str.concat_with lf paths ++ lf)) = paths.
Proof.
  intros N F.
  assert (Fl : Forall (fun l => Str.all in_line l = true) paths).
  { eapply Forall_impl; [|exact F]. intros p Hp. unfold bare_path in Hp.
    apply andb_true_iff in Hp as [_ Hp]. apply nonspace_in_line. exact Hp. }
  assert (T : Str.trim (Str.concat_with lf paths ++ lf) = Str.concat_with lf paths).
  { destruct (exists_last N) as (init & (last & El)).
    assert (Hl : bare_path last = true).
    { rewrite Forall_forall in F. apply F. rewrite El.
      apply in_or_app. right. left. reflexivity. }
    destruct (concat_with_last lf init last) as (prefix & E).
    assert (S : exists a s, Str.concat_with lf paths = String a s /\ Str.is_space a = false).
    { destruct paths as [|p0 ps]; [congruence|].
      inversion F as [|? ? Hp0 _]; subst. unfold bare_path in Hp0.
      apply andb_true_iff in Hp0 as [Ne A]. destruct p0 as [|a p0]; [discriminate Ne|].
      cbn [Str.all] in A. apply andb_true_iff in A as [A _]. apply negb_true_iff in A.
      destruct ps; eexists; eexists; (split; [reflexivity | exact A]). }
    destruct S as (a & s & S & Ha).
    pose proof (trim_core EmptyString a s lf eq_refl eq_refl Ha) as TC.
    cbn [append] in TC. rewrite S.
    change (String a s ++ lf)%string with (String a (s ++ lf)). apply TC.
    rewrite <- S, El, E. apply rev_ends_nonspace. exact Hl. }
  rewrite T. unfold diff_paths.
  replace (Str.is_empty (Str.concat_with lf paths)) with false.
  2:{ destruct paths as [|p0 ps]; [congruence|].
      inversion F as [|? ? Hp0 _]; subst. unfold bare_path in Hp0.
      apply andb_true_iff in Hp0 as [Ne _]. destruct p0; [discriminate Ne|].
      destruct ps; reflexivity. }
  rewrite (split_lines_join paths N Fl).
  clear -F. induction F as [|p ps Hp F IH]; [reflexivity|].
  cbn [filter]. unfold bare_path in Hp. apply andb_true_iff in Hp as [Ne _].
  rewrite Ne, IH. reflexivity.
Qed.

Section PublishRuns.

Variable Date_parse : string -> option Z.
Variable digest_handler : list string -> M Z.
Variable execSync : string -> M string.
Variable relative : string -> string -> string.
Variable JSON_stringify : value -> string.

Local Notation CmdPublish := (cmdPublish execSync relative JSON_stringify).
Local Notation Run := (run Date_parse digest_handler CmdPublish).

Lemma run_publish x rest w :
  no_help (x :: rest) ->
  Run ("publish" :: x :: rest) w = finish (CmdPublish rest w).
Proof. apply run_publish_handler. Qed.

Lemma for_of_log (f : string -> string) xs w :
  for_of xs (fun x => console_log (f x)) w =
  (Ret tt, World (fs w) (stdout w ++ List.map f xs) (stderr w) (clock w)).
Proof.
  revert w. induction xs as [|x xs IH]; intros w.
  - cbn. rewrite app_nil_r. destruct w; reflexivity.
  - cbn [for_of List.map]. unfold bind, console_log at 1.
    rewrite IH. cbn [fs stdout stderr clock].
    rewrite <- app_assoc. reflexivity.
Qed.

(** What the handler prints once it has the list of changed files. *)
Lemma publish_report changed w :
  bind (bind (console_log ("Changed files (" ++ decimal (List.length changed) ++ "):"))
             (fun _ => for_of (sort changed) (fun f => console_log (" - " ++ f))))
       (fun _ =>
          bind (console_log
                  (lf ++ "Note: publish is dry-run only. Open a PR to submit changes."))
               (fun _ => ret 0%Z)) w =
  (Ret 0%Z,
   World (fs w) (stdout w ++ publish_report_lines changed) (stderr w) (clock w)).
Proof.
  unfold bind at 1, bind at 1, console_log at 1.
  rewrite for_of_log. cbn [fs stdout stderr clock].
  unfold bind, console_log, ret, publish_report_lines. cbn [fs stdout stderr clock].
  rewrite <- !app_assoc. reflexivity.
Qed.

(** What the handler does with the text [git] printed. *)
Lemma cmdPublish_git rest w raw w1 :
  hasFlag rest "--json" = false ->
  execSync (if truthy_str (argValue rest "--since" None)
            then "git diff --name-only " ++ defined (argValue rest "--since" None) ++
                 " -- " ++ defined (argValue rest "--root" (Some "."))
            else "git status --porcelain " ++ defined (argValue rest "--root" (Some ".")))
           w = (Ret raw, w1) ->
  CmdPublish rest w =
  (Ret 0%Z,
   World (fs w1)
         (stdout w1 ++
          publish_report_lines
            (if truthy_str (argValue rest "--since" None)
             then diff_paths (Str.trim raw) else status_paths (Str.trim raw)))
         (stderr w1) (clock w1)).
Proof.
  intros Hj He. unfold cmdPublish. cbv zeta.
  unfold bind at 1, try_catch, bind at 1. rewrite He. cbn [ret]. rewrite Hj.
  apply publish_report.
Qed.

(** X16.  [publish] without [--since] trims the whole output of
    [git status --porcelain] before it cuts the first three characters
    off every line.  When the first status column of the first line is
    blank (an unstaged change, [ M path]) that line has lost its blank by
    then: the first path is listed without its first character, or not at
    all when it has only one; the paths of the other lines are listed in
    full. *)
Theorem publish_clips_the_first_path x rest w w1 y c p more :
  no_help (x :: rest) ->
  truthy_str (argValue rest "--since" None) = false ->
  hasFlag rest "--json" = false ->
  Str.is_space y = false ->
  bare_path (String c p) = true ->
  Forall (fun e => status_entry e = true) more ->
  execSync ("git status --porcelain " ++ defined (argValue rest "--root" (Some "."))) w =
    (Ret (porcelain ((" "%char, y, String c p) :: more)), w1) ->
  Run ("publish" :: x :: rest) w =
  (0%Z,
   World (fs w1)
         (stdout w1 ++
          publish_report_lines
            (filter (fun l => negb (Str.is_empty l)) [p] ++ List.map snd more))
         (stderr w1) (clock w1)).
Proof.
  intros Hh Hs Hj Hy Hp Fm He.
  rewrite (run_publish_handler Date_parse digest_handler CmdPublish x rest w Hh).
  rewrite (cmdPublish_git rest w (porcelain ((" "%char, y, String c p) :: more)) w1 Hj);
    [|rewrite Hs; exact He].
  rewrite Hs, (status_paths_porcelain y c p more Hy (nonspace_is_in_line y Hy) Hp Fm).
  reflexivity.
Qed.

(** X17.  [publish] is a dry run: it writes nothing itself.  When the
    [git] child process leaves the file tree alone, the tree after the
    run is the tree before it, whatever [git] printed or however it
    failed. *)
Theorem publish_is_dry_run x rest w :
  no_help (x :: rest) ->
  (forall cmd w0, fs (snd (execSync cmd w0)) = fs w0) ->
  fs (snd (Run ("publish" :: x :: rest) w)) = fs w.
Proof.
  intros Hh Hg. rewrite (run_publish x rest w Hh).
  assert (F : fs (snd (CmdPublish rest w)) = fs w).
  { unfold cmdPublish. cbv zeta.
    set (cmd := if truthy_str (argValue rest "--since" None) then _ else _).
    unfold bind at 1, try_catch, bind at 1.
    pose proof (Hg cmd w) as G.
    destruct (execSync cmd w) as [[raw|e|code] w1]; cbn [snd] in G; cbn [ret].
    - destruct (hasFlag rest "--json").
      + cbn. assumption.
      + rewrite publish_report. cbn. assumption.
    - unfold bind at 1.
      rewrite (readonly_run _ w1 (readonly_walk _)).
      destruct (eval (walk (defined (argValue rest "--root" (Some ".")))) w1)
        as [files|e'|code]; cbn [ret snd]; try assumption.
      destruct (hasFlag rest "--json").
      + cbn. assumption.
      + rewrite publish_report. cbn. assumption.
    - cbn. assumption. }
  destruct (CmdPublish rest w) as [[code|e|code] w']; cbn [snd finish] in *; assumption.
Qed.

(** X18.  When [git] cannot be run, [publish] falls back to a walk of
    [--root] (the working directory by default): it lists every file
    below it, made relative to the working directory and sorted, under a
    header that counts them, and ends with status 0.  When the root
    cannot be listed either, the error of the walk escapes: status 1 and
    its message on the error stream, nothing on the output stream. *)
Theorem publish_falls_back_to_walk x rest w :
  no_help (x :: rest) ->
  hasFlag rest "--json" = false ->
  (forall cmd, exists e, execSync cmd w = (Throw e, w)) ->
  let root := defined (argValue rest "--root" (Some ".")) in
  (forall files,
     eval (walk root) w = Ret files ->
     Run ("publish" :: x :: rest) w =
     (0%Z,
      World (fs w)
            (stdout w ++ publish_report_lines (List.map (relative ".") files))
            (stderr w) (clock w))) /\
  (forall e,
     eval (walk root) w = Throw e ->
     Run ("publish" :: x :: rest) w = (1%Z, with_error w (message e))).
Proof.
  intros Hh Hj Hg root.
  assert (S : forall o,
             eval (walk root) w = o ->
             CmdPublish rest w =
             match o with
             | Ret files =>
                 (Ret 0%Z,
                  World (fs w)
                    (stdout w ++ publish_report_lines (List.map (relative ".") files))
                    (stderr w) (clock w))
             | Throw e => (Throw e, w)
             | Exit c => (Exit c, w)
             end).
  { intros o Ho. unfold cmdPublish. cbv zeta. fold root.
    set (cmd := if truthy_str (argValue rest "--since" None) then _ else _).
    destruct (Hg cmd) as (e & E).
    unfold bind at 1, try_catch, bind at 1. rewrite E.
    unfold bind at 1. rewrite (readonly_run _ w (readonly_walk _)), Ho.
    destruct o as [files|e'|c]; try reflexivity.
    cbn [ret]. rewrite Hj. apply publish_report. }
  split.
  - intros files Hw. rewrite (run_publish x rest w Hh), (S _ Hw). reflexivity.
  - intros e Hw. rewrite (run_publish x rest w Hh), (S _ Hw). reflexivity.
Qed.

(** X19.  [publish --since <ref>] lists every path that
    [git diff --name-only] printed, each in full, sorted, under a header
    that counts them, and ends with status 0. *)
Theorem publish_since_lists_every_path x rest w w1 since paths :
  no_help (x :: rest) ->
  argValue rest "--since" None = Some since -> Str.is_empty since = false ->
  hasFlag rest "--json" = false ->
  paths <> [] ->
  Forall (fun p => bare_path p = true) paths ->
  execSync ("git diff --name-only " ++ since ++ " -- " ++
            defined (argValue rest "--root" (Some "."))) w =
    (Ret (Str.concat_with lf paths ++ lf)%string, w1) ->
  Run ("publish" :: x :: rest) w =
  (0%Z,
   World (fs w1) (stdout w1 ++ publish_report_lines paths) (stderr w1) (clock w1)).
Proof.
  intros Hh Hs Hn Hj Np Fp He.
  assert (Ts : truthy_str (argValue rest "--since" None) = true).
  { rewrite Hs. cbn [truthy_str]. rewrite Hn. reflexivity. }
  rewrite (run_publish_handler Date_parse digest_handler CmdPublish x rest w Hh).
  rewrite (cmdPublish_git rest w (Str.concat_with lf paths ++ lf)%string w1 Hj);
    [|rewrite Ts, Hs; cbn [defined]; exact He].
  rewrite Ts, (diff_paths_listing paths Np Fp). reflexivity.
Qed.

End PublishRuns.

Lemma publish_clips_the_first_path_witness :
  run Date_parse_example cmd_example
      (cmdPublish execSync_git relative_example JSON_stringify_example)
      ["publish"; "--json"] world_valid =
  (0%Z,
   World (fs world_valid)
         (stdout world_valid ++
          ["Changed files (2):"; " - b.txt"; " - rc/index.ts";
           (lf ++ "Note: publish is dry-run only. Open a PR to submit changes.")%string])
         (stderr world_valid) (clock world_valid)).
Proof.
  apply (publish_clips_the_first_path Date_parse_example cmd_example
           execSync_git relative_example JSON_stringify_example
           "--json" [] world_valid world_valid "M"%char "s"%char "rc/index.ts"
           [("?"%char, "?"%char, "b.txt")]).
  - split; reflexivity.
  - reflexivity.
  - reflexivity.
  - reflexivity.
  - reflexivity.
  - repeat constructor.
  - reflexivity.
Defined.

Lemma publish_is_dry_run_witness :
  fs (snd (run Date_parse_example cmd_example
               (cmdPublish execSync_git relative_example JSON_stringify_example)
               ["publish"; "--root"; "models"] world_valid)) = fs world_valid.
Proof.
  apply (publish_is_dry_run Date_parse_example cmd_example
           execSync_git relative_example JSON_stringify_example
           "--root" ["models"] world_valid).
  - split; reflexivity.
  - intros cmd w0. unfold execSync_git.
    destruct (String.eqb cmd "git status --porcelain ."); [reflexivity|].
    destruct (String.eqb cmd "git diff --name-only HEAD~1 -- ."); reflexivity.
Defined.

Lemma publish_falls_back_to_walk_witness :
  run Date_parse_example cmd_example
      (cmdPublish execSync_failing relative_example JSON_stringify_example)
      ["publish"; "now"; "--root"; "models"] world_valid =
  (0%Z,
   World (fs world_valid)
         (stdout world_valid ++
          ["Changed files (3):";
           " - models/text/foo/PERFORMANCE.md";
           " - models/text/foo/model.json";
           " - models/text/foo/versions/1.0.0.json";
           (lf ++ "Note: publish is dry-run only. Open a PR to submit changes.")%string])
         (stderr world_valid) (clock world_valid)).
Proof.
  apply (proj1 (publish_falls_back_to_walk Date_parse_example cmd_example
                  execSync_failing relative_example JSON_stringify_example
                  "now" ["--root"; "models"] world_valid
                  (conj eq_refl eq_refl) eq_refl
                  (fun cmd => ex_intro _ (Error "Command failed") eq_refl))
           ["models/text/foo/model.json"; "models/text/foo/PERFORMANCE.md";
            "models/text/foo/versions/1.0.0.json"]).
  reflexivity.
Defined.

Lemma publish_since_lists_every_path_witness :
  run Date_parse_example cmd_example
      (cmdPublish execSync_git relative_example JSON_stringify_example)
      ["publish"; "now"; "--since"; "HEAD~1"] world_valid =
  (0%Z,
   World (fs world_valid)
         (stdout world_valid ++
          ["Changed files (2):"; " - README.md"; " - src/index.ts";
           (lf ++ "Note: publish is dry-run only. Open a PR to submit changes.")%string])
         (stderr world_valid) (clock world_valid)).
Proof.
  apply (publish_since_lists_every_path Date_parse_example cmd_example
           execSync_git relative_example JSON_stringify_example
           "now" ["--since"; "HEAD~1"] world_valid world_valid "HEAD~1"
           ["src/index.ts"; "README.md"]).
  - split; reflexivity.
  - reflexivity.
  - reflexivity.
  - reflexivity.
  - discriminate.
  - repeat constructor.
  - reflexivity.
Defined.

(* ================================================================== *)
(** * A second version of an entry *)
(* ================================================================== *)

Lemma append_json_inj a b : (a ++ ".json")%string = (b ++ ".json")%string -> a = b.
Proof.
  revert b. induction a as [|x a IH]; intros b E.
  - destruct b as [|y b]; [reflexivity|].
    apply (f_equal String.length) in E. rewrite length_append in E.
    cbn [String.length append] in E. rewrite length_append in E. simpl in E. lia.
  - destruct b as [|y b].
    + apply (f_equal String.length) in E. cbn [append String.length] in E.
      rewrite length_append in E. simpl in E. lia.
    + cbn [append] in E. inversion E. f_equal. apply IH. assumption.
Qed.

Lemma put_file_beside x y c c0 :
  x <> y ->
  Fs.put_file [y] c (Dir [(x, File c0)]) = Some (Dir [(x, File c0); (y, File c)]).
Proof.
  intros N. cbn [Fs.put_file assoc].
  replace (String.eqb y x) with false; [reflexivity|].
  symmetry. apply String.eqb_neq. congruence.
Qed.

(** [init model] on top of a scaffold of the same entry at another
    version. *)
Lemma cmdInitModel_next_version rest w root rs m slug id name v v1 mj1 vj1 n1 :
  fs w = scaffolded_tree (rs ++ ["models"; m; slug]) v1 mj1 vj1 n1 ->
  v1 <> v ->
  argValue rest "--root" (Some ".") = Some root -> root_at root rs ->
  argValue rest "--modality" None = Some m -> In m modalities ->
  argValue rest "--slug" None = Some slug -> plain_segment slug = true ->
  argValue rest "--id" None = Some id -> Str.is_empty id = false ->
  argValue rest "--name" (Some slug) = Some name ->
  argValue rest "--version" (Some "0.1.0") = Some v -> test SEMVER_RE v = true ->
  exists modelJson versionJson notes,
    cmdInitModel rest w =
    (Ret 0%Z,
     World (released_tree (rs ++ ["models"; m; slug]) v1 vj1 v modelJson versionJson notes)
           (stdout w ++ [("Scaffolded: " ++ path_of (rs ++ ["models"; m; slug]))%string])
           (stderr w) (clock w)) /\
    field modelJson "id" = Some (VStr id) /\
    field modelJson "name" = Some (VStr name) /\
    field modelJson "modality" = Some (VStr m) /\
    (exists o, field modelJson "owner" = Some (VObj o)) /\
    field modelJson "createdAt" = Some (VStr (clock w)) /\
    field modelJson "version" = Some (VStr v) /\
    field versionJson "modelId" = Some (VStr id) /\
    field versionJson "version" = Some (VStr v) /\
    artifact_digest versionJson = Some (VStr zero_digest).
Proof.
  intros Hfs Hne Hroot Hr Hm Hin Hslug Hsp Hid Hidn Hname Hv Hsv.
  pose proof (modality_plain m Hin) as Hmp.
  pose proof (semver_file_plain v Hsv) as Hvp.
  pose proof (proj1 Hr) as Frs.
  assert (Hvn : Str.is_empty v = false).
  { apply SEMVER_RE_lang, semver_length in Hsv. destruct v; [simpl in Hsv; lia | reflexivity]. }
  unfold cmdInitModel. cbv zeta.
  rewrite Hm, Hslug, Hid, Hv, Hroot.
  cbn [truthy_str defined].
  rewrite (plain_not_empty m Hmp), (plain_not_empty slug Hsp), Hidn, Hvn, Hsv.
  cbn [negb]. rewrite (modality_listed m Hin), Hname.
  rewrite (argValue_fallback rest "--owner"), (argValue_fallback rest "--owner-name").
  cbn [negb orb prop app when bind ret path_arg now_iso].
  assert (Fsa : Forall (fun s => plain_segment s = true) (rs ++ ["models"; m; slug]))
    by plain_tac.
  assert (Nsa : rs ++ ["models"; m; slug] <> []) by plain_tac.
  rewrite (join_root root rs ["models"; m; slug] Hr) by plain_tac.
  rewrite (join_two (rs ++ ["models"; m; slug]) "model.json") by plain_tac.
  rewrite (join_two (rs ++ ["models"; m; slug]) "PERFORMANCE.md") by plain_tac.
  rewrite (join_three (rs ++ ["models"; m; slug]) "versions" (v ++ ".json")) by plain_tac.
  do 3 eexists. split.
  - erewrite bind_run;
      [| eapply (write_into_nest (rs ++ ["models"; m; slug]) "model.json");
         [ exact Hfs | assumption | assumption | reflexivity | reflexivity ]].
    erewrite bind_run;
      [| eapply (write_into_nest_sub (rs ++ ["models"; m; slug]) "versions" (v ++ ".json"));
         [ reflexivity | assumption | assumption | reflexivity | assumption
         | reflexivity
         | (erewrite put_file_step; [| reflexivity]);
           rewrite put_file_beside; [reflexivity|];
           intros E; apply append_json_inj in E; contradiction ]].
    erewrite bind_run;
      [| eapply (write_into_nest (rs ++ ["models"; m; slug]) "PERFORMANCE.md");
         [ reflexivity | assumption | assumption | reflexivity | reflexivity ]].
    reflexivity.
  - cbn. repeat split; try reflexivity. eexists. reflexivity.
Qed.

(** ** The paths of an entry of the registry *)

Section EntryPaths.

Variable sa : list string.
Hypothesis Hsa : Forall (fun s => plain_segment s = true) sa.
Hypothesis Hne : sa <> [].

Local Notation MF := (path_of (sa ++ ["model.json"])).
Local Notation PF := (path_of (sa ++ ["PERFORMANCE.md"])).
Local Notation VF v := (path_of (sa ++ ["versions"; (v ++ ".json")%string])).

Lemma model_file_is_model : Str.endsWith MF "model.json" = true.
Proof. rewrite path_of_last by assumption. apply endsWith_append. Qed.

Lemma notes_file_not_model : Str.endsWith PF "model.json" = false.
Proof.
  rewrite path_of_last by assumption.
  rewrite endsWith_long by (simpl; lia). reflexivity.
Qed.

Lemma notes_file_not_version :
  versions_dir_test PF && Str.endsWith PF ".json" = false.
Proof.
  apply andb_false_iff. right. rewrite path_of_last by assumption.
  rewrite endsWith_long by (simpl; lia). reflexivity.
Qed.

Lemma model_file_outside_versions :
  Str.startsWith (to_slashes MF) (to_slashes (versionsDir MF)) = false.
Proof.
  rewrite (scaffold_versionsDir sa Hne).
  rewrite !to_slashes_path_of by plain_tac.
  rewrite !path_of_last by assumption.
  rewrite startsWith_common. reflexivity.
Qed.

Section OneVersion.

Variable v : string.
Hypothesis Hv : test SEMVER_RE v = true.
Hypothesis Hnot_model : Str.endsWith v "model" = false.

Lemma version_file_not_model : Str.endsWith (VF v) "model.json" = false.
Proof.
  rewrite (scaffold_VF_form sa v Hne).
  rewrite endsWith_long by exact (scaffold_version_length v Hv).
  rewrite endsWith_json. exact Hnot_model.
Qed.

Lemma version_file_is_version :
  versions_dir_test (VF v) && Str.endsWith (VF v) ".json" = true.
Proof.
  pose proof (semver_file_plain v Hv) as Hvp.
  apply andb_true_iff. split.
  - unfold versions_dir_test. apply orb_true_iff. left.
    rewrite path_of_app by plain_tac.
    rewrite <- append_assoc. apply includes_append.
    change (path_of ["versions"; (v ++ ".json")%string])
      with ("versions/" ++ (v ++ ".json"))%string.
    apply includes_prefix.
  - rewrite (scaffold_VF_form sa v Hne), <- append_assoc. apply endsWith_append.
Qed.

Lemma version_file_under_versions :
  Str.startsWith (to_slashes (VF v)) (to_slashes (versionsDir MF)) = true.
Proof.
  pose proof (semver_file_plain v Hv) as Hvp.
  rewrite (scaffold_versionsDir sa Hne).
  rewrite !to_slashes_path_of by plain_tac.
  change (sa ++ ["versions"; (v ++ ".json")%string])
    with (sa ++ ["versions"] ++ [(v ++ ".json")%string]).
  rewrite app_assoc.
  rewrite (path_of_last (sa ++ ["versions"])) by plain_tac.
  rewrite append_assoc. apply startsWith_append.
Qed.

End OneVersion.

(** The files of an entry with two versions, as the engine sorts them. *)
Lemma released_modelFiles v1 v2 :
  test SEMVER_RE v1 = true -> Str.endsWith v1 "model" = false ->
  test SEMVER_RE v2 = true -> Str.endsWith v2 "model" = false ->
  modelFiles [MF; VF v1; VF v2; PF] = [MF].
Proof.
  intros H1 N1 H2 N2. unfold modelFiles. cbn [filter].
  rewrite model_file_is_model, (version_file_not_model v1 H1 N1),
    (version_file_not_model v2 H2 N2), notes_file_not_model.
  reflexivity.
Qed.

Lemma released_matching v1 v2 :
  test SEMVER_RE v1 = true -> test SEMVER_RE v2 = true ->
  matching (versionFiles [MF; VF v1; VF v2; PF]) MF = [VF v1; VF v2].
Proof.
  intros H1 H2.
  pose proof (semver_file_plain v1 H1) as P1.
  pose proof (semver_file_plain v2 H2) as P2.
  unfold matching, versionFiles. cbn [filter].
  rewrite (version_file_is_version v1 H1), (version_file_is_version v2 H2),
    notes_file_not_version.
  destruct (versions_dir_test MF && Str.endsWith MF ".json");
    cbn [filter List.map];
    rewrite ?model_file_outside_versions,
      (version_file_under_versions v1 H1), (version_file_under_versions v2 H2);
    cbn [List.map]; rewrite !to_slashes_path_of by plain_tac; reflexivity.
Qed.

End EntryPaths.

Lemma walk_released w rs m slug v1 vj1 v2 modelJson versionJson notes :
  fs w = released_tree (rs ++ ["models"; m; slug]) v1 vj1 v2 modelJson versionJson notes ->
  Forall (fun s => plain_segment s = true) rs ->
  In m modalities -> plain_segment slug = true ->
  test SEMVER_RE v1 = true -> test SEMVER_RE v2 = true ->
  eval (walk (path_of (rs ++ ["models"]))) w =
  Ret [path_of ((rs ++ ["models"; m; slug]) ++ ["model.json"]);
       path_of ((rs ++ ["models"; m; slug]) ++ ["versions"; (v1 ++ ".json")%string]);
       path_of ((rs ++ ["models"; m; slug]) ++ ["versions"; (v2 ++ ".json")%string]);
       path_of ((rs ++ ["models"; m; slug]) ++ ["PERFORMANCE.md"])].
Proof.
  intros Hfs Frs Hm Hslug Hv1 Hv2.
  pose proof (modality_plain m Hm) as Hmp.
  pose proof (semver_file_plain v1 Hv1) as Hvp1.
  pose proof (semver_file_plain v2 Hv2) as Hvp2.
  unfold eval, walk.
  rewrite (bind_readonly _ _ w (readonly_readdirSync _)).
  rewrite (eval_readdir_plain w (rs ++ ["models"]) [(m, nest [slug]
             (Dir [("model.json", File (Json modelJson));
                   ("versions", Dir [((v1 ++ ".json")%string, File (Json vj1));
                                     ((v2 ++ ".json")%string, File (Json versionJson))]);
                   ("PERFORMANCE.md", File (Plain notes))]))]);
    [| plain_tac | plain_tac |].
  2:{ rewrite Hfs. unfold released_tree.
      change (rs ++ ["models"; m; slug]) with (rs ++ ["models"] ++ [m; slug]).
      rewrite app_assoc, nest_app.
      rewrite <- (app_nil_r (rs ++ ["models"])) at 1.
      rewrite descend_nest. reflexivity. }
  unfold nest. cbn [fold_right ret fst walk_node].
  repeat (rewrite join_two by plain_tac; cbn [app]).
  repeat (rewrite <- app_assoc; cbn [app]).
  reflexivity.
Qed.

Section SecondVersion.

Variable Date_parse : string -> option Z.
Variable digest_handler publish_handler : list string -> M Z.

Local Notation Run := (run Date_parse digest_handler publish_handler).

(** A version document as the scaffolder writes it passes its checks,
    but for the model id, which may have changed since. *)
Lemma validate_version_scaffolded w sa v doc id m_id :
  Forall (fun s => plain_segment s = true) sa -> sa <> [] ->
  test SEMVER_RE v = true ->
  descend (sa ++ ["versions"; (v ++ ".json")%string]) (fs w) = Some (File (Json doc)) ->
  field doc "modelId" = Some (VStr id) ->
  field doc "version" = Some (VStr v) ->
  artifact_digest doc = Some (VStr zero_digest) ->
  eval (validate_version (Some (VStr m_id))
          (path_of (sa ++ ["versions"; (v ++ ".json")%string]))) w =
  if String.eqb id m_id then Ret tt
  else Throw (Error ("version.modelId mismatch: " ++
                     path_of (sa ++ ["versions"; (v ++ ".json")%string]))).
Proof.
  intros Fsa Nsa Hv D Gid Gver Gdig.
  pose proof (semver_file_plain v Hv) as Hvp.
  rewrite (validate_version_spec _ _ w doc)
    by (apply eval_parseJson_plain; [plain_tac | plain_tac | exact D]).
  unfold first_violated, version_checks. cbn [find version_check_holds].
  rewrite Gid, Gver, Gdig.
  rewrite (scaffold_versionFromFile sa v) by assumption.
  cbn [strict_eq option_map typeof as_string version_check_message].
  rewrite !String.eqb_refl, Hv.
  replace (test SHA256_RE zero_digest) with true by (vm_compute; reflexivity).
  destruct doc; try discriminate Gid.
  destruct (String.eqb id m_id); reflexivity.
Qed.

Lemma validate_released vrest w root rs m slug v1 vj1 id1 v modelJson versionJson notes
      id name o :
  no_help (validate_args vrest) ->
  argValue vrest "--root" (Some ".") = Some root ->
  root_at root rs -> ~ In "models" rs ->
  fs w = released_tree (rs ++ ["models"; m; slug]) v1 vj1 v modelJson versionJson notes ->
  In m modalities -> plain_segment slug = true ->
  test SEMVER_RE v1 = true -> Str.endsWith v1 "model" = false ->
  test SEMVER_RE v = true -> Str.endsWith v "model" = false ->
  v1 <> v ->
  nonblank (Some (VStr id)) = true ->
  nonblank (Some (VStr name)) = true ->
  isIsoDate Date_parse (clock w) = true ->
  field modelJson "id" = Some (VStr id) ->
  field modelJson "name" = Some (VStr name) ->
  field modelJson "modality" = Some (VStr m) ->
  field modelJson "owner" = Some (VObj o) ->
  field modelJson "createdAt" = Some (VStr (clock w)) ->
  field modelJson "version" = Some (VStr v) ->
  field versionJson "modelId" = Some (VStr id) ->
  field versionJson "version" = Some (VStr v) ->
  artifact_digest versionJson = Some (VStr zero_digest) ->
  field vj1 "modelId" = Some (VStr id1) ->
  field vj1 "version" = Some (VStr v1) ->
  artifact_digest vj1 = Some (VStr zero_digest) ->
  Run (validate_args vrest) w =
  if String.eqb id1 id
  then (0%Z, with_output w "OK: models registry validation passed.")
  else (1%Z, with_error w
               ("version.modelId mismatch: " ++
                path_of ((rs ++ ["models"; m; slug]) ++
                         ["versions"; (v1 ++ ".json")%string]))).
Proof.
  intros Hh Hroot Hr Hnm Hfs Hm Hslug Hv1 Hnot1 Hv Hnot Hne Hid Hname Hdate
         Fid Fname Fmod Fown Fcreated Fver Gid Gver Gdig Oid Over Odig.
  pose proof (modality_plain m Hm) as Hmp.
  pose proof (semver_file_plain v Hv) as Hvp.
  pose proof (semver_file_plain v1 Hv1) as Hvp1.
  pose proof (proj1 Hr) as Frs.
  set (sa := rs ++ ["models"; m; slug]) in *.
  assert (Fsa : Forall (fun s => plain_segment s = true) sa) by (subst sa; plain_tac).
  assert (Nsa : sa <> []) by (subst sa; plain_tac).
  assert (Dm : descend (sa ++ ["model.json"]) (fs w) = Some (File (Json modelJson))).
  { rewrite Hfs. unfold released_tree. rewrite descend_nest. reflexivity. }
  assert (Dp : descend (sa ++ ["PERFORMANCE.md"]) (fs w) = Some (File (Plain notes))).
  { rewrite Hfs. unfold released_tree. rewrite descend_nest. reflexivity. }
  assert (Dv1 : descend (sa ++ ["versions"; (v1 ++ ".json")%string]) (fs w)
                = Some (File (Json vj1))).
  { rewrite Hfs. unfold released_tree. rewrite descend_nest.
    cbn [descend assoc].
    change (String.eqb "versions" "model.json") with false.
    change (String.eqb "versions" "versions") with true.
    cbn [descend assoc]. rewrite String.eqb_refl. reflexivity. }
  assert (Dv : descend (sa ++ ["versions"; (v ++ ".json")%string]) (fs w)
               = Some (File (Json versionJson))).
  { rewrite Hfs. unfold released_tree. rewrite descend_nest.
    cbn [descend assoc].
    change (String.eqb "versions" "model.json") with false.
    change (String.eqb "versions" "versions") with true.
    cbn [descend assoc].
    replace (String.eqb (v ++ ".json") (v1 ++ ".json")) with false.
    2:{ symmetry. apply String.eqb_neq. intros E. apply append_json_inj in E. congruence. }
    rewrite String.eqb_refl. reflexivity. }
  assert (Ep : eval (Fs.statSync (path_of (sa ++ ["PERFORMANCE.md"]))) w = Ret Fs.IsFile).
  { apply (eval_stat_file_plain w _ (Plain notes)); [plain_tac | plain_tac | exact Dp]. }
  assert (Hwalk : eval (walk (modelsDir vrest)) w =
                  Ret [path_of (sa ++ ["model.json"]);
                       path_of (sa ++ ["versions"; (v1 ++ ".json")%string]);
                       path_of (sa ++ ["versions"; (v ++ ".json")%string]);
                       path_of (sa ++ ["PERFORMANCE.md"])]).
  { unfold modelsDir. rewrite Hroot. cbn [defined].
    rewrite (join_root root rs ["models"] Hr) by plain_tac.
    apply (walk_released w rs m slug v1 vj1 v modelJson versionJson notes); assumption. }
  assert (Fc : field_checks Date_parse modelJson = true).
  { unfold field_checks. rewrite Fid, Fname, Fmod, Fown, Fcreated, Fver.
    rewrite Hid, Hname, (includes_modality m Hm).
    cbn [truthy typeof as_string andb]. rewrite !String.eqb_refl, Hdate, Hv.
    reflexivity. }
  assert (Vm : eval (validate_model Date_parse
                       (versionFiles [path_of (sa ++ ["model.json"]);
                                      path_of (sa ++ ["versions"; (v1 ++ ".json")%string]);
                                      path_of (sa ++ ["versions"; (v ++ ".json")%string]);
                                      path_of (sa ++ ["PERFORMANCE.md"])])
                       (path_of (sa ++ ["model.json"]))) w =
               if String.eqb id1 id then Ret tt
               else Throw (Error ("version.modelId mismatch: " ++
                                  path_of (sa ++ ["versions"; (v1 ++ ".json")%string])))).
  { rewrite (validate_model_after_fields Date_parse _ _ w modelJson);
      [| apply eval_parseJson_plain; [plain_tac | plain_tac | exact Dm] | exact Fc].
    subst sa. rewrite (scaffold_folderModality rs m slug Frs Hnm Hm Hslug), Fmod.
    set (sa := rs ++ ["models"; m; slug]) in *.
    cbn [option_map strict_eq]. rewrite String.eqb_refl. cbn [negb].
    rewrite (scaffold_perfPath sa) by assumption.
    rewrite Ep.
    rewrite (released_matching sa Fsa Nsa v1 v Hv1 Hv).
    cbn [List.length Nat.ltb Nat.leb negb].
    rewrite Fver. cbn [as_string].
    rewrite (scaffold_expectedFile sa v) by assumption.
    cbn [existsb]. rewrite String.eqb_refl, orb_true_r. cbn [negb].
    unfold eval at 1. cbn [for_of].
    rewrite (bind_readonly _ _ w (readonly_validate_version _ _)).
    rewrite Fid.
    rewrite (validate_version_scaffolded w sa v1 vj1 id1 id Fsa Nsa Hv1 Dv1 Oid Over Odig).
    destruct (String.eqb id1 id); [|reflexivity].
    rewrite (bind_readonly _ _ w (readonly_validate_version _ _)).
    rewrite (validate_version_scaffolded w sa v versionJson id id Fsa Nsa Hv Dv Gid Gver Gdig).
    rewrite String.eqb_refl. reflexivity. }
  destruct (String.eqb id1 id) eqn:Eid.
  - apply (run_validate_passes Date_parse digest_handler publish_handler vrest w _ Hh Hwalk).
    + rewrite (released_modelFiles sa Nsa v1 v Hv1 Hnot1 Hv Hnot). discriminate.
    + rewrite (released_modelFiles sa Nsa v1 v Hv1 Hnot1 Hv Hnot).
      intros mf [<- | []]. exact Vm.
  - apply (run_validate_throw Date_parse digest_handler publish_handler vrest w _
             [] (path_of (sa ++ ["model.json"])) []
             (Error ("version.modelId mismatch: " ++
                     path_of (sa ++ ["versions"; (v1 ++ ".json")%string])))
             Hh Hwalk).
    + apply (released_modelFiles sa Nsa v1 v Hv1 Hnot1 Hv Hnot).
    + intros y [].
    + exact Vm.
Qed.

(** X20.  [init model] can be run again to add a version to an entry.  In
    an empty working directory, scaffold an entry and then scaffold it
    again (same root, modality and slug) at another version, and then run
    [validate models] on that root; no token of the three command lines
    is [--help] or [-h].  The root is [.] (the default) or a relative
    path of plain components none of which is [models], the slug is a
    single plain component, the modality is one of the three, both
    versions are SemVer-valid and do not end in [model], the first id is
    not empty, the second id and name are not blank, and the paths
    written are within the limits of the operating system.  Then both
    scaffolds end with status 0, and the version file of the first
    scaffold is still there beside the new one.  [validate models]
    checks both: it ends with status 0 when the second run gave the same
    [--id] as the first, and with status 1 and [version.modelId mismatch:
    <path of the first version file>] when it gave another. *)
Theorem second_version_keeps_the_first
        rest1 rest2 vrest w root rs m slug id1 name1 v1 id2 name2 v2 :
  fs w = Dir [] ->
  isIsoDate Date_parse (clock w) = true ->
  no_help (init_args rest1) -> no_help (init_args rest2) ->
  no_help (validate_args vrest) ->
  argValue rest1 "--root" (Some ".") = Some root ->
  argValue rest2 "--root" (Some ".") = Some root ->
  argValue vrest "--root" (Some ".") = Some root ->
  root_at root rs -> ~ In "models" rs ->
  argValue rest1 "--modality" None = Some m ->
  argValue rest2 "--modality" None = Some m -> In m modalities ->
  argValue rest1 "--slug" None = Some slug ->
  argValue rest2 "--slug" None = Some slug -> plain_segment slug = true ->
  argValue rest1 "--id" None = Some id1 -> Str.is_empty id1 = false ->
  argValue rest2 "--id" None = Some id2 -> nonblank (Some (VStr id2)) = true ->
  argValue rest1 "--name" (Some slug) = Some name1 ->
  argValue rest2 "--name" (Some slug) = Some name2 -> nonblank (Some (VStr name2)) = true ->
  argValue rest1 "--version" (Some "0.1.0") = Some v1 ->
  test SEMVER_RE v1 = true -> Str.endsWith v1 "model" = false ->
  argValue rest2 "--version" (Some "0.1.0") = Some v2 ->
  test SEMVER_RE v2 = true -> Str.endsWith v2 "model" = false ->
  v1 <> v2 ->
  Fs.path_fits (path_of ((rs ++ ["models"; m; slug]) ++
                         ["versions"; (v1 ++ ".json")%string])) = true ->
  Fs.path_fits (path_of ((rs ++ ["models"; m; slug]) ++
                         ["versions"; (v2 ++ ".json")%string])) = true ->
  Fs.path_fits (path_of ((rs ++ ["models"; m; slug]) ++ ["PERFORMANCE.md"])) = true ->
  exists w1 w2,
    Run (init_args rest1) w = (0%Z, w1) /\
    Run (init_args rest2) w1 = (0%Z, w2) /\
    (exists c1 c2,
       eval (Fs.readFileSync
               (path_of ((rs ++ ["models"; m; slug]) ++
                         ["versions"; (v1 ++ ".json")%string]))) w2 = Ret c1 /\
       eval (Fs.readFileSync
               (path_of ((rs ++ ["models"; m; slug]) ++
                         ["versions"; (v2 ++ ".json")%string]))) w2 = Ret c2) /\
    (id1 = id2 ->
     Run (validate_args vrest) w2 =
     (0%Z, with_output w2 "OK: models registry validation passed.")) /\
    (id1 <> id2 ->
     Run (validate_args vrest) w2 =
     (1%Z, with_error w2
             ("version.modelId mismatch: " ++
              path_of ((rs ++ ["models"; m; slug]) ++
                       ["versions"; (v1 ++ ".json")%string])))).
Proof.
  intros Hfs Hdate Hh1 Hh2 Hhv Hroot1 Hroot2 Hrootv Hr Hnm Hm1 Hm2 Hin
         Hslug1 Hslug2 Hsp Hid1 Hid1n Hid2 Hid2n Hname1 Hname2 Hname2n
         Hv1 Hsv1 Hnot1 Hv2 Hsv2 Hnot2 Hne _ _ _.
  destruct (cmdInitModel_effect rest1 w root rs m slug id1 name1 v1 Hfs Hroot1 Hr Hm1 Hin
              Hslug1 Hsp Hid1 Hid1n Hname1 Hv1 Hsv1)
    as (mj1 & vj1 & n1 & E1 & _ & _ & _ & _ & _ & _ & Oid & Over & Odig).
  match type of E1 with _ = (_, ?x) => set (w1 := x) in * end.
  destruct (cmdInitModel_next_version rest2 w1 root rs m slug id2 name2 v2 v1 mj1 vj1 n1
              eq_refl Hne Hroot2 Hr Hm2 Hin Hslug2 Hsp Hid2
              (nonblank_not_empty id2 Hid2n) Hname2 Hv2 Hsv2)
    as (mj & vj & notes & E2 & Fid & Fname & Fmod & [o Fown] & Fcreated & Fver
        & Gid & Gver & Gdig).
  match type of E2 with _ = (_, ?x) => set (w2 := x) in * end.
  pose proof (validate_released vrest w2 root rs m slug v1 vj1 id1 v2 mj vj notes
                id2 name2 o Hhv Hrootv Hr Hnm eq_refl Hin Hsp Hsv1 Hnot1 Hsv2 Hnot2 Hne
                Hid2n Hname2n Hdate Fid Fname Fmod Fown Fcreated Fver Gid Gver Gdig
                Oid Over Odig) as V.
  pose proof (modality_plain m Hin) as Hmp.
  pose proof (semver_file_plain v1 Hsv1) as Hvp1.
  pose proof (semver_file_plain v2 Hsv2) as Hvp2.
  pose proof (proj1 Hr) as Frs.
  exists w1, w2. split; [|split; [|split; [|split]]].
  - rewrite (run_init_handler Date_parse digest_handler publish_handler rest1 w Hh1), E1.
    reflexivity.
  - rewrite (run_init_handler Date_parse digest_handler publish_handler rest2 w1 Hh2), E2.
    reflexivity.
  - exists (Json vj1), (Json vj). split.
    + apply read_plain; [plain_tac | plain_tac |].
      subst w2. cbn [fs]. unfold released_tree. rewrite descend_nest.
      cbn [descend assoc].
      change (String.eqb "versions" "model.json") with false.
      change (String.eqb "versions" "versions") with true.
      cbn [descend assoc]. rewrite String.eqb_refl. reflexivity.
    + apply read_plain; [plain_tac | plain_tac |].
      subst w2. cbn [fs]. unfold released_tree. rewrite descend_nest.
      cbn [descend assoc].
      change (String.eqb "versions" "model.json") with false.
      change (String.eqb "versions" "versions") with true.
      cbn [descend assoc].
      replace (String.eqb (v2 ++ ".json") (v1 ++ ".json")) with false.
      2:{ symmetry. apply String.eqb_neq. intros E. apply append_json_inj in E. congruence. }
      rewrite String.eqb_refl. reflexivity.
  - intros E. rewrite V. apply String.eqb_eq in E. rewrite E. reflexivity.
  - intros N. rewrite V. apply String.eqb_neq in N. rewrite N. reflexivity.
Qed.

End SecondVersion.

Lemma second_version_keeps_the_first_witness :
  exists w1 w2,
    run Date_parse_example cmd_example cmd_example
        (init_args init_flags_example) world_empty = (0%Z, w1) /\
    run Date_parse_example cmd_example cmd_example
        (init_args (init_flags_example ++ ["--version"; "0.2.0"])) w1 = (0%Z, w2) /\
    (exists c1 c2,
       eval (Fs.readFileSync
               (path_of (([] ++ ["models"; "text"; "foo"]) ++
                         ["versions"; ("0.1.0" ++ ".json")%string]))) w2 = Ret c1 /\
       eval (Fs.readFileSync
               (path_of (([] ++ ["models"; "text"; "foo"]) ++
                         ["versions"; ("0.2.0" ++ ".json")%string]))) w2 = Ret c2) /\
    ("org/foo" = "org/foo" ->
     run Date_parse_example cmd_example cmd_example (validate_args []) w2 =
     (0%Z, with_output w2 "OK: models registry validation passed.")) /\
    ("org/foo" <> "org/foo" ->
     run Date_parse_example cmd_example cmd_example (validate_args []) w2 =
     (1%Z, with_error w2
             ("version.modelId mismatch: " ++
              path_of (([] ++ ["models"; "text"; "foo"]) ++
                       ["versions"; ("0.1.0" ++ ".json")%string])))).
Proof.
  apply (second_version_keeps_the_first Date_parse_example cmd_example cmd_example
           init_flags_example (init_flags_example ++ ["--version"; "0.2.0"]) []
           world_empty "." [] "text" "foo" "org/foo" "foo" "0.1.0" "org/foo" "foo" "0.2.0").
  - reflexivity.
  - reflexivity.
  - split; reflexivity.
  - split; reflexivity.
  - split; reflexivity.
  - reflexivity.
  - reflexivity.
  - reflexivity.
  - split; [constructor | left; split; reflexivity].
  - intros [].
  - reflexivity.
  - reflexivity.
  - left. reflexivity.
  - reflexivity.
  - reflexivity.
  - reflexivity.
  - reflexivity.
  - reflexivity.
  - reflexivity.
  - reflexivity.
  - reflexivity.
  - reflexivity.
  - reflexivity.
  - reflexivity.
  - reflexivity.
  - reflexivity.
  - reflexivity.
  - reflexivity.
  - reflexivity.
  - discriminate.
  - reflexivity.
  - reflexivity.
  - reflexivity.
Defined.
